(** * darktable: the velvia module, the DNG tag writer and the benchmark script

    A shallow embedding of
    - [src/iop/velvia.c]: parameter migration ([legacy_params]) and the two
      executors ([process], [process_cl]);
    - [src/common/imageio_dng.h]: the big-endian tag writer and the TIFF/DNG
      header and file writers;
    - [src/tests/benchmark/darktable-bench]: the timing-line parser, the
      version query, the main loop and the search for the sidecar.

    C [float] is IEEE-754 binary32, modelled with the Standard Library's
    [SpecFloat] at precision 24 and maximal exponent 128 (every operation
    rounds to nearest, ties to even).  Python's [float] is binary64, the same
    model at precision 53 and maximal exponent 1024.  Pixel buffers are flat
    lists of floats, byte buffers flat lists of integers in [0,256); an
    access outside a buffer is undefined in C and makes the model return
    [None]. *)

From Stdlib Require Import ZArith Lia Bool List String Ascii Sorted.
From Stdlib Require Import Floats.SpecFloat.
From stdpp Require Import base option list.

(* ===================================================================== *)
(** * Part I: definitions *)
(* ===================================================================== *)

(** ** IEEE-754 binary32 *)

Module F32.

Definition prec : Z := 24.
Definition emax : Z := 128.

Definition t : Type := spec_float.

(** The values a C [float] object can hold. *)
Definition wf (x : t) : Prop := valid_binary prec emax x = true.

Definition add : t -> t -> t := SFadd prec emax.
Definition sub : t -> t -> t := SFsub prec emax.
Definition mul : t -> t -> t := SFmul prec emax.
Definition div : t -> t -> t := SFdiv prec emax.
Definition fabsf : t -> t := SFabs.

(** C's [a < b], [a <= b] and [a > b]; all three are false on a NaN. *)
Definition lt (a b : t) : bool := SFltb a b.
Definition le (a b : t) : bool := SFleb a b.
Definition gt (a b : t) : bool := SFltb b a.

(** Conversion of an integer, correctly rounded. *)
Definition of_Z (z : Z) : t := binary_normalize prec emax z 0 false.

(** The literals of velvia.c. *)
Definition zero : t := S754_zero false.                    (* 0.0f   *)
Definition one : t := S754_finite false 8388608 (-23).     (* 1.0f   *)
Definition two : t := S754_finite false 8388608 (-22).     (* 2.0f   *)
Definition half : t := S754_finite false 8388608 (-24).    (* 0.5f   *)
Definition one_half : t := S754_finite false 12582912 (-23). (* 1.5f *)
Definition hundred : t := S754_finite false 13107200 (-17). (* 100.0f *)
Definition eps : t := S754_finite false 10995116 (-40).    (* 1e-5f  *)

(** The closed unit interval, with C's comparisons. *)
Definition in01 (x : t) : Prop := le zero x = true /\ le x one = true.

End F32.

(** ** velvia.c *)

Module Velvia.

(** [dt_iop_velvia_params_t], version 2 of the parameters. *)
Record dt_iop_velvia_params_t : Type := mk_params {
  strength : F32.t;   (* $MIN: 0.0 $MAX: 100.0 $DEFAULT: 25.0 *)
  bias : F32.t        (* $MIN: 0.0 $MAX: 1.0 $DEFAULT: 1.0 *)
}.

(** [dt_iop_velvia_params1_t], the legacy version 1 parameters. *)
Record dt_iop_velvia_params1_t : Type := mk_params1 {
  saturation : F32.t;
  vibrance : F32.t;
  luminance : F32.t;
  clarity : F32.t
}.

(** [dt_iop_velvia_data_t], the working data of a pipeline piece. *)
Record dt_iop_velvia_data_t : Type := mk_data {
  data_strength : F32.t;
  data_bias : F32.t
}.

(** Assignments to the fields of [*new_params]. *)
Definition set_strength (v : F32.t) (p : dt_iop_velvia_params_t) :=
  {| strength := v; bias := bias p |}.
Definition set_bias (v : F32.t) (p : dt_iop_velvia_params_t) :=
  {| strength := strength p; bias := v |}.

(** [legacy_params]: the returned [int] together with the contents of
    [*new_params] on return. *)
Definition legacy_params (old_params : dt_iop_velvia_params1_t) (old_version : Z)
    (new_params : dt_iop_velvia_params_t) (new_version : Z)
    : Z * dt_iop_velvia_params_t :=
  if ((old_version =? 1) && (new_version =? 2))%Z then
    let old := old_params in
    let new := new_params in
    let new :=
      set_strength (F32.div (F32.mul (saturation old) (vibrance old)) F32.hundred) new in
    let new := set_bias (luminance old) new in
    (0%Z, new)
  else (1%Z, new_params).

(** [commit_params]: parameters are projected into the working data
    unchanged. *)
Definition commit_params (p : dt_iop_velvia_params_t) (d : dt_iop_velvia_data_t)
    : dt_iop_velvia_data_t :=
  let d := {| data_strength := strength p; data_bias := data_bias d |} in
  {| data_strength := data_strength d; data_bias := bias p |}.

(** glib's [MAX] and [MIN]: [((a) > (b)) ? (a) : (b)] and
    [((a) < (b)) ? (a) : (b)]. *)
Definition MAX (a b : F32.t) : F32.t := if F32.gt a b then a else b.
Definition MIN (a b : F32.t) : F32.t := if F32.lt a b then a else b.

(** Modelled from the spec: the macro [CLAMPS] (common/darktable.h is not
    among the sources), "clamping each output channel to [0,1]": the value
    itself when it lies strictly between the bounds, the upper bound when
    it is not below it, the lower bound otherwise (also for a NaN, which
    compares false). *)
Definition CLAMPS (A L H : F32.t) : F32.t :=
  if F32.gt A L then (if F32.lt A H then A else H) else L.

(** *** The body of the pixel loop of [process] *)

Definition pmax_of (in0 in1 in2 : F32.t) : F32.t := MAX in0 (MAX in1 in2).
Definition pmin_of (in0 in1 in2 : F32.t) : F32.t := MIN in0 (MIN in1 in2).
Definition plum_of (pmax pmin : F32.t) : F32.t :=
  F32.div (F32.add pmax pmin) F32.two.

(** The divisors of the two branches of the saturation estimate. *)
Definition psat_divisor_low (pmax pmin : F32.t) : F32.t :=
  F32.add (F32.add F32.eps pmax) pmin.
Definition psat_divisor_high (pmax pmin : F32.t) : F32.t :=
  F32.add F32.eps (MAX F32.zero (F32.sub (F32.sub F32.two pmax) pmin)).

Definition psat_of (plum pmax pmin : F32.t) : F32.t :=
  if F32.le plum F32.half
  then F32.div (F32.sub pmax pmin) (psat_divisor_low pmax pmin)
  else F32.div (F32.sub pmax pmin) (psat_divisor_high pmax pmin).

(** The divisor of the branch that [psat_of] selects. *)
Definition psat_divisor (plum pmax pmin : F32.t) : F32.t :=
  if F32.le plum F32.half
  then psat_divisor_low pmax pmin
  else psat_divisor_high pmax pmin.

Definition pweight_of (bias psat plum : F32.t) : F32.t :=
  CLAMPS
    (F32.div
       (F32.add
          (F32.sub F32.one (F32.mul F32.one_half psat))
          (F32.mul
             (F32.add F32.one (F32.mul (F32.fabsf (F32.sub plum F32.half)) F32.two))
             (F32.sub F32.one bias)))
       (F32.add F32.one (F32.sub F32.one bias)))
    F32.zero F32.one.

(** One output channel: [CLAMPS(a + saturation * (a - 0.5f * (b + c)), 0, 1)]. *)
Definition out_channel (saturation a b c : F32.t) : F32.t :=
  CLAMPS
    (F32.add a (F32.mul saturation (F32.sub a (F32.mul F32.half (F32.add b c)))))
    F32.zero F32.one.

(** The three values stored for one pixel, from the three values read. *)
Definition velvia_pixel (d : dt_iop_velvia_data_t) (strength : F32.t)
    (in0 in1 in2 : F32.t) : F32.t * F32.t * F32.t :=
  let pmax := pmax_of in0 in1 in2 in
  let pmin := pmin_of in0 in1 in2 in
  let plum := plum_of pmax pmin in
  let psat := psat_of plum pmax pmin in
  let pweight := pweight_of (data_bias d) psat plum in
  let saturation := F32.mul strength pweight in
  (out_channel saturation in0 in1 in2,
   out_channel saturation in1 in2 in0,
   out_channel saturation in2 in0 in1).

(** *** Buffers *)

Abbreviation buffer := (list F32.t).

(** [buf[i] = v]; outside the buffer the behaviour is undefined. *)
Definition store (buf : buffer) (i : nat) (v : F32.t) : option buffer :=
  if decide (i < length buf) then Some (<[i:=v]> buf) else None.

(** Conversion of an [int] to [size_t], and the product of two [size_t]. *)
Definition size_t_of_int (i : Z) : Z := (i mod 2 ^ 64)%Z.
Definition size_t_mul (a b : Z) : Z := ((a * b) mod 2 ^ 64)%Z.

(** The two fields of [dt_iop_roi_t] the module reads. *)
Record dt_iop_roi_t : Type := mk_roi { width : Z; height : Z }.

(** [(size_t)roi->width * roi->height], the number of pixels of a region. *)
Definition npixels (roi : dt_iop_roi_t) : nat :=
  Z.to_nat (size_t_mul (size_t_of_int (width roi)) (size_t_of_int (height roi))).

(** One iteration of the loop of [process], for index [k]: three loads from
    [in = ivoid + ch * k], three stores to [out = ovoid + ch * k].  Indices
    are not wrapped: a buffer that holds element [ch * k] is smaller than
    the address space. *)
Definition process_pixel (ch : nat) (d : dt_iop_velvia_data_t) (strength : F32.t)
    (ivoid ovoid : buffer) (k : nat) : option buffer :=
  in0 ← ivoid !! (ch * k + 0);
  in1 ← ivoid !! (ch * k + 1);
  in2 ← ivoid !! (ch * k + 2);
  let '(o0, o1, o2) := velvia_pixel d strength in0 in1 in2 in
  ovoid ← store ovoid (ch * k + 0) o0;
  ovoid ← store ovoid (ch * k + 1) o1;
  store ovoid (ch * k + 2) o2.

(** [for(size_t k = k0; k < k0 + n; k++)]: [n] iterations from [k]. *)
Fixpoint process_loop (ch : nat) (d : dt_iop_velvia_data_t) (strength : F32.t)
    (ivoid : buffer) (n k : nat) (ovoid : buffer) : option buffer :=
  match n with
  | O => Some ovoid
  | S n' =>
      ovoid ← process_pixel ch d strength ivoid ovoid k;
      process_loop ch d strength ivoid n' (S k) ovoid
  end.

(** Modelled from the spec: [dt_iop_image_copy_by_size] (common/imagebuf.h
    is not among the sources), the "exact copy" of the strength short-cut:
    the first [width * height * ch] floats of [out] are replaced by those
    of [in]. *)
Definition dt_iop_image_copy_by_size (out inp : buffer) (w h : Z) (ch : nat)
    : option buffer :=
  let n := (Z.to_nat (size_t_mul w h) * ch)%nat in
  if decide (n <= length inp /\ n <= length out)
  then Some (take n inp ++ drop n out)
  else None.

(** Modelled from the spec: [dt_iop_alpha_copy] (develop/imageop.h is not
    among the sources): the 4th channel of each of the [width * height]
    four-float pixels is "copied verbatim from input to output". *)
Fixpoint alpha_loop (ivoid : buffer) (n k : nat) (ovoid : buffer) : option buffer :=
  match n with
  | O => Some ovoid
  | S n' =>
      a ← ivoid !! (4 * k + 3);
      ovoid ← store ovoid (4 * k + 3) a;
      alpha_loop ivoid n' (S k) ovoid
  end.

Definition dt_iop_alpha_copy (ivoid ovoid : buffer) (w h : Z) : option buffer :=
  alpha_loop ivoid (Z.to_nat (size_t_mul w h)) 0 ovoid.

Section Pipeline.

(** The bit [DT_DEV_PIXELPIPE_DISPLAY_MASK] (develop/pixelpipe.h is not
    among the sources). *)
Variable DT_DEV_PIXELPIPE_DISPLAY_MASK : Z.

(** [piece->pipe->mask_display & DT_DEV_PIXELPIPE_DISPLAY_MASK] as a C
    condition. *)
Definition mask_flag (mask_display : Z) : bool :=
  negb (Z.land mask_display DT_DEV_PIXELPIPE_DISPLAY_MASK =? 0)%Z.

(** [process]: [ch] is [piece->colors], [mask_display] is
    [piece->pipe->mask_display], [ovoid] the contents of the destination
    on entry; the result is its contents on return. *)
Definition process (ch : nat) (data : dt_iop_velvia_data_t) (mask_display : Z)
    (ivoid ovoid : buffer) (roi_in roi_out : dt_iop_roi_t) : option buffer :=
  let strength := F32.div (data_strength data) F32.hundred in
  ovoid ←
    (if F32.le strength F32.zero
     then dt_iop_image_copy_by_size ovoid ivoid
            (size_t_of_int (width roi_out)) (size_t_of_int (height roi_out)) ch
     else process_loop ch data strength ivoid (npixels roi_out) 0 ovoid);
  if mask_flag mask_display
  then dt_iop_alpha_copy ivoid ovoid
         (size_t_of_int (width roi_out)) (size_t_of_int (height roi_out))
  else Some ovoid.

End Pipeline.

(** *** The OpenCL path *)

(** What [process_cl] asks of the OpenCL layer, in program order. *)
Inductive kernel_arg : Type :=
| arg_mem (m : Z)
| arg_int (i : Z)
| arg_float (f : F32.t).

Inductive cl_call : Type :=
| enqueue_copy_image (devid : Z) (src dst : Z) (src_origin dst_origin region : Z * Z * Z)
| set_kernel_arg (devid kernel : Z) (idx : Z) (a : kernel_arg)
| enqueue_kernel_2d (devid kernel : Z) (sizes : Z * Z * Z)
| print_error (err : Z).

Section OpenCL.

(** The macros [ROUNDUPWD] and [ROUNDUPHT] (common/opencl.h is not among
    the sources) and the error code each enqueue call returns. *)
Variables ROUNDUPWD ROUNDUPHT : Z -> Z.
Variable cl_result : cl_call -> Z.

Definition CL_SUCCESS : Z := 0.

(** [process_cl]: the returned [TRUE]/[FALSE] and the calls made. *)
Definition process_cl (devid kernel_velvia : Z) (data : dt_iop_velvia_data_t)
    (dev_in dev_out : Z) (roi_in roi_out : dt_iop_roi_t) : bool * list cl_call :=
  let width := width roi_in in
  let height := height roi_in in
  let strength := F32.div (data_strength data) F32.hundred in
  let bias := data_bias data in
  let sizes := (size_t_of_int (ROUNDUPWD width), size_t_of_int (ROUNDUPHT height), 1%Z) in
  if F32.le strength F32.zero then
    let origin := (0%Z, 0%Z, 0%Z) in
    let region := (size_t_of_int width, size_t_of_int height, 1%Z) in
    let c := enqueue_copy_image devid dev_in dev_out origin origin region in
    let err := cl_result c in
    if (err =? CL_SUCCESS)%Z then (true, [c]) else (false, [c; print_error err])
  else
    let args :=
      [ set_kernel_arg devid kernel_velvia 0 (arg_mem dev_in);
        set_kernel_arg devid kernel_velvia 1 (arg_mem dev_out);
        set_kernel_arg devid kernel_velvia 2 (arg_int width);
        set_kernel_arg devid kernel_velvia 3 (arg_int height);
        set_kernel_arg devid kernel_velvia 4 (arg_float strength);
        set_kernel_arg devid kernel_velvia 5 (arg_float bias) ] in
    let c := enqueue_kernel_2d devid kernel_velvia sizes in
    let err := cl_result c in
    if (err =? CL_SUCCESS)%Z then (true, args ++ [c])
    else (false, args ++ [c; print_error err]).

End OpenCL.

End Velvia.

(** ** imageio_dng.h *)

Module Dng.

(** A [uint8_t] buffer; each element is in [0,256). *)
Abbreviation bytes := (list Z).

(** Conversion to [uint8_t] and to [int] (two's complement wrap-around). *)
Definition uint8 (z : Z) : Z := (z mod 256)%Z.
Definition to_int (z : Z) : Z := ((z + 2 ^ 31) mod 2 ^ 32 - 2 ^ 31)%Z.

(** [buf[i] = v]; outside the buffer the behaviour is undefined. *)
Definition store8 (buf : bytes) (i : Z) (v : Z) : option bytes :=
  if decide (0 <= i < Z.of_nat (length buf))%Z
  then Some (<[Z.to_nat i := v]> buf)
  else None.

Definition load8 (buf : bytes) (i : Z) : option Z :=
  if decide (0 <= i)%Z then buf !! Z.to_nat i else None.

(** [dt_imageio_dng_write_buf]; [val] is an [int], [>>] on it is the
    arithmetic shift. *)
Definition dt_imageio_dng_write_buf (buf : bytes) (adr : Z) (val : Z) : option bytes :=
  buf ← store8 buf (adr + 3) (uint8 (Z.land val 255));
  buf ← store8 buf (adr + 2) (uint8 (Z.land (Z.shiftr val 8) 255));
  buf ← store8 buf (adr + 1) (uint8 (Z.land (Z.shiftr val 16) 255));
  store8 buf adr (uint8 (Z.shiftr val 24)).

(** [dt_imageio_dng_make_tag]: [b] is an offset into [buf]; the result is
    the buffer, the returned pointer [b + 12] and the counter [*cnt]. *)
Definition dt_imageio_dng_make_tag (tag type lng fld : Z) (buf : bytes) (b : Z) (cnt : Z)
    : option (bytes * Z * Z) :=
  buf ← dt_imageio_dng_write_buf buf (b + 0) (to_int (Z.lor (Z.shiftl tag 16) type));
  buf ← dt_imageio_dng_write_buf buf (b + 4) (to_int lng);
  buf ← dt_imageio_dng_write_buf buf (b + 8) (to_int fld);
  Some (buf, (b + 12)%Z, uint8 (cnt + 1)).

Definition LONG : Z := 4.

(** The first statements of [dt_imageio_dng_write_tiff_header]: the zeroed
    1024-byte buffer, the TIFF file header and the first tag. *)
Definition tiff_header_start : option (bytes * Z * Z) :=
  let buf := replicate 1024 0%Z in
  let cnt := 0%Z in
  buf ← store8 buf 0 77;   (* 0x4d *)
  buf ← store8 buf 1 77;   (* 0x4d *)
  buf ← store8 buf 3 42;
  buf ← store8 buf 7 10;
  let b := 12%Z in
  dt_imageio_dng_make_tag 254 LONG 1 0 buf b cnt.

(** How a reader of a big-endian ('MM') file recomposes a 32-bit value:
    [(buf[adr] << 24) + (buf[adr+1] << 16) + (buf[adr+2] << 8) + buf[adr+3]]. *)
Definition read_be32 (buf : bytes) (adr : Z) : option Z :=
  b0 ← load8 buf adr;
  b1 ← load8 buf (adr + 1);
  b2 ← load8 buf (adr + 2);
  b3 ← load8 buf (adr + 3);
  Some (Z.shiftl b0 24 + Z.shiftl b1 16 + Z.shiftl b2 8 + b3)%Z.

End Dng.

(** ** darktable-bench *)

(** IEEE-754 binary64, Python's [float]. *)
Module F64.

Definition prec : Z := 53.
Definition emax : Z := 1024.
Definition t : Type := spec_float.

Definition add : t -> t -> t := SFadd prec emax.
Definition lt (a b : t) : bool := SFltb a b.

Definition zero : t := S754_zero false.                               (* 0.0 *)
Definition minus_one : t := S754_finite true 4503599627370496 (-52).  (* -1  *)

End F64.

Module Bench.

Local Open Scope string_scope.

(** [s.find(sub)] from position [i] on: the lowest index, or -1. *)
Fixpoint find_from (sub s : string) (i : Z) : Z :=
  if String.prefix sub s then i
  else match s with
       | EmptyString => (-1)%Z
       | String _ s' => find_from sub s' (i + 1)%Z
       end.

Definition find (s sub : string) : Z := find_from sub s 0.

(** [sub in s]. *)
Fixpoint contains (sub s : string) : bool :=
  String.prefix sub s ||
  match s with
  | EmptyString => false
  | String _ s' => contains sub s'
  end.

(** [s[n:]] and [s[:n]] for a non-negative [n]. *)
Fixpoint slice_from (s : string) (n : nat) : string :=
  match n, s with
  | O, _ => s
  | S _, EmptyString => EmptyString
  | S n', String _ s' => slice_from s' n'
  end.

Fixpoint slice_to (s : string) (n : nat) : string :=
  match n, s with
  | O, _ => EmptyString
  | S _, EmptyString => EmptyString
  | S n', String c s' => String c (slice_to s' n')
  end.

(** [s.strip()]: white space is tab to carriage return, the separators
    0x1c to 0x1f and the space. *)
Definition is_space (c : ascii) : bool :=
  let n := nat_of_ascii c in
  (((9 <=? n) && (n <=? 13)) || ((28 <=? n) && (n <=? 32)))%nat.

Fixpoint lstrip (s : string) : string :=
  match s with
  | EmptyString => EmptyString
  | String c s' => if is_space c then lstrip s' else s
  end.

Fixpoint rstrip (s : string) : string :=
  match s with
  | EmptyString => EmptyString
  | String c s' =>
      match rstrip s' with
      | EmptyString => if is_space c then EmptyString else String c EmptyString
      | r => String c r
      end
  end.

Definition strip (s : string) : string := rstrip (lstrip s).

(** [s.split('\n')]. *)
Fixpoint split_newline (s : string) : list string :=
  match s with
  | EmptyString => [EmptyString]
  | String c s' =>
      if Ascii.eqb c "010"%char then EmptyString :: split_newline s'
      else match split_newline s' with
           | [] => [String c EmptyString]
           | l :: ls => String c l :: ls
           end
  end.

(** The variables of the loop of [run_benchmark]. *)
Record timings : Type := mk_timings {
  loadtime : F64.t;
  savetime : F64.t;
  pixpipe : F64.t;
  gpu : bool
}.

Section Parser.

(** Python's built-in [float(s)]; [None] stands for the [ValueError] it
    raises on a string that is not a number. *)
Variable py_float : string -> option F64.t.

Definition extract_seconds (line : string) : option F64.t :=
  let pos := find line "took" in
  if (pos >? 0)%Z then
    let line := slice_from line (Z.to_nat (pos + 4)) in
    let pos := find line "sec" in
    if (pos >? 0)%Z then
      let line := slice_to line (Z.to_nat pos) in
      py_float (strip line)
    else Some F64.zero
  else Some F64.zero.

(** The body of [for t in trace]. *)
Definition scan_line (st : timings) (t : string) : option timings :=
  let st :=
    if contains "GPU" t
    then {| loadtime := loadtime st; savetime := savetime st;
            pixpipe := pixpipe st; gpu := true |}
    else st in
  if contains "to load the image" t then
    v ← extract_seconds t;
    Some {| loadtime := v; savetime := savetime st;
            pixpipe := pixpipe st; gpu := gpu st |}
  else if contains "to save the image" t then
    v ← extract_seconds t;
    Some {| loadtime := loadtime st; savetime := v;
            pixpipe := pixpipe st; gpu := gpu st |}
  else if contains "pipeline processing took" t then
    v ← extract_seconds t;
    Some {| loadtime := loadtime st; savetime := savetime st;
            pixpipe := v; gpu := gpu st |}
  else Some st.

Fixpoint scan_trace (st : timings) (trace : list string) : option timings :=
  match trace with
  | [] => Some st
  | t :: trace' => st ← scan_line st t; scan_trace st trace'
  end.

(** [trace.decode('utf-8').split('\n')] when the output is not empty;
    the loop does not run on an empty output. *)
Definition trace_lines (trace : string) : list string :=
  match trace with
  | EmptyString => []
  | _ => split_newline trace
  end.

(** [loadtime = 0.0; savetime = -1; pixpipe = 0.0; gpu = False]; the
    integer -1 is held as the float -1.0, which compares alike. *)
Definition initial_timings : timings :=
  {| loadtime := F64.zero; savetime := F64.minus_one;
     pixpipe := F64.zero; gpu := false |}.

(** The save time after [if savetime < 0: savetime = loadtime]. *)
Definition final_savetime (st : timings) : F64.t :=
  if F64.lt (savetime st) F64.zero then loadtime st else savetime st.

(** [run_benchmark] from the output of darktable-cli on: the triple
    [pixpipe, loadtime+pixpipe+savetime, gpu], or [None] when [float]
    raises. *)
Definition run_benchmark (trace : string) : option (F64.t * F64.t * bool) :=
  st ← scan_trace initial_timings (trace_lines trace);
  let savetime := final_savetime st in
  Some (pixpipe st,
        F64.add (F64.add (loadtime st) (pixpipe st)) savetime,
        gpu st).

End Parser.

End Bench.

(** ** Notions used to state the properties of [process] *)

Module VelviaSpec.
Import Velvia.
Definition chan (c : nat) (p : F32.t * F32.t * F32.t) : F32.t :=
  match c with
  | 0 => fst (fst p)
  | 1 => snd (fst p)
  | _ => snd p
  end.

Definition transformed (ch : nat) (d : dt_iop_velvia_data_t) (s : F32.t)
    (ivoid : buffer) (k c : nat) : option F32.t :=
  in0 ← ivoid !! (ch * k + 0);
  in1 ← ivoid !! (ch * k + 1);
  in2 ← ivoid !! (ch * k + 2);
  Some (chan c (velvia_pixel d s in0 in1 in2)).

(** Channel [c] of output pixel [k] of [process], from pixel [k] of the
    input and of the destination on entry; [mask] is the mask-display
    condition.  No region enters. *)
Definition process_at (ch : nat) (d : dt_iop_velvia_data_t) (mask : bool)
    (ivoid ovoid : buffer) (k c : nat) : option F32.t :=
  let strength := F32.div (data_strength d) F32.hundred in
  if F32.le strength F32.zero then ivoid !! (ch * k + c)
  else if decide (c < 3) then transformed ch d strength ivoid k c
  else if mask then ivoid !! (ch * k + c)
  else ovoid !! (ch * k + c).

(** The sub-rectangle of [w] by [h] pixels at ([x0], [y0]) of a row-major
    buffer whose rows hold [W] pixels of [ch] floats: the buffer a tile of
    the region is processed in. *)
Definition crop (ch W x0 y0 w h : nat) (buf : buffer) : buffer :=
  flat_map (fun y => take (ch * w) (drop (ch * ((y0 + y) * W + x0)) buf)) (seq 0 h).

(** The [ch] floats of pixel [k] of a buffer. *)
Definition pixel_at (ch : nat) (buf : buffer) (k : nat) : list F32.t :=
  take ch (drop (ch * k) buf).

(** Whether [process] stores channel [c] of the pixels of the region: the
    three colour channels always, every channel in the short-cut, and the
    4th channel when the mask-display condition holds. *)
Definition stored (d : dt_iop_velvia_data_t) (mask : bool) (c : nat) : bool :=
  (c <? 3) || F32.le (F32.div (data_strength d) F32.hundred) F32.zero || mask.

(** The value stored in channel [c] of an output pixel, from the floats
    [px] of the input pixel at the same index and the working data alone:
    no destination, no flag and no region enters. *)
Definition pixel_value (d : dt_iop_velvia_data_t) (px : list F32.t) (c : nat)
    : option F32.t :=
  let strength := F32.div (data_strength d) F32.hundred in
  if F32.le strength F32.zero then px !! c
  else if decide (c < 3) then
    in0 ← px !! 0;
    in1 ← px !! 1;
    in2 ← px !! 2;
    Some (chan c (velvia_pixel d strength in0 in1 in2))
  else px !! c.
End VelviaSpec.

(** ** Sample data for the executors *)

Module VelviaData.
Import Velvia.

Definition f08 : F32.t := S754_finite false 13421773 (-24).   (* 0.8f *)
Definition f02 : F32.t := S754_finite false 13421773 (-26).   (* 0.2f *)
Definition f25 : F32.t := S754_finite false 13107200 (-19).   (* 25.0f *)

(** The default parameters (strength 25, bias 1) and a zero strength. *)
Definition data_default : dt_iop_velvia_data_t := mk_data f25 F32.one.
Definition data_off : dt_iop_velvia_data_t := mk_data F32.zero F32.one.

(** A saturated red and a mid-gray pixel, with their 4th channel. *)
Definition red_pixel : buffer := [f08; f02; f02; F32.one].
Definition two_pixels : buffer :=
  [f08; f02; f02; F32.one; F32.half; F32.half; F32.half; F32.zero].

Definition blank (n : nat) : buffer := replicate n F32.two.

Definition cl_ok (c : cl_call) : Z := CL_SUCCESS.

End VelviaData.

(** ** Ordering of positive floats *)

Module FloatSpec.
Local Open Scope Z_scope.

(** A float that is not a NaN and not negative. *)
Definition nonneg (y : spec_float) : Prop :=
  match y with
  | S754_zero _ => True
  | S754_infinity s => s = false
  | S754_finite s _ _ => s = false
  | S754_nan => False
  end.

(** A zero or a finite float. *)
Definition finite (y : spec_float) : Prop :=
  match y with
  | S754_zero _ | S754_finite _ _ _ => True
  | _ => False
  end.

(** The outcome of an operation that is not below the positive float
    [mx * 2^ex]: plus infinity, or a canonical positive float with a
    larger exponent or the same exponent and no smaller mantissa. *)
Definition pos_float_ge (prec emax : Z) (mx : positive) (ex : Z) (r : spec_float) : Prop :=
  r = S754_infinity false \/
  exists m' e',
    r = S754_finite false m' e' /\
    bounded prec emax m' e' = true /\
    (ex < e' \/ (e' = ex /\ (mx <= m')%positive)).

End FloatSpec.

(** ** Sample data for the benchmark script *)

Module BenchData.

(** A parser that knows two numbers, enough to run the script on a trace. *)
Definition toy_float (s : string) : option F64.t :=
  if String.eqb s "1.5" then Some (S754_finite false 6755399441055744 (-52))
  else if String.eqb s "2" then Some (S754_finite false 4503599627370496 (-51))
  else None.

Definition sample_trace : string :=
  String.append "[dev] took 1.5 secs (1.4 CPU) to load the image."
    (String "010"%char "[dev_process_export] pixel pipeline processing took 2 secs (7.9 CPU)").

End BenchData.

(** ** Classification of the OpenCL calls *)

Module VelviaClSpec.
Import Velvia.

Definition is_enqueue (c : cl_call) : bool :=
  match c with
  | enqueue_copy_image _ _ _ _ _ _ => true
  | enqueue_kernel_2d _ _ _ => true
  | _ => false
  end.

Definition is_print_error (c : cl_call) : bool :=
  match c with print_error _ => true | _ => false end.

End VelviaClSpec.

(** ** darktable-bench: the branches of the scanning loop *)

Module BenchSpec.
Import Bench.

(** The branch of the [if]/[elif] chain of [run_benchmark] a line takes. *)
Definition is_load (t : string) : bool := contains "to load the image" t.
Definition is_save (t : string) : bool :=
  negb (is_load t) && contains "to save the image" t.
Definition is_pixpipe (t : string) : bool :=
  negb (is_load t) && negb (contains "to save the image" t)
  && contains "pipeline processing took" t.

End BenchSpec.

(** ** darktable-bench: the main program *)

Module BenchMain.
Import Bench.

(** The exceptions the modelled part of the script can raise. *)
Inductive py_error : Type := ValueError | ZeroDivisionError | IndexError.

Definition div64 : F64.t -> F64.t -> F64.t := SFdiv F64.prec F64.emax.

(** Conversion of a Python [int] to [float]. *)
Definition float_of_int (z : Z) : F64.t := binary_normalize F64.prec F64.emax z 0 false.

(** [s.replace(old, '')] for a non-empty [old]: occurrences are removed from
    left to right and do not overlap; [skip] counts the characters of the
    occurrence being removed that are still to be dropped. *)
Fixpoint remove_all (old s : string) (skip : nat) : string :=
  match s with
  | EmptyString => EmptyString
  | String c s' =>
      match skip with
      | S k => remove_all old s' k
      | O =>
          if String.prefix old s
          then remove_all old s' (String.length old - 1)
          else String c (remove_all old s' 0)
      end
  end.

(** [get_version] from the output of [darktable-cli --version] on: an empty
    output is left as it is and indexing it raises [IndexError]. *)
Definition get_version (output : string) : py_error + string :=
  match output with
  | EmptyString => inl IndexError
  | _ =>
      let output := split_newline output in
      let line0 := hd EmptyString output in
      if contains "this is " line0
      then inr (remove_all "-cli" (slice_from line0 8) 0)
      else inr "(Undetermined darktable version)"%string
  end.

(** Python's [a / b] on floats: a zero divisor raises. *)
Definition py_div (a b : F64.t) : py_error + F64.t :=
  if SFeqb b F64.zero then inl ZeroDivisionError else inr (div64 a b).

(** The arithmetic of [print_performance]: [thruput = 3600 / total]. *)
Definition print_performance (total : F64.t) : py_error + F64.t :=
  py_div (float_of_int 3600) total.

Section Parser.
Variable py_float : string -> option F64.t.

(** The loop of [main]: one trace per repetition. *)
Fixpoint main_loop (runs : list string) (pixpipe total : F64.t) (used_gpu : bool)
    : py_error + (F64.t * F64.t * bool) :=
  match runs with
  | [] => inr (pixpipe, total, used_gpu)
  | trace :: runs' =>
      match run_benchmark py_float trace with
      | None => inl ValueError
      | Some (p, t, g) =>
          let pixpipe := F64.add pixpipe p in
          let total := F64.add total t in
          let used_gpu := if g then true else used_gpu in
          main_loop runs' pixpipe total used_gpu
      end
  end.

(** [main] from the outputs of the child processes on: the trace of the
    warm-up run, the traces of the [args.reps] measured runs and the output
    of [--version].  The result is the version string, the two averages, the
    throughput and the GPU flag that [print_performance] reports. *)
Definition main (warmup : string) (runs : list string) (version_output : string)
    : py_error + (string * F64.t * F64.t * F64.t * bool) :=
  match run_benchmark py_float warmup with
  | None => inl ValueError
  | Some _ =>
      match main_loop runs F64.zero F64.zero false with
      | inl e => inl e
      | inr (pixpipe, total, used_gpu) =>
          let reps := float_of_int (Z.of_nat (length runs)) in
          match py_div total reps with
          | inl e => inl e
          | inr total =>
              match py_div pixpipe reps with
              | inl e => inl e
              | inr pixpipe =>
                  match get_version version_output with
                  | inl e => inl e
                  | inr dtversion =>
                      match print_performance total with
                      | inl e => inl e
                      | inr thruput => inr (dtversion, pixpipe, total, thruput, used_gpu)
                      end
                  end
              end
          end
      end
  end.

End Parser.

(** No line of the output mentions "took". *)
Definition no_timings (trace : string) : Prop :=
  Forall (fun t => contains "took" t = false) (trace_lines trace).

End BenchMain.

(** ** Conversions of binary32 values *)

Module F32Conv.

Definition is_nan (x : F32.t) : bool :=
  match x with S754_nan => true | _ => false end.

(** C's [roundf]: the nearest integral value, halfway cases away from zero. *)
Definition roundf (x : F32.t) : F32.t :=
  match x with
  | S754_finite s m e =>
      if (0 <=? e)%Z then x
      else
        let q := ((Zpos m + 2 ^ (- e - 1)) / 2 ^ (- e))%Z in
        if (q =? 0)%Z then S754_zero s
        else binary_normalize F32.prec F32.emax (cond_Zopp s q) 0 false
  | _ => x
  end.

(** Conversion of a [float] to [int]: truncation toward zero; the behaviour
    is undefined when the value does not fit. *)
Definition to_int (x : F32.t) : option Z :=
  match x with
  | S754_zero _ => Some 0%Z
  | S754_finite s m e =>
      let v := cond_Zopp s (if (0 <=? e)%Z then Zpos m * 2 ^ e else Zpos m / 2 ^ (- e))%Z in
      if ((- 2 ^ 31 <=? v) && (v <? 2 ^ 31))%Z then Some v else None
  | _ => None
  end.

(** The object representation of a [float] read as [uint32_t]. *)
Definition bits (x : F32.t) : Z :=
  match x with
  | S754_zero s => if s then 2 ^ 31 else 0
  | S754_infinity s => (if s then 2 ^ 31 else 0) + 255 * 2 ^ 23
  | S754_nan => 255 * 2 ^ 23 + 2 ^ 22
  | S754_finite s m e =>
      (if s then 2 ^ 31 else 0)
      + (if (Zpos (digits2_pos m) =? F32.prec)%Z
         then (e + 150) * 2 ^ 23 + (Zpos m - 2 ^ 23)
         else Zpos m)
  end%Z.

End F32Conv.

(** ** imageio_dng.h: the header writer *)

Module DngHeader.
Import Dng.
Local Open Scope Z_scope.

Definition BYTE : Z := 1.
Definition SHORT : Z := 3.
Definition RATIONAL : Z := 5.
Definition SRATIONAL : Z := 10.

(** Arithmetic on [uint32_t]. *)
Definition uint32 (z : Z) : Z := z mod 2 ^ 32.

(** [memcpy(buf + adr, src, n)]. *)
Definition memcpy (buf : bytes) (adr : nat) (src : bytes) (n : nat) : option bytes :=
  if decide (n <= length src /\ adr + n <= length buf)%nat
  then Some (take adr buf ++ take n src ++ drop (adr + n) buf)
  else None.

(** The default matrix, XYZ to sRGB at D65, over 1000000. *)
Definition default_matrix : list Z :=
  [3240454; -1537138; -498531; -969266; 1876010; 41556; 55643; -204025; 1057225].

Definition cfapattern (filter : Z) : Z :=
  if filter =? 2492765332 (* 0x94949494 *) then Z.lor (Z.lor (Z.lor (Z.shiftl 0 24) (Z.shiftl 1 16)) (Z.shiftl 1 8)) 2
  else if filter =? 1229539657 (* 0x49494949 *) then Z.lor (Z.lor (Z.lor (Z.shiftl 1 24) (Z.shiftl 2 16)) (Z.shiftl 0 8)) 1
  else if filter =? 1633771873 (* 0x61616161 *) then Z.lor (Z.lor (Z.lor (Z.shiftl 1 24) (Z.shiftl 0 16)) (Z.shiftl 2 8)) 1
  else Z.lor (Z.lor (Z.lor (Z.shiftl 2 24) (Z.shiftl 1 16)) (Z.shiftl 1 8)) 0.

(** [for(k = k0; k < k0 + n; k++) { write_buf(buf, base+k*8, num[k]);
    write_buf(buf, base+4+k*8, den); }] *)
Fixpoint write_rationals (buf : bytes) (base : Z) (nums : list Z) (den : Z) (k : Z)
    : option bytes :=
  match nums with
  | [] => Some buf
  | num :: nums' =>
      buf ← dt_imageio_dng_write_buf buf (base + k * 8) num;
      buf ← dt_imageio_dng_write_buf buf (base + 4 + k * 8) den;
      write_rationals buf base nums' den (k + 1)
  end.

Section Header.

(** The macro [ADOBE_COEFF_FACTOR] (common/exif.h is not among the
    sources), an integer constant. *)
Variable ADOBE_COEFF_FACTOR : Z.

(** [m[k*3+i] = roundf(adobe_XYZ_to_CAM[k][i] * ADOBE_COEFF_FACTOR)] for the
    first three rows of the matrix. *)
Definition camera_matrix (adobe : list F32.t) : option (list Z) :=
  mapM (fun j => a ← adobe !! j;
                  F32Conv.to_int
                    (F32Conv.roundf (F32.mul a (F32.of_Z ADOBE_COEFF_FACTOR))))
       (seq 0 9).

(** [(int)roundf(((float)den * wb_coeffs[1]) / wb_coeffs[k])] for k = 0, 1, 2. *)
Definition neutral_coeffs (den : Z) (wb_coeffs : list F32.t) : option (list Z) :=
  mapM (fun k => wb1 ← wb_coeffs !! 1%nat;
                  wbk ← wb_coeffs !! k;
                  F32Conv.to_int
                    (F32Conv.roundf (F32.div (F32.mul (F32.of_Z den) wb1) wbk)))
       (seq 0 3).

(** The first part of [dt_imageio_dng_write_tiff_header]: the file header
    and the directory, up to [buf[11] = cnt - 1].  [32803 << 16] does not
    fit an [int]; the value passed on is its 32-bit pattern, 0x80230000. *)
Definition header_directory (xs ys filter : Z) (whitelevel : F32.t) : option bytes :=
  let channels := 1 in
  let cnt := 0 in
  let buf := replicate 1024 0 in
  buf ← store8 buf 0 77;
  buf ← store8 buf 1 77;
  buf ← store8 buf 3 42;
  buf ← store8 buf 7 10;
  let b := 12 in
  '(buf, b, cnt) ← dt_imageio_dng_make_tag 254 LONG 1 0 buf b cnt;
  '(buf, b, cnt) ← dt_imageio_dng_make_tag 256 SHORT 1 (uint32 (Z.shiftl xs 16)) buf b cnt;
  '(buf, b, cnt) ← dt_imageio_dng_make_tag 257 SHORT 1 (uint32 (Z.shiftl ys 16)) buf b cnt;
  '(buf, b, cnt) ← dt_imageio_dng_make_tag 258 SHORT 1 (Z.shiftl 32 16) buf b cnt;
  '(buf, b, cnt) ← dt_imageio_dng_make_tag 259 SHORT 1 (Z.shiftl 1 16) buf b cnt;
  '(buf, b, cnt) ← dt_imageio_dng_make_tag 262 SHORT 1 (Z.shiftl 32803 16) buf b cnt;
  '(buf, b, cnt) ← dt_imageio_dng_make_tag 273 LONG 1 584 buf b cnt;
  '(buf, b, cnt) ← dt_imageio_dng_make_tag 274 SHORT 1 (Z.shiftl 1 16) buf b cnt;
  '(buf, b, cnt) ← dt_imageio_dng_make_tag 277 SHORT 1 (uint32 (Z.shiftl channels 16)) buf b cnt;
  '(buf, b, cnt) ← dt_imageio_dng_make_tag 278 SHORT 1 (uint32 (Z.shiftl ys 16)) buf b cnt;
  '(buf, b, cnt) ← dt_imageio_dng_make_tag 279 LONG 1
                     (uint32 (uint32 (uint32 (ys * xs) * channels) * 4)) buf b cnt;
  '(buf, b, cnt) ← dt_imageio_dng_make_tag 284 SHORT 1 (Z.shiftl 1 16) buf b cnt;
  '(buf, b, cnt) ← dt_imageio_dng_make_tag 339 SHORT 1 (Z.shiftl 3 16) buf b cnt;
  '(buf, b, cnt) ←
     (if filter =? 9
      then dt_imageio_dng_make_tag 33421 SHORT 2 (Z.lor (Z.shiftl 6 16) 6) buf b cnt
      else dt_imageio_dng_make_tag 33421 SHORT 2 (Z.lor (Z.shiftl 2 16) 2) buf b cnt);
  let cfapattern := cfapattern filter in
  '(buf, b, cnt) ←
     (if filter =? 9
      then dt_imageio_dng_make_tag 33422 BYTE 36 400 buf b cnt
      else dt_imageio_dng_make_tag 33422 BYTE 4 cfapattern buf b cnt);
  '(buf, b, cnt) ← dt_imageio_dng_make_tag 50706 BYTE 4
                     (Z.lor (Z.shiftl 1 24) (Z.shiftl 2 16)) buf b cnt;
  '(buf, b, cnt) ← dt_imageio_dng_make_tag 50707 BYTE 4
                     (Z.lor (Z.shiftl 1 24) (Z.shiftl 1 16)) buf b cnt;
  let white_u := F32Conv.bits whitelevel in
  '(buf, b, cnt) ← dt_imageio_dng_make_tag 50717 LONG 1 white_u buf b cnt;
  '(buf, b, cnt) ← dt_imageio_dng_make_tag 50721 SRATIONAL 9 480 buf b cnt;
  '(buf, b, cnt) ← dt_imageio_dng_make_tag 50728 RATIONAL 3 556 buf b cnt;
  '(buf, b, cnt) ← dt_imageio_dng_make_tag 50778 SHORT 1 (Z.shiftl 21 16) buf b cnt;
  '(buf, b, cnt) ← dt_imageio_dng_make_tag 0 0 0 0 buf b cnt;
  store8 buf 11 (uint8 (cnt - 1)).

(** The second part: the X-Trans pattern, the colour matrix and the
    as-shot neutral, then the 584 bytes handed to [fwrite]. *)
Definition header_data (buf : bytes) (xtrans : bytes) (wb_coeffs adobe : list F32.t)
    : option bytes :=
  let m := default_matrix in
  let den := 1000000 in
  buf ← memcpy buf 400 xtrans 36;
  a00 ← adobe !! 0%nat;
  '(m, den) ← (if negb (F32Conv.is_nan a00)
               then m ← camera_matrix adobe; Some (m, ADOBE_COEFF_FACTOR)
               else Some (m, den));
  buf ← write_rationals buf 480 m den 0;
  let den := 1000000 in
  coeffs ← neutral_coeffs den wb_coeffs;
  buf ← write_rationals buf 556 coeffs den 0;
  Some (take 584 buf).

(** [dt_imageio_dng_write_tiff_header]: the bytes written to the file.
    [xs], [ys] and [filter] are [uint32_t], [xtrans] the 36 bytes of the
    6x6 array, [wb_coeffs] four floats and [adobe] the twelve floats of the
    4x3 matrix in row-major order. *)
Definition dt_imageio_dng_write_tiff_header (xs ys filter : Z) (xtrans : bytes)
    (whitelevel : F32.t) (wb_coeffs adobe : list F32.t) : option bytes :=
  buf ← header_directory xs ys filter whitelevel;
  header_data buf xtrans wb_coeffs adobe.

End Header.

(** A big-endian 16-bit read, as for a SHORT value. *)
Definition read_be16 (buf : bytes) (adr : Z) : option Z :=
  b0 ← load8 buf adr;
  b1 ← load8 buf (adr + 1);
  Some (Z.shiftl b0 8 + b1).

(** Entry [i] of the directory that starts at offset 10: tag, type, count
    and value field, as a reader of the file decodes them. *)
Definition read_entry (buf : bytes) (i : Z) : option (Z * Z * Z * Z) :=
  tag ← read_be16 buf (12 + 12 * i);
  type ← read_be16 buf (12 + 12 * i + 2);
  count ← read_be32 buf (12 + 12 * i + 4);
  value ← read_be32 buf (12 + 12 * i + 8);
  Some (tag, type, count, value).


(** The directory as a reader decodes it: tag, type, count and the 32-bit
    value field of each entry. *)
Definition ifd_entries (xs ys filter : Z) (whitelevel : F32.t) : list (Z * Z * Z * Z) :=
  [ (254, LONG, 1, 0);
    (256, SHORT, 1, uint32 (Z.shiftl xs 16));
    (257, SHORT, 1, uint32 (Z.shiftl ys 16));
    (258, SHORT, 1, Z.shiftl 32 16);
    (259, SHORT, 1, Z.shiftl 1 16);
    (262, SHORT, 1, Z.shiftl 32803 16);
    (273, LONG, 1, 584);
    (274, SHORT, 1, Z.shiftl 1 16);
    (277, SHORT, 1, Z.shiftl 1 16);
    (278, SHORT, 1, uint32 (Z.shiftl ys 16));
    (279, LONG, 1, uint32 (ys * xs * 4));
    (284, SHORT, 1, Z.shiftl 1 16);
    (339, SHORT, 1, Z.shiftl 3 16);
    (33421, SHORT, 2, if filter =? 9 then 6 * 65536 + 6 else 2 * 65536 + 2);
    (33422, BYTE, if filter =? 9 then 36 else 4,
     if filter =? 9 then 400 else cfapattern filter);
    (50706, BYTE, 4, 1 * 16777216 + 2 * 65536);
    (50707, BYTE, 4, 1 * 16777216 + 1 * 65536);
    (50717, LONG, 1, uint32 (F32Conv.bits whitelevel));
    (50721, SRATIONAL, 9, 480);
    (50728, RATIONAL, 3, 556);
    (50778, SHORT, 1, Z.shiftl 21 16);
    (0, 0, 0, 0) ].

(** The tags of the directory, in the order of the calls. *)
Definition ifd_tags : list Z :=
  [254; 256; 257; 258; 259; 262; 273; 274; 277; 278; 279; 284; 339;
   33421; 33422; 50706; 50707; 50717; 50721; 50728; 50778].

(** The entries [es] are in the directory of [buf], from offset 12 on. *)
Definition dir_inv (buf : bytes) (es : list (Z * Z * Z * Z)) : Prop :=
  forall i tag type count value,
    es !! i = Some (tag, type, count, value) ->
    read_be16 buf (12 + 12 * Z.of_nat i) = Some tag /\
    read_be16 buf (12 + 12 * Z.of_nat i + 2) = Some type /\
    read_be32 buf (12 + 12 * Z.of_nat i) = Some (tag * 65536 + type) /\
    read_be32 buf (12 + 12 * Z.of_nat i + 4) = Some count /\
    read_be32 buf (12 + 12 * Z.of_nat i + 8) = Some (value mod 2 ^ 32).

(** The state of the 1024-byte buffer while the directory is written:
    the entries so far, and the file header of [buf0] in front of them. *)
Definition dir_state (buf0 buf : bytes) (es : list (Z * Z * Z * Z)) : Prop :=
  length buf = 1024%nat /\ dir_inv buf es /\
  forall i, i < 12 -> load8 buf i = load8 buf0 i.

End DngHeader.

(** ** Sample data for the header writer *)

Module DngData.
Import Dng DngHeader.

Definition sample_xtrans : bytes := replicate 36 1%Z.
Definition sample_wb : list F32.t := [F32.two; F32.one; F32.one_half; F32.zero].
Definition sample_adobe : list F32.t := S754_nan :: replicate 11 F32.zero.

(** The header of a 4000 x 6000 X-Trans image without camera matrix. *)
Definition sample_header : bytes :=
  default [] (dt_imageio_dng_write_tiff_header 10000 4000 6000 9 sample_xtrans F32.one
                sample_wb sample_adobe).

End DngData.

(** ** imageio_dng.h: the file writer *)

Module DngFile.
Import Dng DngHeader.
Local Open Scope Z_scope.

Section File.

Variable ADOBE_COEFF_FACTOR : Z.

(** The four bytes of a [float] in memory, in the byte order of the host. *)
Variable float_bytes : F32.t -> bytes.

(** [dt_exif_write_blob(exif, exif_len, filename, 0)] (common/exif.h is not
    among the sources): what it makes of the contents of the file, from
    the blob and its length. *)
Variable dt_exif_write_blob : bytes -> Z -> bytes -> bytes.

(** [dt_imageio_write_dng] when the file could be opened and both [fwrite]
    calls wrote everything: the contents of the file on return.  The two
    calls write the header and then [(size_t)wd * ht] floats of [pixel];
    [wd] and [ht] are [int], converted to [uint32_t] for the header and to
    [size_t] for the number of floats, which [pixel] must hold.  [exif] is
    [None] for a null pointer; otherwise [dt_exif_write_blob] works on the
    file after it was closed. *)
Definition dt_imageio_write_dng (pixel : list F32.t) (wd ht : Z)
    (exif : option bytes) (exif_len : Z) (filter : Z)
    (xtrans : bytes) (whitelevel : F32.t) (wb_coeffs adobe : list F32.t) : option bytes :=
  hdr ← dt_imageio_dng_write_tiff_header ADOBE_COEFF_FACTOR (uint32 wd) (uint32 ht) filter
          xtrans whitelevel wb_coeffs adobe;
  let n := Velvia.size_t_mul (Velvia.size_t_of_int wd) (Velvia.size_t_of_int ht) in
  if decide (Z.to_nat n <= length pixel)%nat
  then
    let written := hdr ++ flat_map float_bytes (take (Z.to_nat n) pixel) in
    match exif with
    | Some blob => Some (dt_exif_write_blob blob exif_len written)
    | None => Some written
    end
  else None.

End File.

End DngFile.

Module DngFileData.
Import Dng.
Local Open Scope Z_scope.

(** Little-endian bytes of the bit pattern, as on x86. *)
Definition sample_float_bytes (x : F32.t) : bytes :=
  let u := F32Conv.bits x in
  [u mod 256; (u / 256) mod 256; (u / 65536) mod 256; (u / 16777216) mod 256].

(** A stand-in for the EXIF writer: the blob is put behind the file. *)
Definition sample_exif_write_blob (blob : bytes) (len : Z) (file : bytes) : bytes :=
  file ++ take (Z.to_nat len) blob.

End DngFileData.

(** ** darktable-bench: locating the script and the sidecar *)

Module BenchPaths.
Import Bench BenchMain.
Local Open Scope string_scope.

(** How a function of the script ends: it returns, it calls [exit], or an
    exception leaves it. *)
Inductive outcome (A : Type) : Type :=
| Return (a : A)
| Exit (code : Z)
| Raise (e : py_error).
Arguments Return {A} a.
Arguments Exit {A} code.
Arguments Raise {A} e.

(** The parts of [s] before and after the last occurrence of the character
    [c]; [None] when [c] does not occur. *)
Fixpoint rsplit_char (c : ascii) (s : string) : option (string * string) :=
  match s with
  | EmptyString => None
  | String a s' =>
      match rsplit_char c s' with
      | Some (b, t) => Some (String a b, t)
      | None => if Ascii.eqb a c then Some (EmptyString, s') else None
      end
  end.

(** [s.rpartition(c)] for a separator of one character. *)
Definition rpartition (c : ascii) (s : string) : string * string * string :=
  match rsplit_char c s with
  | Some (a, b) => (a, String c EmptyString, b)
  | None => (EmptyString, EmptyString, s)
  end.

(** [s[0] == '/' or s[0] == '\\'] for a non-empty [s]. *)
Definition sep_head (s : string) : bool :=
  match s with
  | EmptyString => false
  | String c _ => Ascii.eqb c "/" || Ascii.eqb c "\"
  end.

(** The same test with the [IndexError] of [s[0]] on the empty string. *)
Definition starts_with_sep (s : string) : outcome bool :=
  match s with
  | EmptyString => Raise IndexError
  | _ => Return (sep_head s)
  end.

(** ['/' in s or '\\' in s]. *)
Definition has_sep (s : string) : bool := contains "/" s || contains "\" s.

(** [s.endswith(suf)]. *)
Definition endswith (s suf : string) : bool :=
  (String.length suf <=? String.length s)%nat
  && String.eqb (slice_from s (String.length s - String.length suf)) suf.

Section Env.

(** [os.getcwd()], [sys.argv[0]] and [os.path.exists]. *)
Variable getcwd : string.
Variable argv0 : string.
Variable path_exists : string -> bool.

Definition whereami : outcome string :=
  let '(path, _, exe) := rpartition "/" argv0 in
  if String.eqb exe "" then Return getcwd
  else
    let path := path ++ "/" in
    match starts_with_sep path with
    | Return true => Return path
    | Return false => Return (getcwd ++ "/" ++ path)
    | Exit code => Exit code
    | Raise e => Raise e
    end.

Definition locate_xmp (xmp version : string) : outcome string :=
  let xmp := if endswith xmp ".xmp" then slice_to xmp (String.length xmp - 4) else xmp in
  let xmp := if negb (String.eqb version "") then xmp ++ "-" ++ version ++ ".xmp" else xmp in
  if has_sep xmp then
    match starts_with_sep xmp with
    | Return true => Return xmp
    | Return false => Return (getcwd ++ "/" ++ xmp)
    | Exit code => Exit code
    | Raise e => Raise e
    end
  else if path_exists xmp then Return (getcwd ++ "/" ++ xmp)
  else
    match whereami with
    | Return loc =>
        if path_exists (loc ++ xmp) then Return (loc ++ xmp)
        else
          let xmp_path := getcwd ++ "/src/tests/benchmark/" ++ xmp in
          if path_exists xmp_path then Return xmp_path
          else Exit 1
    | Exit code => Exit code
    | Raise e => Raise e
    end.

End Env.

(** The name of the sidecar [locate_xmp] looks for. *)
Definition sidecar_name (xmp version : string) : string :=
  (if endswith xmp ".xmp" then slice_to xmp (String.length xmp - 4) else xmp)
  ++ "-" ++ version ++ ".xmp".

End BenchPaths.

(* ===================================================================== *)
(** * Part II: properties *)
(* ===================================================================== *)

(** ** Parameter migration *)

Module VelviaMigration.
Import Velvia.

(** C5.  [legacy_params] returns 0 exactly for the version pair (1, 2); in
    every other case it returns 1 and leaves [*new_params] as it was. *)
Theorem legacy_params_succeeds_iff
    (old : dt_iop_velvia_params1_t) (old_version : Z)
    (new : dt_iop_velvia_params_t) (new_version : Z) :
  (fst (legacy_params old old_version new new_version) = 0%Z
     <-> old_version = 1%Z /\ new_version = 2%Z) /\
  (~ (old_version = 1%Z /\ new_version = 2%Z) ->
     legacy_params old old_version new new_version = (1%Z, new)).
Proof.
  unfold legacy_params.
  destruct (Z.eqb_spec old_version 1) as [Ho | Ho];
    destruct (Z.eqb_spec new_version 2) as [Hn | Hn]; cbn [andb fst];
    (split; [split; [intros H; try discriminate H; auto | intros [? ?]; congruence]
            | intros H; try reflexivity; exfalso; apply H; auto]).
Qed.

Lemma legacy_params_succeeds_iff_witness :
  legacy_params (mk_params1 F32.one F32.two F32.half F32.zero) 2
                (mk_params F32.hundred F32.one) 3
  = (1%Z, mk_params F32.hundred F32.one).
Proof.
  apply (proj2 (legacy_params_succeeds_iff
                  (mk_params1 F32.one F32.two F32.half F32.zero) 2
                  (mk_params F32.hundred F32.one) 3)).
  intros [H _]. discriminate H.
Defined.

(** C6.  The migration from version 1 to version 2 is a function of the old
    record alone: strength is saturation * vibrance / 100, bias is
    luminance, whatever [*new_params] held and without any clamping; there
    are old records whose migrated strength exceeds 100 and whose
    migrated bias exceeds 1. *)
Theorem legacy_params_v1_v2_unclamped :
  (forall (old : dt_iop_velvia_params1_t) (new : dt_iop_velvia_params_t),
      legacy_params old 1 new 2
      = (0%Z, {| strength := F32.div (F32.mul (saturation old) (vibrance old)) F32.hundred;
                 bias := luminance old |})) /\
  (exists old : dt_iop_velvia_params1_t,
      forall new : dt_iop_velvia_params_t,
        let p := snd (legacy_params old 1 new 2) in
        F32.lt F32.hundred (strength p) = true /\ F32.lt F32.one (bias p) = true).
Proof.
  split.
  - intros old new. reflexivity.
  - exists (mk_params1 (F32.of_Z 200) (F32.of_Z 200) F32.two F32.zero).
    intros new. split; vm_compute; reflexivity.
Qed.

End VelviaMigration.

(** ** The DNG tag writer *)

Module DngFacts.
Import Dng.

Lemma store8_Some (buf : bytes) (i v : Z) :
  (0 <= i < Z.of_nat (length buf))%Z ->
  store8 buf i v = Some (<[Z.to_nat i := v]> buf).
Proof. intros H. unfold store8. rewrite decide_True; auto. Qed.

(** The four bytes written recompose to the value modulo 2^32. *)
Lemma be32_recompose (val : Z) :
  (Z.shiftl (uint8 (Z.shiftr val 24)) 24
   + Z.shiftl (uint8 (Z.land (Z.shiftr val 16) 255)) 16
   + Z.shiftl (uint8 (Z.land (Z.shiftr val 8) 255)) 8
   + uint8 (Z.land val 255))%Z
  = (val mod 2 ^ 32)%Z.
Proof.
  unfold uint8.
  change 255%Z with (Z.ones 8).
  rewrite !Z.land_ones by lia.
  rewrite !Z.shiftr_div_pow2, !Z.shiftl_mul_pow2 by lia.
  rewrite !Z.mod_mod by lia.
  change (2 ^ 8)%Z with 256%Z. change (2 ^ 16)%Z with 65536%Z.
  change (2 ^ 24)%Z with 16777216%Z. change (2 ^ 32)%Z with 4294967296%Z.
  Z.to_euclidean_division_equations. lia.
Qed.

Lemma uint8_range (z : Z) : (0 <= uint8 z < 256)%Z.
Proof. unfold uint8. apply Z.mod_pos_bound. lia. Qed.

(** What [dt_imageio_dng_write_buf] leaves in the buffer. *)
Lemma write_buf_spec (buf : bytes) (adr val : Z) :
  (0 <= adr)%Z -> (adr + 3 < Z.of_nat (length buf))%Z ->
  exists buf',
    dt_imageio_dng_write_buf buf adr val = Some buf' /\
    length buf' = length buf /\
    load8 buf' adr = Some (uint8 (Z.shiftr val 24)) /\
    load8 buf' (adr + 1) = Some (uint8 (Z.land (Z.shiftr val 16) 255)) /\
    load8 buf' (adr + 2) = Some (uint8 (Z.land (Z.shiftr val 8) 255)) /\
    load8 buf' (adr + 3) = Some (uint8 (Z.land val 255)) /\
    (forall i, (i < adr \/ adr + 3 < i)%Z -> load8 buf' i = load8 buf i).
Proof.
  intros Ha Hl. unfold dt_imageio_dng_write_buf.
  rewrite store8_Some by lia. cbn [mbind option_bind].
  rewrite store8_Some by (rewrite length_insert; lia). cbn [mbind option_bind].
  rewrite store8_Some by (rewrite !length_insert; lia). cbn [mbind option_bind].
  rewrite store8_Some by (rewrite !length_insert; lia).
  eexists; split; [reflexivity |].
  split; [rewrite !length_insert; reflexivity |].
  unfold load8.
  repeat split.
  - rewrite decide_True by lia.
    apply list_lookup_insert_eq. rewrite !length_insert. lia.
  - rewrite decide_True by lia.
    rewrite list_lookup_insert_ne by lia.
    apply list_lookup_insert_eq. rewrite !length_insert. lia.
  - rewrite decide_True by lia.
    rewrite !list_lookup_insert_ne by lia.
    apply list_lookup_insert_eq. rewrite !length_insert. lia.
  - rewrite decide_True by lia.
    rewrite !list_lookup_insert_ne by lia.
    apply list_lookup_insert_eq. lia.
  - intros i Hi. destruct (decide (0 <= i)%Z); [| reflexivity].
    rewrite !list_lookup_insert_ne by lia. reflexivity.
Qed.

Lemma read_be32_eq (buf : bytes) (adr b0 b1 b2 b3 : Z) :
  load8 buf adr = Some b0 -> load8 buf (adr + 1) = Some b1 ->
  load8 buf (adr + 2) = Some b2 -> load8 buf (adr + 3) = Some b3 ->
  read_be32 buf adr = Some (Z.shiftl b0 24 + Z.shiftl b1 16 + Z.shiftl b2 8 + b3)%Z.
Proof.
  intros H0 H1 H2 H3. unfold read_be32. rewrite H0, H1, H2, H3. reflexivity.
Qed.

Lemma read_be32_ext (buf buf' : bytes) (adr : Z) :
  (forall i, (adr <= i <= adr + 3)%Z -> load8 buf' i = load8 buf i) ->
  read_be32 buf' adr = read_be32 buf adr.
Proof.
  intros H. unfold read_be32. rewrite !H by lia. reflexivity.
Qed.

Lemma write_buf_read (buf : bytes) (adr val : Z) :
  (0 <= adr)%Z -> (adr + 3 < Z.of_nat (length buf))%Z ->
  exists buf',
    dt_imageio_dng_write_buf buf adr val = Some buf' /\
    length buf' = length buf /\
    read_be32 buf' adr = Some (val mod 2 ^ 32)%Z /\
    (forall i, (i < adr \/ adr + 3 < i)%Z -> load8 buf' i = load8 buf i).
Proof.
  intros Ha Hl.
  destruct (write_buf_spec buf adr val Ha Hl)
    as (buf' & Hw & Hlen & H0 & H1 & H2 & H3 & Hframe).
  exists buf'. repeat split; auto.
  rewrite (read_be32_eq _ _ _ _ _ _ H0 H1 H2 H3).
  f_equal. apply be32_recompose.
Qed.

(** C10.  After [dt_imageio_dng_write_buf buf adr val] the four bytes at
    [adr .. adr+3] hold [val] most significant byte first: each is in
    [0,256), recomposing them big-endian yields [val] modulo 2^32, and no
    other byte of the buffer changes. *)
Theorem write_buf_big_endian_roundtrip (buf : bytes) (adr val : Z) :
  (0 <= adr)%Z -> (adr + 3 < Z.of_nat (length buf))%Z ->
  exists buf',
    dt_imageio_dng_write_buf buf adr val = Some buf' /\
    length buf' = length buf /\
    read_be32 buf' adr = Some (val mod 2 ^ 32)%Z /\
    (forall i, (adr <= i <= adr + 3)%Z ->
               exists b, load8 buf' i = Some b /\ (0 <= b < 256)%Z) /\
    (forall i, (i < adr \/ adr + 3 < i)%Z -> load8 buf' i = load8 buf i).
Proof.
  intros Ha Hl.
  destruct (write_buf_spec buf adr val Ha Hl)
    as (buf' & Hw & Hlen & H0 & H1 & H2 & H3 & Hframe).
  exists buf'. repeat split; auto.
  - destruct (write_buf_read buf adr val Ha Hl) as (buf2 & Hw2 & _ & Hr & _).
    congruence.
  - intros i Hi.
    assert (i = adr \/ i = adr + 1 \/ i = adr + 2 \/ i = adr + 3)%Z
      as [-> | [-> | [-> | ->]]] by lia;
      eexists; (split; [eassumption | apply uint8_range]).
Qed.

Lemma write_buf_big_endian_roundtrip_witness :
  exists buf',
    dt_imageio_dng_write_buf [0; 0; 0; 0; 0; 0]%Z 1 (-2)%Z = Some buf' /\
    length buf' = 6 /\
    read_be32 buf' 1 = Some 4294967294%Z /\
    (forall i, (1 <= i <= 1 + 3)%Z ->
               exists b, load8 buf' i = Some b /\ (0 <= b < 256)%Z) /\
    (forall i, (i < 1 \/ 1 + 3 < i)%Z -> load8 buf' i = load8 [0; 0; 0; 0; 0; 0]%Z i).
Proof.
  apply (write_buf_big_endian_roundtrip [0; 0; 0; 0; 0; 0]%Z 1 (-2)%Z);
    [lia | simpl; lia].
Defined.

Lemma to_int_mod (z : Z) : (to_int z mod 2 ^ 32 = z mod 2 ^ 32)%Z.
Proof.
  unfold to_int.
  change (2 ^ 31)%Z with 2147483648%Z. change (2 ^ 32)%Z with 4294967296%Z.
  Z.to_euclidean_division_equations. lia.
Qed.

(** The three fields of a tag written by [dt_imageio_dng_make_tag] read
    back big-endian as [tag << 16 | type], [lng] and [fld]. *)
Lemma make_tag_fields (tag type lng fld : Z) (buf : bytes) (b cnt : Z) :
  (0 <= tag < 2 ^ 16)%Z -> (0 <= type < 2 ^ 16)%Z ->
  (0 <= lng < 2 ^ 32)%Z -> (0 <= fld < 2 ^ 32)%Z ->
  (0 <= b)%Z -> (b + 11 < Z.of_nat (length buf))%Z ->
  exists buf',
    dt_imageio_dng_make_tag tag type lng fld buf b cnt
    = Some (buf', (b + 12)%Z, uint8 (cnt + 1)) /\
    read_be32 buf' b = Some (Z.lor (Z.shiftl tag 16) type) /\
    read_be32 buf' (b + 4) = Some lng /\
    read_be32 buf' (b + 8) = Some fld.
Proof.
  intros Htag Htype Hlng Hfld Hb Hl. unfold dt_imageio_dng_make_tag.
  assert (Hword : (0 <= Z.lor (Z.shiftl tag 16) type < 2 ^ 32)%Z).
  { assert (Hnn : (0 <= Z.lor (Z.shiftl tag 16) type)%Z)
      by (apply Z.lor_nonneg; split; [apply Z.shiftl_nonneg |]; lia).
    split; [exact Hnn |].
    destruct (Z.eq_dec (Z.lor (Z.shiftl tag 16) type) 0%Z) as [-> | Hnz]; [lia |].
    apply Z.log2_lt_pow2; [lia |].
    rewrite Z.log2_lor by (try apply Z.shiftl_nonneg; lia).
    apply Z.max_lub_lt.
    - destruct (Z.eq_dec tag 0%Z) as [-> | Ht]; [simpl; lia |].
      rewrite Z.log2_shiftl by lia.
      assert (Z.log2 tag < 16)%Z by (apply Z.log2_lt_pow2; lia). lia.
    - destruct (Z.eq_dec type 0%Z) as [-> | Ht]; [simpl; lia |].
      assert (Z.log2 type < 16)%Z by (apply Z.log2_lt_pow2; lia). lia. }
  destruct (write_buf_read buf (b + 0) (to_int (Z.lor (Z.shiftl tag 16) type)))
    as (b1 & -> & L1 & R1 & F1); [lia | lia |].
  cbn [mbind option_bind].
  destruct (write_buf_read b1 (b + 4) (to_int lng))
    as (b2 & -> & L2 & R2 & F2); [lia | lia |].
  cbn [mbind option_bind].
  destruct (write_buf_read b2 (b + 8) (to_int fld))
    as (b3 & -> & L3 & R3 & F3); [lia | lia |].
  cbn [mbind option_bind].
  rewrite to_int_mod, Z.mod_small in R1, R2, R3 by lia.
  exists b3. split; [reflexivity |].
  repeat split.
  - replace b with (b + 0)%Z at 1 by lia.
    rewrite (read_be32_ext b2 b3) by (intros; apply F3; lia).
    rewrite (read_be32_ext b1 b2) by (intros; apply F2; lia).
    exact R1.
  - rewrite (read_be32_ext b2 b3) by (intros; apply F3; lia).
    exact R2.
  - exact R3.
Qed.

(** The header starts with the byte-order marker 'M' 'M' (big-endian), the
    TIFF magic number 42 and the offset 10 of the first directory, and its
    first tag (254, LONG, 1, 0) reads back big-endian. *)
Lemma tiff_header_start_MM :
  exists buf,
    tiff_header_start = Some (buf, 24%Z, 1%Z) /\
    load8 buf 0 = Some 77%Z /\ load8 buf 1 = Some 77%Z /\
    load8 buf 2 = Some 0%Z /\ load8 buf 3 = Some 42%Z /\
    read_be32 buf 4 = Some 10%Z /\
    read_be32 buf 12 = Some (254 * 65536 + LONG)%Z /\
    read_be32 buf 16 = Some 1%Z /\
    read_be32 buf 20 = Some 0%Z.
Proof. eexists. vm_compute. repeat split. Qed.

End DngFacts.

(** ** The benchmark script *)

Module BenchFacts.
Import Bench BenchData.

Section Parser.
Variable py_float : string -> option F64.t.

(** A line without 'to save the image' leaves [savetime] alone. *)
Lemma scan_line_savetime (st st' : timings) (t : string) :
  contains "to save the image" t = false ->
  scan_line py_float st t = Some st' ->
  savetime st' = savetime st.
Proof.
  intros Hno. unfold scan_line. rewrite Hno.
  destruct (contains "GPU" t);
    destruct (contains "to load the image" t);
    try destruct (contains "pipeline processing took" t);
    destruct (extract_seconds py_float t); cbn;
    intros H; inversion H; reflexivity.
Qed.

Lemma scan_trace_savetime (trace : list string) :
  Forall (fun t => contains "to save the image" t = false) trace ->
  forall st st' : timings,
    scan_trace py_float st trace = Some st' ->
    savetime st' = savetime st.
Proof.
  induction 1 as [| t trace Ht _ IH]; intros st st' Hs.
  - inversion Hs. reflexivity.
  - cbn in Hs.
    destruct (scan_line py_float st t) as [st1 |] eqn:E; [| discriminate Hs].
    cbn in Hs. rewrite (IH _ _ Hs).
    eapply scan_line_savetime; eauto.
Qed.

End Parser.

(** C9.  When no line of the trace contains 'to save the image', the save
    time is set to the extracted load time, and the overall time that
    [run_benchmark] returns is load time + pipeline time + load time; the
    script fails only where the scan of the lines fails. *)
Theorem run_benchmark_savetime_is_loadtime
    (py_float : string -> option F64.t) (trace : string) :
  Forall (fun t => contains "to save the image" t = false) (trace_lines trace) ->
  match scan_trace py_float initial_timings (trace_lines trace) with
  | Some st =>
      final_savetime st = loadtime st /\
      run_benchmark py_float trace
      = Some (pixpipe st,
              F64.add (F64.add (loadtime st) (pixpipe st)) (loadtime st),
              gpu st)
  | None => run_benchmark py_float trace = None
  end.
Proof.
  intros Hno. unfold run_benchmark.
  destruct (scan_trace py_float initial_timings (trace_lines trace)) as [st |] eqn:E;
    [| reflexivity].
  assert (Hs : final_savetime st = loadtime st).
  { unfold final_savetime.
    rewrite (scan_trace_savetime py_float _ Hno _ _ E). reflexivity. }
  split; [exact Hs |]. cbn. rewrite Hs. reflexivity.
Qed.

Lemma run_benchmark_savetime_is_loadtime_witness :
  run_benchmark toy_float sample_trace
  = Some (S754_finite false 4503599627370496 (-51),
          S754_finite false 5629499534213120 (-50),
          false).
Proof.
  assert (H : Forall (fun t => contains "to save the image" t = false)
                     (trace_lines sample_trace))
    by (vm_compute; repeat constructor).
  pose proof (run_benchmark_savetime_is_loadtime toy_float sample_trace H) as Hthm.
  destruct (scan_trace toy_float initial_timings (trace_lines sample_trace))
    as [st |] eqn:E; [| vm_compute in E; discriminate E].
  destruct Hthm as [_ Hrun]. rewrite Hrun.
  vm_compute in E. inversion E. vm_compute. reflexivity.
Defined.

(** With a reported save time the overall time uses it. *)
Example run_benchmark_with_save_line :
  run_benchmark toy_float
    (String.append sample_trace
       (String "010"%char "[dev] took 2 secs to save the image"))
  = Some (S754_finite false 4503599627370496 (-51),
          S754_finite false 6192449487634432 (-50),
          false).
Proof. vm_compute. reflexivity. Qed.

End BenchFacts.

(** ** Rounding of positive floats *)

Module FloatFacts.
Local Open Scope Z_scope.

Lemma digits2_bounds (m : positive) :
  2 ^ (Zpos (digits2_pos m) - 1) <= Zpos m < 2 ^ Zpos (digits2_pos m).
Proof.
  induction m as [m IH | m IH |]; cbn [digits2_pos].
  - rewrite Pos2Z.inj_succ.
    replace (Z.succ (Zpos (digits2_pos m)) - 1) with (Z.succ (Zpos (digits2_pos m) - 1)) by lia.
    rewrite !Z.pow_succ_r by lia. lia.
  - rewrite Pos2Z.inj_succ.
    replace (Z.succ (Zpos (digits2_pos m)) - 1) with (Z.succ (Zpos (digits2_pos m) - 1)) by lia.
    rewrite !Z.pow_succ_r by lia. lia.
  - cbn. lia.
Qed.

Lemma digits2_unique (m : positive) (k : Z) :
  2 ^ (k - 1) <= Zpos m < 2 ^ k -> Zpos (digits2_pos m) = k.
Proof.
  intros [Hl Hu]. pose proof (digits2_bounds m) as [Bl Bu].
  assert (0 < k).
  { destruct (Z.lt_ge_cases 0 k) as [? | Hk]; [assumption |].
    destruct (Z.eq_dec k 0) as [-> | ?]; [cbn in Hu; lia |].
    rewrite Z.pow_neg_r in Hu by lia. lia. }
  destruct (Z.lt_trichotomy (Zpos (digits2_pos m)) k) as [Hlt | [Heq | Hgt]]; [| exact Heq |].
  - assert (2 ^ Zpos (digits2_pos m) <= 2 ^ (k - 1)) by (apply Z.pow_le_mono_r; lia). lia.
  - assert (2 ^ k <= 2 ^ (Zpos (digits2_pos m) - 1)) by (apply Z.pow_le_mono_r; lia). lia.
Qed.

(** One step of [shr] halves a non-negative mantissa. *)
Lemma shr_1_m (mrs : shr_record) :
  0 <= shr_m mrs -> shr_m (shr_1 mrs) = shr_m mrs / 2.
Proof.
  destruct mrs as [m r s]. cbn [shr_m]. intros Hm.
  destruct m as [| p | p]; [reflexivity | | lia].
  destruct p as [p | p |]; cbn [shr_1 shr_m].
  - rewrite Pos2Z.inj_xI. apply Z.div_unique with (r := 1); lia.
  - rewrite Pos2Z.inj_xO. apply Z.div_unique with (r := 0); lia.
  - reflexivity.
Qed.

Lemma iter_shr_1_m (n : positive) :
  forall mrs : shr_record,
    0 <= shr_m mrs ->
    shr_m (SpecFloat.iter_pos shr_1 n mrs) = shr_m mrs / 2 ^ Zpos n.
Proof.
  assert (Hnn : forall mrs, 0 <= shr_m mrs -> 0 <= shr_m mrs / 2)
    by (intros; apply Z.div_pos; lia).
  induction n as [n IH | n IH |]; intros mrs Hm; cbn [SpecFloat.iter_pos].
  - assert (H1 : 0 <= shr_m (shr_1 mrs)) by (rewrite shr_1_m by exact Hm; auto).
    assert (H2 : 0 <= shr_m (SpecFloat.iter_pos shr_1 n (shr_1 mrs))).
    { rewrite IH by exact H1. apply Z.div_pos; [exact H1 | apply Z.pow_pos_nonneg; lia]. }
    rewrite IH by exact H2. rewrite IH by exact H1. rewrite shr_1_m by exact Hm.
    rewrite !Z.div_div by (try apply Z.pow_pos_nonneg; lia).
    f_equal.
    replace (Zpos n~1) with (1 + Zpos n + Zpos n) by lia.
    rewrite !Z.pow_add_r by lia. change (2 ^ 1) with 2. ring.
  - assert (H2 : 0 <= shr_m (SpecFloat.iter_pos shr_1 n mrs)).
    { rewrite IH by exact Hm. apply Z.div_pos; [exact Hm | apply Z.pow_pos_nonneg; lia]. }
    rewrite IH by exact H2. rewrite IH by exact Hm.
    rewrite !Z.div_div by (try apply Z.pow_pos_nonneg; lia).
    f_equal.
    replace (Zpos n~0) with (Zpos n + Zpos n) by lia.
    rewrite !Z.pow_add_r by lia. ring.
  - rewrite shr_1_m by exact Hm. reflexivity.
Qed.

(** [shr] by [n] places: the mantissa is divided by [2 ^ n], the exponent
    grows by [n]; nothing happens for [n <= 0]. *)
Lemma shr_m_e (mrs : shr_record) (e n : Z) :
  0 <= shr_m mrs ->
  shr_m (fst (shr mrs e n)) = shr_m mrs / 2 ^ Z.max n 0 /\
  snd (shr mrs e n) = e + Z.max n 0.
Proof.
  intros Hm. destruct n as [| n | n]; cbn [shr fst snd].
  - cbn. rewrite Z.div_1_r. split; [reflexivity | lia].
  - rewrite Z.max_l by lia. split; [apply iter_shr_1_m; exact Hm | reflexivity].
  - rewrite Z.max_r by lia. cbn. rewrite Z.div_1_r. split; [reflexivity | lia].
Qed.

Lemma round_nearest_even_range (m : Z) (l : location) :
  m <= round_nearest_even m l <= m + 1.
Proof.
  destruct l as [| []]; cbn [round_nearest_even]; try lia.
  destruct (Z.even m); lia.
Qed.

Lemma shr_record_of_loc_m (m : Z) (l : location) : shr_m (shr_record_of_loc m l) = m.
Proof. destruct l as [| []]; reflexivity. Qed.

Lemma Zdigits2_nonneg (m : Z) : 0 <= Zdigits2 m.
Proof. destruct m; cbn; lia. Qed.


Lemma pow2_pos (k : Z) : 0 <= k -> 0 < 2 ^ k.
Proof. intros. apply Z.pow_pos_nonneg; lia. Qed.

Lemma div_pow2_upper (m n k : Z) :
  0 <= n -> 0 <= k -> m < 2 ^ (n + k) -> m / 2 ^ n < 2 ^ k.
Proof.
  intros Hn Hk Hm. apply Z.div_lt_upper_bound; [apply pow2_pos; lia |].
  rewrite <- Z.pow_add_r by lia. exact Hm.
Qed.

Lemma div_pow2_lower (m n k : Z) :
  0 <= n -> 0 <= k -> 2 ^ (n + k) <= m -> 2 ^ k <= m / 2 ^ n.
Proof.
  intros Hn Hk Hm. apply Z.div_le_lower_bound; [apply pow2_pos; lia |].
  rewrite <- Z.pow_add_r by lia. exact Hm.
Qed.

Section Rounding.
Variables prec emax : Z.
Hypothesis Hprec : 0 < prec.

Local Abbreviation emin := (SpecFloat.emin prec emax).
Local Abbreviation fexp := (SpecFloat.fexp prec emax).
Local Abbreviation pos_float_ge := (FloatSpec.pos_float_ge prec emax).
Local Abbreviation nonneg := FloatSpec.nonneg.
Local Abbreviation finite := FloatSpec.finite.

Lemma fexp_eq (e : Z) : fexp e = Z.max (e - prec) emin.
Proof. reflexivity. Qed.

(** Rounding a positive [mz * 2^ez] that is at least the canonical
    positive float [mx * 2^ex] yields infinity or a canonical positive
    float that is not below it. *)
Lemma binary_round_aux_ge (mz : positive) (ez : Z) (lx : location)
    (mx : positive) (ex : Z) :
  ez <= fexp (Zpos (digits2_pos mz) + ez) ->
  bounded prec emax mx ex = true ->
  ez <= ex ->
  Zpos mx * 2 ^ (ex - ez) <= Zpos mz ->
  binary_round_aux prec emax false (Zpos mz) ez lx = S754_infinity false \/
  exists m' e',
    binary_round_aux prec emax false (Zpos mz) ez lx = S754_finite false m' e' /\
    bounded prec emax m' e' = true /\
    (ex < e' \/ (e' = ex /\ (mx <= m')%positive)).
Proof.
  intros Hez Hb Hle Hval.
  unfold bounded, canonical_mantissa in Hb.
  apply andb_prop in Hb. destruct Hb as [Hcan Hexmax].
  apply Z.eqb_eq in Hcan. apply Z.leb_le in Hexmax.
  fold fexp in Hcan. rewrite fexp_eq in Hcan, Hez.
  pose proof (digits2_bounds mz) as [Dl Du].
  pose proof (digits2_bounds mx) as [Xl Xu].
  set (d := Zpos (digits2_pos mz)) in *.
  set (dx := Zpos (digits2_pos mx)) in *.
  assert (Hd : 1 <= d) by (unfold d; lia).
  assert (Hdx : 1 <= dx) by (unfold dx; lia).
  (* magnitudes *)
  assert (Hmag : dx + ex <= d + ez).
  { destruct (Z.le_gt_cases (dx + ex) (d + ez)) as [? | Hgt]; [assumption | exfalso].
    assert (2 ^ d * 2 ^ (dx - 1 + (ex - ez) - d) = 2 ^ (dx - 1) * 2 ^ (ex - ez)).
    { rewrite <- !Z.pow_add_r by lia. f_equal. lia. }
    assert (0 < 2 ^ (dx - 1 + (ex - ez) - d)) by (apply pow2_pos; lia).
    assert (0 < 2 ^ (ex - ez)) by (apply pow2_pos; lia).
    nia. }
  set (e1 := Z.max (d + ez - prec) emin) in *.
  assert (He1 : ex <= e1) by lia.
  set (n := e1 - ez).
  assert (Hn : 0 <= n) by lia.
  unfold binary_round_aux, shr_fexp. fold fexp. rewrite !fexp_eq.
  cbn [Zdigits2]. fold d. fold e1. fold n.
  pose proof (shr_m_e (shr_record_of_loc (Zpos mz) lx) ez n) as Hs1.
  rewrite shr_record_of_loc_m in Hs1. specialize (Hs1 ltac:(lia)).
  destruct (shr (shr_record_of_loc (Zpos mz) lx) ez n) as [mrs1 e1'].
  cbn [fst snd] in Hs1. destruct Hs1 as [Hm1 He1']. cbv beta iota.
  rewrite Z.max_l in Hm1, He1' by lia.
  replace (ez + n) with e1 in He1' by lia. subst e1'.
  set (m1 := shr_m mrs1) in *.
  pose proof (round_nearest_even_range m1 (loc_of_shr_record mrs1)) as Hr.
  set (m2 := round_nearest_even m1 (loc_of_shr_record mrs1)) in *.
  (* the first shift *)
  assert (Hm1pos : 1 <= m1).
  { destruct (Z.eq_dec e1 ex) as [Heq | Hne].
    - assert (Zpos mx <= m1).
      { rewrite Hm1. apply Z.div_le_lower_bound; [apply pow2_pos; lia |].
        unfold n. rewrite Heq. lia. }
      lia.
    - assert (Hnorm : e1 = d + ez - prec) by lia.
      assert (2 ^ (prec - 1) <= m1).
      { rewrite Hm1. apply div_pow2_lower; try lia.
        replace (n + (prec - 1)) with (d - 1) by lia. exact Dl. }
      assert (0 < 2 ^ (prec - 1)) by (apply pow2_pos; lia). lia. }
  assert (Hm1up : m1 < 2 ^ prec /\ (e1 = emin -> d + ez - prec < emin -> m1 < 2 ^ (prec - 1))).
  { split.
    - rewrite Hm1. apply div_pow2_upper; try lia.
      apply Z.lt_le_trans with (1 := Du). apply Z.pow_le_mono_r; lia.
    - intros Hsub Hlt. rewrite Hm1.
      apply div_pow2_upper; try lia.
      apply Z.lt_le_trans with (1 := Du). apply Z.pow_le_mono_r; lia. }
  destruct Hm1up as [Hm1up Hm1sub].
  assert (Hm2pos : 1 <= m2) by lia.
  destruct m2 as [| p2 | p2] eqn:Em2; [lia | | lia].
  cbn [Zdigits2]. rewrite fexp_eq.
  pose proof (digits2_bounds p2) as [D2l D2u].
  set (d2 := Zpos (digits2_pos p2)) in *.
  pose proof (shr_m_e (shr_record_of_loc (Zpos p2) loc_Exact) e1
                (Z.max (d2 + e1 - prec) emin - e1)) as Hs2.
  rewrite shr_record_of_loc_m in Hs2. specialize (Hs2 ltac:(lia)).
  destruct (shr (shr_record_of_loc (Zpos p2) loc_Exact) e1
              (Z.max (d2 + e1 - prec) emin - e1)) as [mrs2 e2].
  cbn [fst snd] in Hs2. destruct Hs2 as [Hm3 He2]. cbv beta iota.
  assert (Hprec1 : 2 ^ prec = 2 * 2 ^ (prec - 1)).
  { replace prec with (Z.succ (prec - 1)) at 1 by lia.
    apply Z.pow_succ_r. lia. }
  assert (Hpp : 0 < 2 ^ (prec - 1)) by (apply pow2_pos; lia).
  destruct (Z.lt_ge_cases (Zpos p2) (2 ^ prec)) as [Hlt | Hge].
  - (* no carry: the mantissa keeps at most [prec] digits *)
    assert (Hd2 : d2 <= prec).
    { destruct (Z.le_gt_cases d2 prec) as [? | Hgt]; [assumption | exfalso].
      assert (2 ^ prec <= 2 ^ (d2 - 1)) by (apply Z.pow_le_mono_r; lia). lia. }
    assert (Hcan2 : Z.max (d2 + e1 - prec) emin = e1).
    { destruct (Z.le_gt_cases emin (d + ez - prec)) as [Hnorm | Hsub].
      - assert (e1 = d + ez - prec) by lia.
        assert (2 ^ (prec - 1) <= m1).
        { rewrite Hm1. apply div_pow2_lower; try lia.
          replace (n + (prec - 1)) with (d - 1) by lia. exact Dl. }
        assert (d2 = prec) by (apply digits2_unique; lia). lia.
      - lia. }
    rewrite Hcan2, Z.sub_diag in Hm3, He2. cbn in Hm3. rewrite Z.div_1_r in Hm3.
    rewrite Hm3. replace e2 with e1 by lia.
    destruct (e1 <=? emax - prec) eqn:Eov; [| left; reflexivity].
    right. exists p2, e1. split; [reflexivity |]. split.
    + unfold bounded, canonical_mantissa. fold fexp. rewrite fexp_eq. fold d2.
      rewrite Hcan2, Z.eqb_refl, Eov. reflexivity.
    + destruct (Z.eq_dec e1 ex) as [Heq | Hne]; [right | left; lia].
      split; [exact Heq |].
      assert (Zpos mx <= m1).
      { rewrite Hm1. apply Z.div_le_lower_bound; [apply pow2_pos; lia |].
        unfold n. rewrite Heq. lia. }
      lia.
  - (* carry: the mantissa is [2 ^ prec] and is shifted once more *)
    assert (Hp2 : Zpos p2 = 2 ^ prec) by lia.
    assert (Hnorm : e1 = d + ez - prec).
    { destruct (Z.le_gt_cases emin (d + ez - prec)) as [? | Hsub]; [lia |].
      assert (m1 < 2 ^ (prec - 1)) by (apply Hm1sub; lia). lia. }
    assert (Hd2 : d2 = prec + 1).
    { apply digits2_unique. replace (prec + 1 - 1) with prec by lia.
      rewrite Hp2. split; [lia |]. apply Z.pow_lt_mono_r; lia. }
    replace (Z.max (d2 + e1 - prec) emin - e1) with 1 in Hm3, He2 by lia.
    cbn in He2. rewrite Z.max_l in Hm3 by lia. change (2 ^ 1) with 2 in Hm3.
    assert (Hm3' : shr_m mrs2 = 2 ^ (prec - 1)).
    { rewrite Hm3, Hp2, Hprec1. rewrite Z.mul_comm. apply Z.div_mul. lia. }
    destruct (shr_m mrs2) as [| p3 | p3] eqn:Em3; [lia | | lia].
    replace e2 with (e1 + 1) by lia.
    destruct (e1 + 1 <=? emax - prec) eqn:Eov; [| left; reflexivity].
    right. exists p3, (e1 + 1). split; [reflexivity |]. split.
    + unfold bounded, canonical_mantissa. fold fexp. rewrite fexp_eq.
      assert (Zpos (digits2_pos p3) = prec).
      { apply digits2_unique. rewrite Hm3'. split; [lia |]. apply Z.pow_lt_mono_r; lia. }
      replace (Z.max (Zpos (digits2_pos p3) + (e1 + 1) - prec) emin) with (e1 + 1) by lia.
      rewrite Z.eqb_refl, Eov. reflexivity.
    + left. lia.
Qed.


Lemma iter_xO_pow2 (m n : positive) :
  Zpos (Pos.iter xO m n) = Zpos m * 2 ^ Zpos n.
Proof.
  induction n as [| n IH] using Pos.peano_ind.
  - cbn. lia.
  - rewrite Pos.iter_succ, Pos2Z.inj_xO, IH, Pos2Z.inj_succ, Z.pow_succ_r by lia. ring.
Qed.

(** [fst (shl_align m e e')] is [m * 2^(e - e')] when [e' <= e]. *)
Lemma shl_align_le (m : positive) (e e' : Z) :
  e' <= e ->
  shl_align m e e' = (fst (shl_align m e e'), e') /\
  Zpos (fst (shl_align m e e')) = Zpos m * 2 ^ (e - e').
Proof.
  intros H. unfold shl_align.
  destruct (e' - e) as [| p | p] eqn:E; [| lia |]; cbn [fst].
  - replace e' with e by lia. rewrite Z.sub_diag. cbn. split; [reflexivity | lia].
  - rewrite iter_xO_pow2. replace (e - e') with (Zpos p) by lia. split; reflexivity.
Qed.

Lemma shl_align_ge (m : positive) (e e' : Z) :
  e <= e' -> shl_align m e e' = (m, e).
Proof.
  intros H. unfold shl_align.
  destruct (e' - e) as [| p | p] eqn:E; [reflexivity | reflexivity | lia].
Qed.


Lemma binary_round_ge (m : positive) (e : Z) (mx : positive) (ex : Z) :
  bounded prec emax mx ex = true ->
  e <= ex ->
  Zpos mx * 2 ^ (ex - e) <= Zpos m ->
  pos_float_ge mx ex (binary_round prec emax false m e).
Proof.
  intros Hb Hle Hval. unfold binary_round. fold fexp.
  pose proof (digits2_bounds m) as [Dl Du].
  set (d := Zpos (digits2_pos m)) in *.
  destruct (Z.le_gt_cases e (fexp (d + e))) as [Hk | Hk].
  - rewrite shl_align_ge by exact Hk.
    apply binary_round_aux_ge; auto.
  - pose proof (shl_align_le m e (fexp (d + e)) ltac:(lia)) as [Hsh Hmz].
    set (Mz := fst (shl_align m e (fexp (d + e)))) in *.
    rewrite Hsh.
    assert (Hp : 0 < 2 ^ (e - fexp (d + e))) by (apply pow2_pos; lia).
    assert (Hdz : Zpos (digits2_pos Mz) = d + (e - fexp (d + e))).
    { apply digits2_unique. rewrite Hmz.
      replace (d + (e - fexp (d + e)) - 1) with ((d - 1) + (e - fexp (d + e))) by lia.
      rewrite !Z.pow_add_r by lia. nia. }
    apply binary_round_aux_ge; auto.
    + rewrite Hdz.
      replace (d + (e - fexp (d + e)) + fexp (d + e)) with (d + e) by lia. lia.
    + lia.
    + rewrite Hmz.
      replace (ex - fexp (d + e)) with ((ex - e) + (e - fexp (d + e))) by lia.
      rewrite Z.pow_add_r by lia. nia.
Qed.


(** Adding a non-negative float to a canonical positive float does not
    go below it. *)
Lemma SFadd_ge_left (mx : positive) (ex : Z) (y : spec_float) :
  bounded prec emax mx ex = true ->
  nonneg y ->
  pos_float_ge mx ex (SFadd prec emax (S754_finite false mx ex) y).
Proof.
  intros Hb Hy.
  destruct y as [s | s | | s my ey]; cbn [nonneg] in Hy; try contradiction; subst.
  - right. exists mx, ex. repeat split; auto. right. split; [reflexivity | lia].
  - left. reflexivity.
  - cbn [SFadd cond_Zopp].
    set (ez := Z.min ex ey).
    destruct (shl_align_le mx ex ez) as [_ Ha]; [lia |].
    cbn [Z.add binary_normalize].
    apply binary_round_ge; auto; [lia |].
    rewrite Pos2Z.inj_add, Ha. lia.
Qed.

Lemma SFadd_infinity_nonneg (y : spec_float) :
  nonneg y -> SFadd prec emax (S754_infinity false) y = S754_infinity false.
Proof.
  destruct y as [s | s | | s my ey]; cbn; intros H; try contradiction; subst; reflexivity.
Qed.

Lemma pos_float_ge_trans (mx : positive) (ex : Z) (m1 : positive) (e1 : Z) (r : spec_float) :
  (ex < e1 \/ (e1 = ex /\ (mx <= m1)%positive)) ->
  pos_float_ge m1 e1 r -> pos_float_ge mx ex r.
Proof.
  intros H1 [-> | (m' & e' & -> & Hb & H2)]; [left; reflexivity |].
  right. exists m', e'. repeat split; auto. lia.
Qed.

Lemma pos_float_ge_leb (mx : positive) (ex : Z) (r : spec_float) :
  pos_float_ge mx ex r -> SFleb (S754_finite false mx ex) r = true.
Proof.
  intros [-> | (m' & e' & -> & _ & H)]; [reflexivity |].
  unfold SFleb. cbn [SFcompare].
  destruct H as [H | [-> H]].
  - apply Z.compare_lt_iff in H. rewrite H. reflexivity.
  - rewrite Z.compare_refl. rewrite Pos.compare_cont_spec. cbn [Pos.switch_Eq].
    apply Pos.compare_le_iff in H.
    destruct (mx ?= m')%positive; [reflexivity | reflexivity | contradiction H; reflexivity].
Qed.

Lemma pos_float_ge_nonneg (mx : positive) (ex : Z) (r : spec_float) :
  pos_float_ge mx ex r -> nonneg r.
Proof. intros [-> | (m' & e' & -> & _)]; reflexivity. Qed.

(** Rounding never produces a NaN. *)
Lemma binary_round_aux_not_nan (s : bool) (m : Z) (e : Z) (l : location) :
  0 <= m -> binary_round_aux prec emax s m e l <> S754_nan.
Proof.
  intros Hm. unfold binary_round_aux, shr_fexp.
  pose proof (shr_m_e (shr_record_of_loc m l) e
                (SpecFloat.fexp prec emax (Zdigits2 m + e) - e)) as Hs1.
  rewrite shr_record_of_loc_m in Hs1. specialize (Hs1 Hm).
  destruct (shr (shr_record_of_loc m l) e _) as [mrs1 e1].
  cbn [fst snd] in Hs1. destruct Hs1 as [Hm1 _].
  assert (H1 : 0 <= shr_m mrs1)
    by (rewrite Hm1; apply Z.div_pos; [exact Hm | apply pow2_pos; lia]).
  pose proof (round_nearest_even_range (shr_m mrs1) (loc_of_shr_record mrs1)) as Hr.
  set (m2 := round_nearest_even (shr_m mrs1) (loc_of_shr_record mrs1)) in *.
  pose proof (shr_m_e (shr_record_of_loc m2 loc_Exact) e1
                (SpecFloat.fexp prec emax (Zdigits2 m2 + e1) - e1)) as Hs2.
  rewrite shr_record_of_loc_m in Hs2. specialize (Hs2 ltac:(lia)).
  destruct (shr (shr_record_of_loc m2 loc_Exact) e1 _) as [mrs2 e2].
  cbn [fst snd] in Hs2. destruct Hs2 as [Hm3 _].
  assert (H3 : 0 <= shr_m mrs2)
    by (rewrite Hm3; apply Z.div_pos; [lia | apply pow2_pos; lia]).
  destruct (shr_m mrs2); [discriminate | | lia].
  destruct (e2 <=? emax - prec); discriminate.
Qed.

Lemma binary_normalize_not_nan (m e : Z) (s : bool) :
  binary_normalize prec emax m e s <> S754_nan.
Proof.
  destruct m as [| p | p]; cbn [binary_normalize]; [discriminate | |];
    unfold binary_round;
    destruct (shl_align p e _) as [mz ez]; apply binary_round_aux_not_nan; lia.
Qed.


Lemma SFsub_not_nan (x y : spec_float) :
  x <> S754_nan -> finite y -> SFsub prec emax x y <> S754_nan.
Proof.
  intros Hx Hy.
  destruct x as [sx | sx | | sx mx ex]; [| | contradiction |];
    destruct y as [sy | sy | | sy my ey]; cbn [finite] in Hy; try contradiction;
    cbn [SFsub]; try discriminate.
  - destruct sx, sy; discriminate.
  - apply binary_normalize_not_nan.
Qed.

End Rounding.
End FloatFacts.

(** ** The executors *)

Module VelviaFacts.
Import Velvia VelviaSpec VelviaData.

Lemma store_Some (buf : buffer) (i : nat) (v : F32.t) :
  i < length buf -> store buf i v = Some (<[i:=v]> buf).
Proof. intros H. unfold store. rewrite decide_True; auto. Qed.

Lemma process_pixel_Some (ch : nat) (d : dt_iop_velvia_data_t) (s : F32.t)
    (ivoid ovoid : buffer) (k : nat) :
  ch * k + 2 < length ivoid -> ch * k + 2 < length ovoid ->
  exists p,
    transformed ch d s ivoid k 0 = Some (chan 0 p) /\
    transformed ch d s ivoid k 1 = Some (chan 1 p) /\
    transformed ch d s ivoid k 2 = Some (chan 2 p) /\
    process_pixel ch d s ivoid ovoid k
    = Some (<[ch * k + 2 := chan 2 p]>
              (<[ch * k + 1 := chan 1 p]> (<[ch * k + 0 := chan 0 p]> ovoid))).
Proof.
  intros Hi Ho.
  destruct (lookup_lt_is_Some_2 ivoid (ch * k + 0)) as [i0 E0]; [lia |].
  destruct (lookup_lt_is_Some_2 ivoid (ch * k + 1)) as [i1 E1]; [lia |].
  destruct (lookup_lt_is_Some_2 ivoid (ch * k + 2)) as [i2 E2]; [lia |].
  exists (velvia_pixel d s i0 i1 i2).
  unfold transformed, process_pixel. rewrite E0, E1, E2. cbn [mbind option_bind].
  repeat split.
  destruct (velvia_pixel d s i0 i1 i2) as [[o0 o1] o2]. cbn [chan fst snd].
  rewrite store_Some by lia. cbn [mbind option_bind].
  rewrite store_Some by (rewrite length_insert; lia). cbn [mbind option_bind].
  rewrite store_Some by (rewrite !length_insert; lia). reflexivity.
Qed.

Lemma process_loop_spec (ch : nat) (d : dt_iop_velvia_data_t) (s : F32.t)
    (ivoid : buffer) :
  3 <= ch ->
  forall (n k0 : nat) (ovoid : buffer),
    ch * (k0 + n) <= length ivoid -> ch * (k0 + n) <= length ovoid ->
    exists out,
      process_loop ch d s ivoid n k0 ovoid = Some out /\
      length out = length ovoid /\
      forall k c, c < ch ->
        out !! (ch * k + c)
        = if decide (k0 <= k < k0 + n /\ c < 3)
          then transformed ch d s ivoid k c
          else ovoid !! (ch * k + c).
Proof.
  intros Hch. induction n as [| n IH]; intros k0 ovoid Hi Ho.
  - exists ovoid. repeat split; auto. intros k c Hc.
    rewrite decide_False by lia. reflexivity.
  - assert (Hi2 : ch * k0 + 2 < length ivoid) by nia.
    assert (Ho2 : ch * k0 + 2 < length ovoid) by nia.
    destruct (process_pixel_Some ch d s ivoid ovoid k0 Hi2 Ho2) as (p & T0 & T1 & T2 & Hp).
    cbn [process_loop]. rewrite Hp. cbn [mbind option_bind].
    set (ov1 := <[ch * k0 + 2:=chan 2 p]> (<[ch * k0 + 1:=chan 1 p]> (<[ch * k0 + 0:=chan 0 p]> ovoid))).
    assert (Hl1 : length ov1 = length ovoid) by (unfold ov1; rewrite !length_insert; reflexivity).
    assert (Hi3 : ch * (S k0 + n) <= length ivoid) by (replace (S k0 + n) with (k0 + S n) by lia; exact Hi).
    assert (Ho3 : ch * (S k0 + n) <= length ov1) by (rewrite Hl1; replace (S k0 + n) with (k0 + S n) by lia; exact Ho).
    destruct (IH (S k0) ov1 Hi3 Ho3) as (out & Hout & Hlen & Hlk).
    exists out. split; [exact Hout |]. split; [rewrite Hlen; exact Hl1 |].
    intros k c Hc. rewrite (Hlk k c Hc).
    destruct (decide (S k0 <= k < S k0 + n /\ c < 3)) as [H1 | H1].
    + rewrite decide_True by lia. reflexivity.
    + destruct (decide (k0 <= k < k0 + S n /\ c < 3)) as [H2 | H2].
      * assert (k = k0) by lia. subst k. unfold ov1.
        assert (c = 0 \/ c = 1 \/ c = 2) as [-> | [-> | ->]] by lia.
        -- rewrite !list_lookup_insert_ne by lia.
           rewrite list_lookup_insert_eq by lia. congruence.
        -- rewrite list_lookup_insert_ne by lia.
           rewrite list_lookup_insert_eq by (rewrite length_insert; lia). congruence.
        -- rewrite list_lookup_insert_eq by (rewrite !length_insert; lia). congruence.
      * assert (Hne : forall c', c' < 3 -> ch * k0 + c' <> ch * k + c).
        { intros c' Hc' Heq.
          destruct (Nat.eq_dec k k0) as [-> | Hk]; [lia |].
          destruct (Nat.lt_ge_cases k k0) as [Hlt | Hge]; nia. }
        unfold ov1. rewrite !list_lookup_insert_ne by (apply Hne; lia). reflexivity.
Qed.

Lemma alpha_loop_spec (ivoid : buffer) :
  forall (n k0 : nat) (ovoid : buffer),
    4 * (k0 + n) <= length ivoid -> 4 * (k0 + n) <= length ovoid ->
    exists out,
      alpha_loop ivoid n k0 ovoid = Some out /\
      length out = length ovoid /\
      forall k c, c < 4 ->
        out !! (4 * k + c)
        = if decide (k0 <= k < k0 + n /\ c = 3)
          then ivoid !! (4 * k + c)
          else ovoid !! (4 * k + c).
Proof.
  induction n as [| n IH]; intros k0 ovoid Hi Ho.
  - exists ovoid. repeat split; auto. intros k c Hc.
    rewrite decide_False by lia. reflexivity.
  - destruct (lookup_lt_is_Some_2 ivoid (4 * k0 + 3)) as [a Ea]; [lia |].
    cbn [alpha_loop]. rewrite Ea. cbn [mbind option_bind].
    rewrite store_Some by lia. cbn [mbind option_bind].
    assert (Hi3 : 4 * (S k0 + n) <= length ivoid) by lia.
    assert (Ho3 : 4 * (S k0 + n) <= length (<[4 * k0 + 3 := a]> ovoid))
      by (rewrite length_insert; lia).
    destruct (IH (S k0) _ Hi3 Ho3) as (out & Hout & Hlen & Hlk).
    exists out. split; [exact Hout |].
    split; [rewrite Hlen, length_insert; reflexivity |].
    intros k c Hc. rewrite (Hlk k c Hc).
    destruct (decide (S k0 <= k < S k0 + n /\ c = 3)) as [H1 | H1].
    + rewrite decide_True by lia. reflexivity.
    + destruct (decide (k0 <= k < k0 + S n /\ c = 3)) as [H2 | H2].
      * assert (k = k0) by lia. destruct H2 as [_ ->]. subst k.
        rewrite list_lookup_insert_eq by lia. congruence.
      * rewrite list_lookup_insert_ne by lia. reflexivity.
Qed.

(** The same in terms of flat indices. *)
Lemma alpha_loop_flat (ivoid ovoid : buffer) (n : nat) :
  4 * n <= length ivoid -> 4 * n <= length ovoid ->
  exists out,
    alpha_loop ivoid n 0 ovoid = Some out /\
    length out = length ovoid /\
    forall j, out !! j = ivoid !! j \/ out !! j = ovoid !! j.
Proof.
  intros Hi Ho.
  destruct (alpha_loop_spec ivoid n 0 ovoid) as (out & Hout & Hlen & Hlk); [lia | lia |].
  exists out. repeat split; auto.
  intros j. pose proof (Nat.div_mod_eq j 4) as Hj.
  pose proof (Nat.mod_upper_bound j 4 ltac:(lia)) as Hm.
  specialize (Hlk (j / 4) (j mod 4) Hm). rewrite <- Hj in Hlk.
  rewrite Hlk. case_decide; auto.
Qed.

Lemma copy_by_size_spec (out inp : buffer) (w h : Z) (ch : nat) :
  let n := Z.to_nat (size_t_mul w h) * ch in
  n <= length inp -> n <= length out ->
  exists res,
    dt_iop_image_copy_by_size out inp w h ch = Some res /\
    length res = length out /\
    forall j, res !! j = if decide (j < n) then inp !! j else out !! j.
Proof.
  intros n Hi Ho. unfold dt_iop_image_copy_by_size. fold n.
  rewrite decide_True by auto.
  eexists. split; [reflexivity |]. split.
  - rewrite length_app, length_take, length_drop. lia.
  - intros j. destruct (decide (j < n)) as [Hj | Hj].
    + rewrite lookup_app_l by (rewrite length_take; lia).
      apply lookup_take_lt. exact Hj.
    + rewrite lookup_app_r by (rewrite length_take; lia).
      rewrite length_take, lookup_drop. f_equal. lia.
Qed.

Lemma flat_map_uniform_length {A B : Type} (f : A -> list B) (L : nat) (l : list A) :
  (forall a, In a l -> length (f a) = L) ->
  length (flat_map f l) = L * length l.
Proof.
  induction l as [| a l IH]; intros H; cbn [flat_map length].
  - lia.
  - rewrite length_app, (H a) by (left; reflexivity).
    rewrite IH by (intros; apply H; right; assumption). lia.
Qed.

Lemma flat_map_uniform_lookup {A B : Type} (f : A -> list B) (L : nat) (l : list A) :
  (forall a, In a l -> length (f a) = L) ->
  forall y i a, l !! y = Some a -> i < L ->
    flat_map f l !! (L * y + i) = f a !! i.
Proof.
  induction l as [| a0 l IH]; intros H y i a Hy Hi.
  - discriminate Hy.
  - cbn [flat_map]. destruct y as [| y].
    + cbn in Hy. inversion Hy; subst a0.
      rewrite lookup_app_l by (rewrite (H a) by (left; reflexivity); lia).
      f_equal. lia.
    + cbn in Hy.
      rewrite lookup_app_r by (rewrite (H a0) by (left; reflexivity); lia).
      rewrite (H a0) by (left; reflexivity).
      replace (L * S y + i - L) with (L * y + i) by lia.
      apply IH; auto. intros; apply H; right; assumption.
Qed.

Section Crop.
Variables (ch W x0 y0 w h : nat) (buf : buffer).
Hypothesis Hx : x0 + w <= W.
Hypothesis Hlen : ch * (W * (y0 + h)) <= length buf.

Lemma crop_row_length (y : nat) :
  In y (seq 0 h) ->
  length (take (ch * w) (drop (ch * ((y0 + y) * W + x0)) buf)) = ch * w.
Proof.
  intros Hy. apply in_seq in Hy.
  rewrite length_take, length_drop.
  assert (H1 : (y0 + y) * W + W <= W * (y0 + h)) by nia.
  assert (H2 : (y0 + y) * W + x0 + w <= W * (y0 + h)) by lia.
  assert (ch * ((y0 + y) * W + x0) + ch * w <= ch * (W * (y0 + h))) by nia.
  lia.
Qed.

Lemma crop_length : length (crop ch W x0 y0 w h buf) = ch * (w * h).
Proof.
  unfold crop. rewrite (flat_map_uniform_length _ (ch * w)) by exact crop_row_length.
  rewrite length_seq. lia.
Qed.

Lemma crop_lookup (x y c : nat) :
  x < w -> y < h -> c < ch ->
  crop ch W x0 y0 w h buf !! (ch * (w * y + x) + c)
  = buf !! (ch * ((y0 + y) * W + x0 + x) + c).
Proof.
  intros Hxw Hyh Hc. unfold crop.
  assert (Hin : ch * x + c < ch * w).
  { assert (ch * (x + 1) <= ch * w) by (apply Nat.mul_le_mono_l; lia). lia. }
  replace (ch * (w * y + x) + c) with (ch * w * y + (ch * x + c)) by nia.
  rewrite (flat_map_uniform_lookup _ (ch * w) _ crop_row_length y (ch * x + c) y).
  - rewrite lookup_take_lt by exact Hin. rewrite lookup_drop. f_equal. nia.
  - apply lookup_seq_lt. exact Hyh.
  - exact Hin.
Qed.
End Crop.

(** The number of pixels of a region whose sides are C [int]s. *)
Lemma npixels_of_nat (W H : nat) :
  (Z.of_nat W < 2 ^ 31)%Z -> (Z.of_nat H < 2 ^ 31)%Z ->
  npixels (mk_roi (Z.of_nat W) (Z.of_nat H)) = W * H.
Proof.
  intros HW HH. unfold npixels, size_t_mul, size_t_of_int. cbn [width height].
  change (2 ^ 31)%Z with 2147483648%Z in *.
  change (2 ^ 64)%Z with 18446744073709551616%Z.
  rewrite (Z.mod_small (Z.of_nat W)), (Z.mod_small (Z.of_nat H)) by lia.
  assert (Hp : (0 <= Z.of_nat W * Z.of_nat H < 2147483648 * 2147483648)%Z).
  { pose proof (Nat2Z.is_nonneg W). pose proof (Nat2Z.is_nonneg H). nia. }
  rewrite Z.mod_small by lia. lia.
Qed.

(** [process_at] reads pixel [k] only. *)
Lemma pixel_at_lookup (ch : nat) (buf : buffer) (k c : nat) :
  c < ch -> pixel_at ch buf k !! c = buf !! (ch * k + c).
Proof.
  intros Hc. unfold pixel_at. rewrite lookup_take_lt by exact Hc. apply lookup_drop.
Qed.

Lemma pixel_value_ext (d : dt_iop_velvia_data_t) (px1 px2 : list F32.t) (ch c : nat) :
  3 <= ch -> c < ch ->
  (forall c', c' < ch -> px1 !! c' = px2 !! c') ->
  pixel_value d px1 c = pixel_value d px2 c.
Proof.
  intros Hch Hc H. unfold pixel_value.
  rewrite (H c Hc), (H 0), (H 1), (H 2) by lia. reflexivity.
Qed.

(** What [process_at] is made of: a stored channel is [pixel_value] of the
    input pixel, any other channel is the destination's. *)
Lemma process_at_stored (ch : nat) (d : dt_iop_velvia_data_t) (mask : bool)
    (ivoid ovoid : buffer) (k c : nat) :
  3 <= ch -> c < ch ->
  process_at ch d mask ivoid ovoid k c
  = if stored d mask c then pixel_value d (pixel_at ch ivoid k) c
    else ovoid !! (ch * k + c).
Proof.
  intros Hch Hc. unfold process_at, stored, pixel_value, transformed.
  rewrite !pixel_at_lookup by lia.
  destruct (F32.le (F32.div (data_strength d) F32.hundred) F32.zero).
  - rewrite orb_true_r. reflexivity.
  - rewrite orb_false_r. destruct (decide (c < 3)) as [H3 | H3].
    + apply Nat.ltb_lt in H3. rewrite H3. reflexivity.
    + apply Nat.ltb_nlt in H3. rewrite H3. cbn [orb]. destruct mask; reflexivity.
Qed.

Lemma process_at_ext (ch : nat) (d : dt_iop_velvia_data_t) (mask : bool)
    (i1 o1 i2 o2 : buffer) (k1 k2 c : nat) :
  3 <= ch -> c < ch ->
  (forall c', c' < ch -> i1 !! (ch * k1 + c') = i2 !! (ch * k2 + c')) ->
  (forall c', c' < ch -> o1 !! (ch * k1 + c') = o2 !! (ch * k2 + c')) ->
  process_at ch d mask i1 o1 k1 c = process_at ch d mask i2 o2 k2 c.
Proof.
  intros Hch Hc Hi Ho. unfold process_at, transformed.
  rewrite (Hi c Hc), (Ho c Hc), (Hi 0), (Hi 1), (Hi 2) by lia. reflexivity.
Qed.

(** *** The divisors of the saturation estimate *)

Lemma prec_pos : (0 < F32.prec)%Z.
Proof. reflexivity. Qed.

Lemma eps_bounded : bounded F32.prec F32.emax 10995116 (-40) = true.
Proof. vm_compute. reflexivity. Qed.

Lemma in01_nonneg (y : F32.t) : F32.in01 y -> FloatSpec.nonneg y /\ FloatSpec.finite y.
Proof.
  intros [H0 H1].
  destruct y as [s | s | | s m e].
  - split; exact I.
  - destruct s; [discriminate H0 | discriminate H1].
  - discriminate H0.
  - destruct s; [discriminate H0 | split; [reflexivity | exact I]].
Qed.

Lemma pmax_of_in01 (a b c : F32.t) :
  F32.in01 a -> F32.in01 b -> F32.in01 c -> F32.in01 (pmax_of a b c).
Proof.
  intros Ha Hb Hc. unfold pmax_of, MAX.
  destruct (F32.gt b c); destruct (F32.gt a _); assumption.
Qed.

Lemma pmin_of_in01 (a b c : F32.t) :
  F32.in01 a -> F32.in01 b -> F32.in01 c -> F32.in01 (pmin_of a b c).
Proof.
  intros Ha Hb Hc. unfold pmin_of, MIN.
  destruct (F32.lt b c); destruct (F32.lt a _); assumption.
Qed.

Lemma divisor_low_ge (pmax pmin : F32.t) :
  FloatSpec.nonneg pmax -> FloatSpec.nonneg pmin ->
  FloatSpec.pos_float_ge F32.prec F32.emax 10995116 (-40) (psat_divisor_low pmax pmin).
Proof.
  intros Hmax Hmin. unfold psat_divisor_low, F32.add, F32.eps.
  destruct (FloatFacts.SFadd_ge_left F32.prec F32.emax prec_pos _ _ pmax eps_bounded Hmax)
    as [E | (m' & e' & E & Hb & Hord)]; rewrite E.
  - rewrite FloatFacts.SFadd_infinity_nonneg by exact Hmin. left. reflexivity.
  - eapply FloatFacts.pos_float_ge_trans; [exact Hord |].
    apply FloatFacts.SFadd_ge_left; auto using prec_pos.
Qed.

Lemma MAX_zero_nonneg (t : F32.t) : t <> S754_nan -> FloatSpec.nonneg (MAX F32.zero t).
Proof.
  intros Ht. unfold MAX, F32.gt, F32.zero, SFltb.
  destruct t as [s | s | | s m e]; [| | contradiction |]; destruct s; cbn; auto.
Qed.

Lemma divisor_high_ge (pmax pmin : F32.t) :
  FloatSpec.finite pmax -> FloatSpec.finite pmin ->
  FloatSpec.pos_float_ge F32.prec F32.emax 10995116 (-40) (psat_divisor_high pmax pmin).
Proof.
  intros Hmax Hmin. unfold psat_divisor_high, F32.add, F32.eps.
  apply FloatFacts.SFadd_ge_left; [exact prec_pos | exact eps_bounded |].
  apply MAX_zero_nonneg. unfold F32.sub.
  apply FloatFacts.SFsub_not_nan; [| exact Hmin].
  apply FloatFacts.SFsub_not_nan; [discriminate | exact Hmax].
Qed.

Lemma pos_float_ge_positive (mx : positive) (ex : Z) (r : F32.t) :
  FloatSpec.pos_float_ge F32.prec F32.emax mx ex r -> F32.lt F32.zero r = true.
Proof. intros [-> | (m' & e' & -> & _)]; reflexivity. Qed.

(** C7.  For the pixel (0.8, 0.2, 0.2): pmax = 0.8, pmin = 0.2, plum is
    exactly 0.5, the branch for plum <= 0.5 is the one selected and its
    divisor 1e-5 + pmax + pmin is positive.  For every pixel with channels
    in [0,1], the divisor of the selected branch is at least 1e-5, hence
    positive: the quotient is never a division by zero. *)
Theorem saturation_divisor_at_least_eps :
  (pmax_of f08 f02 f02 = f08 /\
   pmin_of f08 f02 f02 = f02 /\
   plum_of f08 f02 = F32.half /\
   F32.le (plum_of f08 f02) F32.half = true /\
   psat_of (plum_of f08 f02) f08 f02
   = F32.div (F32.sub f08 f02) (psat_divisor_low f08 f02) /\
   F32.lt F32.zero (psat_divisor_low f08 f02) = true) /\
  (forall in0 in1 in2 : F32.t,
      F32.in01 in0 -> F32.in01 in1 -> F32.in01 in2 ->
      let pmax := pmax_of in0 in1 in2 in
      let pmin := pmin_of in0 in1 in2 in
      let plum := plum_of pmax pmin in
      psat_of plum pmax pmin
      = F32.div (F32.sub pmax pmin) (psat_divisor plum pmax pmin) /\
      F32.le F32.eps (psat_divisor plum pmax pmin) = true /\
      F32.lt F32.zero (psat_divisor plum pmax pmin) = true).
Proof.
  split.
  - repeat split; vm_compute; reflexivity.
  - intros in0 in1 in2 H0 H1 H2 pmax pmin plum.
    destruct (in01_nonneg pmax (pmax_of_in01 _ _ _ H0 H1 H2)) as [Nmax Fmax].
    destruct (in01_nonneg pmin (pmin_of_in01 _ _ _ H0 H1 H2)) as [Nmin Fmin].
    assert (Hge : FloatSpec.pos_float_ge F32.prec F32.emax 10995116 (-40)
                    (psat_divisor plum pmax pmin)).
    { unfold psat_divisor. destruct (F32.le plum F32.half).
      - apply divisor_low_ge; assumption.
      - apply divisor_high_ge; assumption. }
    split; [| split].
    + unfold psat_of, psat_divisor. destruct (F32.le plum F32.half); reflexivity.
    + apply (FloatFacts.pos_float_ge_leb F32.prec F32.emax _ _ _ Hge).
    + apply (pos_float_ge_positive _ _ _ Hge).
Qed.

Lemma saturation_divisor_at_least_eps_witness :
  F32.le F32.eps
    (psat_divisor (plum_of (pmax_of F32.half F32.one F32.zero) (pmin_of F32.half F32.one F32.zero))
                  (pmax_of F32.half F32.one F32.zero) (pmin_of F32.half F32.one F32.zero))
  = true.
Proof.
  apply (proj2 saturation_divisor_at_least_eps F32.half F32.one F32.zero);
    split; vm_compute; reflexivity.
Defined.

Section Pipeline.
Variable M : Z.

(** What [process] leaves at every place of the destination. *)
Lemma process_lookup (ch : nat) (d : dt_iop_velvia_data_t) (md : Z)
    (ivoid ovoid : buffer) (roi_in roi_out : dt_iop_roi_t) :
  3 <= ch ->
  ch * npixels roi_out <= length ivoid ->
  ch * npixels roi_out <= length ovoid ->
  (mask_flag M md = true -> ch = 4) ->
  exists out,
    process M ch d md ivoid ovoid roi_in roi_out = Some out /\
    length out = length ovoid /\
    forall k c, c < ch ->
      out !! (ch * k + c)
      = if decide (k < npixels roi_out)
        then process_at ch d (mask_flag M md) ivoid ovoid k c
        else ovoid !! (ch * k + c).
Proof.
  intros Hch Hi Ho Hmask. unfold process, process_at.
  set (s := F32.div (data_strength d) F32.hundred).
  set (N := npixels roi_out) in *.
  assert (Hstage : exists o1,
             (if F32.le s F32.zero
              then dt_iop_image_copy_by_size ovoid ivoid
                     (size_t_of_int (width roi_out)) (size_t_of_int (height roi_out)) ch
              else process_loop ch d s ivoid N 0 ovoid) = Some o1 /\
             length o1 = length ovoid /\
             forall k c, c < ch ->
               o1 !! (ch * k + c)
               = if decide (k < N)
                 then (if F32.le s F32.zero then ivoid !! (ch * k + c)
                       else if decide (c < 3) then transformed ch d s ivoid k c
                       else ovoid !! (ch * k + c))
                 else ovoid !! (ch * k + c)).
  { destruct (F32.le s F32.zero).
    - destruct (copy_by_size_spec ovoid ivoid (size_t_of_int (width roi_out))
                  (size_t_of_int (height roi_out)) ch) as (o1 & E & L & Hlk).
      + fold (npixels roi_out). fold N. lia.
      + fold (npixels roi_out). fold N. lia.
      + exists o1. repeat split; auto. intros k c Hc. rewrite Hlk.
        fold (npixels roi_out). fold N.
        destruct (decide (k < N)).
        * rewrite decide_True by nia. reflexivity.
        * rewrite decide_False by nia. reflexivity.
    - destruct (process_loop_spec ch d s ivoid Hch N 0 ovoid) as (o1 & E & L & Hlk);
        [simpl; lia | simpl; lia |].
      exists o1. repeat split; auto. intros k c Hc. rewrite (Hlk k c Hc).
      destruct (decide (k < N)).
      + destruct (decide (c < 3)).
        * rewrite decide_True by lia. reflexivity.
        * rewrite decide_False by lia. reflexivity.
      + rewrite decide_False by lia. reflexivity. }
  destruct Hstage as (o1 & -> & L1 & Hlk1). cbn [mbind option_bind].
  destruct (mask_flag M md) eqn:Em.
  - specialize (Hmask eq_refl). subst ch.
    destruct (alpha_loop_spec ivoid N 0 o1) as (out & E & L & Hlk); [lia | lia |].
    unfold dt_iop_alpha_copy. fold (npixels roi_out). fold N. rewrite E.
    exists out. split; [reflexivity |]. split; [congruence |].
    intros k c Hc. rewrite (Hlk k c Hc), (Hlk1 k c Hc).
    destruct (decide (k < N)).
    + destruct (decide (0 <= k < 0 + N /\ c = 3)) as [[_ ->] | Hn].
      * destruct (F32.le s F32.zero); [reflexivity |].
        rewrite decide_False by lia. reflexivity.
      * destruct (F32.le s F32.zero); [reflexivity |].
        destruct (decide (c < 3)); [reflexivity | lia].
    + rewrite decide_False by lia. reflexivity.
  - exists o1. repeat split; auto.
Qed.


(** C1.  When strength / 100 <= 0, [process] returns the destination
    with the [ch * width * height] floats of the output region replaced
    by those of the input, bit for bit, and the rest untouched; and
    [process_cl] makes one call, [dt_opencl_enqueue_copy_image] of the
    whole region from origin (0,0,0), with no kernel argument set and no
    kernel enqueued. *)
Theorem process_nonpositive_strength_is_copy
    (ROUNDUPWD ROUNDUPHT : Z -> Z) (cl_result : cl_call -> Z)
    (devid kernel_velvia dev_in dev_out : Z)
    (ch : nat) (d : dt_iop_velvia_data_t) (md : Z)
    (ivoid ovoid : buffer) (roi_in roi_out : dt_iop_roi_t) :
  F32.le (F32.div (data_strength d) F32.hundred) F32.zero = true ->
  ch * npixels roi_out <= length ivoid ->
  ch * npixels roi_out <= length ovoid ->
  (mask_flag M md = true -> 4 <= ch) ->
  (exists out,
      process M ch d md ivoid ovoid roi_in roi_out = Some out /\
      length out = length ovoid /\
      take (ch * npixels roi_out) out = take (ch * npixels roi_out) ivoid /\
      drop (ch * npixels roi_out) out = drop (ch * npixels roi_out) ovoid) /\
  (let copy :=
     enqueue_copy_image devid dev_in dev_out (0, 0, 0)%Z (0, 0, 0)%Z
       (size_t_of_int (width roi_in), size_t_of_int (height roi_in), 1%Z) in
   process_cl ROUNDUPWD ROUNDUPHT cl_result devid kernel_velvia d
              dev_in dev_out roi_in roi_out
   = if (cl_result copy =? CL_SUCCESS)%Z
     then (true, [copy])
     else (false, [copy; print_error (cl_result copy)])).
Proof.
  intros Hs Hi Ho Hmask. split.
  - set (N := npixels roi_out) in *.
    assert (Hex : exists out,
               process M ch d md ivoid ovoid roi_in roi_out = Some out /\
               length out = length ovoid /\
               forall j, out !! j = if decide (j < ch * N) then ivoid !! j else ovoid !! j).
    { unfold process. rewrite Hs.
      destruct (copy_by_size_spec ovoid ivoid (size_t_of_int (width roi_out))
                  (size_t_of_int (height roi_out)) ch) as (o1 & -> & L1 & Hlk1).
      { fold (npixels roi_out). fold N. lia. }
      { fold (npixels roi_out). fold N. lia. }
      fold (npixels roi_out) in Hlk1. fold N in Hlk1.
      replace (N * ch) with (ch * N) in Hlk1 by lia.
      cbn [mbind option_bind].
      destruct (mask_flag M md) eqn:Em.
      - specialize (Hmask eq_refl).
        unfold dt_iop_alpha_copy. fold (npixels roi_out). fold N.
        destruct (alpha_loop_spec ivoid N 0 o1) as (out & -> & L & Hlk); [nia | nia |].
        exists out. split; [reflexivity |]. split; [congruence |].
        intros j. pose proof (Nat.div_mod_eq j 4) as Hj.
        pose proof (Nat.mod_upper_bound j 4 ltac:(lia)) as Hm.
        specialize (Hlk (j / 4) (j mod 4) Hm). rewrite <- Hj in Hlk.
        rewrite Hlk, Hlk1.
        destruct (decide (0 <= j / 4 < 0 + N /\ j mod 4 = 3)) as [[Hk _] | _];
          [| reflexivity].
        rewrite decide_True by nia. reflexivity.
      - exists o1. repeat split; auto. }
    destruct Hex as (out & E & L & Hlk).
    exists out. split; [exact E |]. split; [exact L |]. split.
    + apply list_eq. intros j.
      destruct (decide (j < ch * N)) as [Hj | Hj].
      * rewrite !lookup_take_lt by exact Hj. rewrite Hlk, decide_True by exact Hj.
        reflexivity.
      * rewrite !lookup_take_ge by lia. reflexivity.
    + apply list_eq. intros j. rewrite !lookup_drop, Hlk.
      rewrite decide_False by lia. reflexivity.
  - cbv zeta. unfold process_cl. rewrite Hs. reflexivity.
Qed.

Lemma ltb_leb (a b : F32.t) : F32.lt a b = true -> F32.le a b = true.
Proof.
  unfold F32.lt, F32.le, SFltb, SFleb.
  destruct (SFcompare a b) as [[] |]; congruence.
Qed.

(** [CLAMPS(x, 0, 1)] lies in the unit interval whatever [x] is. *)
Lemma CLAMPS_in01 (x : F32.t) : F32.in01 (CLAMPS x F32.zero F32.one).
Proof.
  unfold CLAMPS, F32.gt.
  destruct (SFltb F32.zero x) eqn:E0; [| split; reflexivity].
  destruct (F32.lt x F32.one) eqn:E1; [| split; reflexivity].
  split; apply ltb_leb; assumption.
Qed.

Lemma chan_velvia_pixel_in01 (d : dt_iop_velvia_data_t) (s i0 i1 i2 : F32.t) (c : nat) :
  F32.in01 (chan c (velvia_pixel d s i0 i1 i2)).
Proof.
  unfold velvia_pixel, out_channel.
  destruct c as [| [| c]]; cbn [chan fst snd]; apply CLAMPS_in01.
Qed.

(** C2.  For every pixel of the region whose three colour channels lie in
    [0,1] on input, the three colour channels on output lie in [0,1],
    whatever the other pixels hold and for every strength and bias (in
    particular those within the declared bounds, 100, 0 and 1 included):
    when strength / 100 <= 0 the output channels are the input's, and
    otherwise each of them is a [CLAMPS(_, 0, 1)] and lies in [0,1] whatever
    the input is. *)
Theorem process_output_in_unit_interval
    (ch : nat) (d : dt_iop_velvia_data_t) (md : Z)
    (ivoid ovoid : buffer) (roi_in roi_out : dt_iop_roi_t) :
  3 <= ch ->
  ch * npixels roi_out <= length ivoid ->
  ch * npixels roi_out <= length ovoid ->
  (mask_flag M md = true -> ch = 4) ->
  exists out,
    process M ch d md ivoid ovoid roi_in roi_out = Some out /\
    forall k, k < npixels roi_out ->
      (F32.le (F32.div (data_strength d) F32.hundred) F32.zero = true ->
       forall c, c < 3 -> out !! (ch * k + c) = ivoid !! (ch * k + c)) /\
      (F32.le (F32.div (data_strength d) F32.hundred) F32.zero = false ->
       forall c, c < 3 -> exists v, out !! (ch * k + c) = Some v /\ F32.in01 v) /\
      ((forall c v, c < 3 -> ivoid !! (ch * k + c) = Some v -> F32.in01 v) ->
       forall c, c < 3 -> exists v, out !! (ch * k + c) = Some v /\ F32.in01 v).
Proof.
  intros Hch Hi Ho Hmask.
  destruct (process_lookup ch d md ivoid ovoid roi_in roi_out Hch Hi Ho Hmask)
    as (out & E & L & Hlk).
  exists out. split; [exact E |]. intros k Hk.
  assert (Hcopy : F32.le (F32.div (data_strength d) F32.hundred) F32.zero = true ->
                  forall c, c < 3 -> out !! (ch * k + c) = ivoid !! (ch * k + c)).
  { intros Hs c Hc. rewrite (Hlk k c ltac:(lia)), decide_True by exact Hk.
    unfold process_at. rewrite Hs. reflexivity. }
  assert (Hclamp : F32.le (F32.div (data_strength d) F32.hundred) F32.zero = false ->
                   forall c, c < 3 ->
                     exists v, out !! (ch * k + c) = Some v /\ F32.in01 v).
  { intros Hs c Hc. rewrite (Hlk k c ltac:(lia)), decide_True by exact Hk.
    unfold process_at. rewrite Hs, decide_True by exact Hc. unfold transformed.
    destruct (lookup_lt_is_Some_2 ivoid (ch * k + 0)) as [i0 E0]; [nia |].
    destruct (lookup_lt_is_Some_2 ivoid (ch * k + 1)) as [i1 E1]; [nia |].
    destruct (lookup_lt_is_Some_2 ivoid (ch * k + 2)) as [i2 E2]; [nia |].
    rewrite E0, E1, E2. cbn [mbind option_bind].
    eexists. split; [reflexivity |]. apply chan_velvia_pixel_in01. }
  split; [exact Hcopy |]. split; [exact Hclamp |].
  intros Hin c Hc.
  destruct (F32.le (F32.div (data_strength d) F32.hundred) F32.zero) eqn:Hs.
  - destruct (lookup_lt_is_Some_2 ivoid (ch * k + c)) as [v Ev]; [nia |].
    exists v. split; [rewrite (Hcopy eq_refl c Hc); exact Ev |]. eapply Hin; eauto.
  - apply (Hclamp eq_refl c Hc).
Qed.

Lemma lt_zero_not_le (s : F32.t) :
  F32.lt F32.zero s = true -> F32.le s F32.zero = false.
Proof.
  unfold F32.lt, F32.le, SFltb, SFleb, F32.zero.
  destruct s as [sg | sg | | sg m e]; try destruct sg; cbn; congruence.
Qed.

(** C8.  On a 4-channel buffer the 4th channel of every pixel of the
    region is the input's on return when the mask-display flag is set (it
    is copied after the colour computation) and also when
    strength / 100 <= 0, where the short-cut copies all four channels;
    when the flag is not set and strength / 100 <= 0 does not hold, the
    loop stores channels 0 to 2 only and the 4th channel of every pixel is
    what the destination held on entry. *)
Theorem process_alpha_channel
    (d : dt_iop_velvia_data_t) (md : Z)
    (ivoid ovoid : buffer) (roi_in roi_out : dt_iop_roi_t) :
  4 * npixels roi_out <= length ivoid ->
  4 * npixels roi_out <= length ovoid ->
  exists out,
    process M 4 d md ivoid ovoid roi_in roi_out = Some out /\
    (mask_flag M md = true \/
     F32.le (F32.div (data_strength d) F32.hundred) F32.zero = true ->
     forall k, k < npixels roi_out -> out !! (4 * k + 3) = ivoid !! (4 * k + 3)) /\
    (mask_flag M md = false ->
     F32.le (F32.div (data_strength d) F32.hundred) F32.zero = false ->
     forall k,
       out !! (4 * k + 3) = ovoid !! (4 * k + 3) /\
       (k < npixels roi_out ->
        forall c, c < 3 ->
          out !! (4 * k + c)
          = transformed 4 d (F32.div (data_strength d) F32.hundred) ivoid k c)).
Proof.
  intros Hi Ho.
  destruct (process_lookup 4 d md ivoid ovoid roi_in roi_out
              ltac:(lia) Hi Ho ltac:(reflexivity)) as (out & E & L & Hlk).
  exists out. split; [exact E |]. split.
  - intros Hm k Hk. rewrite (Hlk k 3 ltac:(lia)), decide_True by exact Hk.
    unfold process_at.
    destruct (F32.le _ _); [reflexivity |]. rewrite decide_False by lia.
    destruct Hm as [-> | Hm]; [reflexivity | discriminate Hm].
  - intros Hm Hs k. split.
    + rewrite (Hlk k 3 ltac:(lia)). unfold process_at. rewrite Hm, Hs.
      rewrite (decide_False (P := 3 < 3)) by lia.
      destruct (decide (k < npixels roi_out)); reflexivity.
    + intros Hk c Hc. rewrite (Hlk k c ltac:(lia)), decide_True by exact Hk.
      unfold process_at. rewrite Hs, decide_True by exact Hc. reflexivity.
Qed.


(** C3.  Each channel that [process] stores in an output pixel (the three
    colour channels always, every channel when strength / 100 <= 0, the
    4th with the mask-display flag) is [pixel_value] of the input pixel at
    the same index and the working data, a function in which neither the
    region nor the destination occurs; a channel it does not store keeps
    what the destination held.  Hence processing any sub-rectangle of a
    region on its own, on whatever destination, yields in every stored
    channel what processing the whole region yields there, and yields
    exactly the sub-rectangle of the whole result when the destination of
    the tile holds the sub-rectangle of the whole destination; two adjacent
    sub-rectangles covering the region so reproduce the whole result. *)
Theorem process_region_size_invariant
    (ch : nat) (d : dt_iop_velvia_data_t) (md : Z)
    (W H x0 y0 w h : nat) (ivoid ovoid tile_ovoid : buffer)
    (roi_in roi_in' : dt_iop_roi_t) :
  3 <= ch ->
  (mask_flag M md = true -> ch = 4) ->
  (Z.of_nat W < 2 ^ 31)%Z -> (Z.of_nat H < 2 ^ 31)%Z ->
  x0 + w <= W -> y0 + h <= H ->
  length ivoid = ch * (W * H) ->
  length ovoid = ch * (W * H) ->
  length tile_ovoid = ch * (w * h) ->
  exists out tile_out,
    process M ch d md ivoid ovoid roi_in (mk_roi (Z.of_nat W) (Z.of_nat H)) = Some out /\
    process M ch d md (crop ch W x0 y0 w h ivoid) tile_ovoid
            roi_in' (mk_roi (Z.of_nat w) (Z.of_nat h)) = Some tile_out /\
    (forall k c, k < W * H -> c < ch ->
       out !! (ch * k + c)
       = if stored d (mask_flag M md) c
         then pixel_value d (pixel_at ch ivoid k) c
         else ovoid !! (ch * k + c)) /\
    (forall x y c, x < w -> y < h -> c < ch ->
       stored d (mask_flag M md) c = true ->
       tile_out !! (ch * (w * y + x) + c)
       = out !! (ch * ((y0 + y) * W + x0 + x) + c)) /\
    (tile_ovoid = crop ch W x0 y0 w h ovoid ->
     tile_out = crop ch W x0 y0 w h out).
Proof.
  intros Hch Hmask HW HH Hx Hy Hli Hlo Hlt.
  assert (Hw : (Z.of_nat w < 2 ^ 31)%Z) by lia.
  assert (Hh : (Z.of_nat h < 2 ^ 31)%Z) by lia.
  pose proof (npixels_of_nat W H HW HH) as HN.
  pose proof (npixels_of_nat w h Hw Hh) as Hn.
  destruct (process_lookup ch d md ivoid ovoid roi_in (mk_roi (Z.of_nat W) (Z.of_nat H)))
    as (out & E & L & Hlk); try (rewrite HN; lia); auto.
  rewrite HN in Hlk.
  assert (Hbound : ch * (W * (y0 + h)) <= ch * (W * H))
    by (apply Nat.mul_le_mono_l, Nat.mul_le_mono_l; lia).
  assert (Hci : length (crop ch W x0 y0 w h ivoid) = ch * (w * h))
    by (apply crop_length; [exact Hx | lia]).
  assert (Hcr : length (crop ch W x0 y0 w h out) = ch * (w * h))
    by (apply crop_length; [exact Hx | lia]).
  destruct (process_lookup ch d md (crop ch W x0 y0 w h ivoid) tile_ovoid
              roi_in' (mk_roi (Z.of_nat w) (Z.of_nat h)))
    as (out' & E' & L' & Hlk'); try (rewrite Hn; lia); auto.
  rewrite Hn in Hlk'.
  exists out, out'. split; [exact E |]. split; [exact E' |].
  split; [| split].
  - intros k c Hk Hc. rewrite (Hlk k c Hc), decide_True by exact Hk.
    apply process_at_stored; assumption.
  - intros x y c Hxw Hyh Hc Hst.
    assert (Hkt : w * y + x < w * h) by nia.
    assert (Hk : (y0 + y) * W + x0 + x < W * H) by nia.
    rewrite (Hlk' _ c Hc), decide_True by exact Hkt.
    rewrite (Hlk _ c Hc), decide_True by exact Hk.
    rewrite !process_at_stored by assumption. rewrite Hst.
    apply (pixel_value_ext d _ _ ch c Hch Hc).
    intros c' Hc'. rewrite !pixel_at_lookup by exact Hc'.
    apply crop_lookup; auto; lia.
  - intros ->. apply list_eq. intros j.
    destruct (decide (j < ch * (w * h))) as [Hj | Hj].
    + pose proof (Nat.div_mod_eq j ch) as Ej.
      pose proof (Nat.mod_upper_bound j ch ltac:(lia)) as Hc.
      set (kt := j / ch) in *. set (c := j mod ch) in *.
      assert (Hkt : kt < w * h) by nia.
      assert (Hw0 : w <> 0) by nia.
      pose proof (Nat.div_mod_eq kt w) as Ek.
      pose proof (Nat.mod_upper_bound kt w Hw0) as Hxw.
      set (y := kt / w) in *. set (x := kt mod w) in *.
      assert (Hyh : y < h) by nia.
      rewrite Ej, (Hlk' kt c Hc), decide_True by exact Hkt.
      rewrite Ek.
      rewrite (crop_lookup ch W x0 y0 w h out Hx ltac:(lia) x y c Hxw Hyh Hc).
      rewrite (Hlk _ c Hc), decide_True by nia.
      apply process_at_ext; auto; intros c' Hc'; apply crop_lookup; auto; lia.
    + rewrite !lookup_ge_None_2 by lia. reflexivity.
Qed.

End Pipeline.

Lemma process_nonpositive_strength_is_copy_witness :
  (exists out,
      process 1 4 data_off 1 red_pixel (blank 4) (mk_roi 1 1) (mk_roi 1 1) = Some out /\
      length out = length (blank 4) /\
      take (4 * npixels (mk_roi 1 1)) out = take (4 * npixels (mk_roi 1 1)) red_pixel /\
      drop (4 * npixels (mk_roi 1 1)) out = drop (4 * npixels (mk_roi 1 1)) (blank 4)) /\
  (let copy :=
     enqueue_copy_image 0 1 2 (0, 0, 0)%Z (0, 0, 0)%Z
       (size_t_of_int (width (mk_roi 1 1)), size_t_of_int (height (mk_roi 1 1)), 1%Z) in
   process_cl (fun z => z) (fun z => z) cl_ok 0 7 data_off 1 2 (mk_roi 1 1) (mk_roi 1 1)
   = if (cl_ok copy =? CL_SUCCESS)%Z
     then (true, [copy])
     else (false, [copy; print_error (cl_ok copy)])).
Proof.
  apply (process_nonpositive_strength_is_copy 1 (fun z => z) (fun z => z) cl_ok 0 7 1 2
           4 data_off 1 red_pixel (blank 4) (mk_roi 1 1) (mk_roi 1 1)).
  - vm_compute. reflexivity.
  - vm_compute. lia.
  - vm_compute. lia.
  - intros _. lia.
Defined.

Lemma process_output_in_unit_interval_witness :
  exists out,
    process 1 4 data_default 0 red_pixel (blank 4) (mk_roi 1 1) (mk_roi 1 1) = Some out /\
    forall k, k < npixels (mk_roi 1 1) ->
      (F32.le (F32.div (data_strength data_default) F32.hundred) F32.zero = true ->
       forall c, c < 3 -> out !! (4 * k + c) = red_pixel !! (4 * k + c)) /\
      (F32.le (F32.div (data_strength data_default) F32.hundred) F32.zero = false ->
       forall c, c < 3 -> exists v, out !! (4 * k + c) = Some v /\ F32.in01 v) /\
      ((forall c v, c < 3 -> red_pixel !! (4 * k + c) = Some v -> F32.in01 v) ->
       forall c, c < 3 -> exists v, out !! (4 * k + c) = Some v /\ F32.in01 v).
Proof.
  apply (process_output_in_unit_interval 1 4 data_default 0 red_pixel (blank 4)
           (mk_roi 1 1) (mk_roi 1 1)).
  - lia.
  - vm_compute. lia.
  - vm_compute. lia.
  - intros _. reflexivity.
Defined.

Lemma process_region_size_invariant_witness :
  exists out tile_out,
    process 1 4 data_default 0 two_pixels (blank 8) (mk_roi 2 1)
            (mk_roi (Z.of_nat 2) (Z.of_nat 1)) = Some out /\
    process 1 4 data_default 0 (crop 4 2 1 0 1 1 two_pixels) red_pixel
            (mk_roi 1 1) (mk_roi (Z.of_nat 1) (Z.of_nat 1)) = Some tile_out /\
    (forall k c, k < 2 * 1 -> c < 4 ->
       out !! (4 * k + c)
       = if stored data_default (mask_flag 1 0) c
         then pixel_value data_default (pixel_at 4 two_pixels k) c
         else blank 8 !! (4 * k + c)) /\
    (forall x y c, x < 1 -> y < 1 -> c < 4 ->
       stored data_default (mask_flag 1 0) c = true ->
       tile_out !! (4 * (1 * y + x) + c)
       = out !! (4 * ((0 + y) * 2 + 1 + x) + c)) /\
    (red_pixel = crop 4 2 1 0 1 1 (blank 8) ->
     tile_out = crop 4 2 1 0 1 1 out).
Proof.
  apply (process_region_size_invariant 1 4 data_default 0 2 1 1 0 1 1
           two_pixels (blank 8) red_pixel (mk_roi 2 1) (mk_roi 1 1)).
  - lia.
  - intros H. vm_compute in H. discriminate H.
  - reflexivity.
  - reflexivity.
  - lia.
  - lia.
  - reflexivity.
  - reflexivity.
  - reflexivity.
Defined.

(** With the mask-display flag clear and strength / 100 > 0 the 4th channel
    of the output pixel is the destination's: for one input pixel and one
    working-data record the output pixel differs from destination to
    destination, so it is no function of the input pixel and the working
    data. *)
Lemma output_pixel_depends_on_destination :
  ~ exists f : dt_iop_velvia_data_t -> list F32.t -> list F32.t,
      forall (ovoid out : buffer),
        process 1 4 data_default 0 red_pixel ovoid (mk_roi 1 1) (mk_roi 1 1) = Some out ->
        out = f data_default red_pixel.
Proof.
  intros [f Hf].
  destruct (process 1 4 data_default 0 red_pixel (blank 4) (mk_roi 1 1) (mk_roi 1 1))
    as [o1 |] eqn:E1; [| vm_compute in E1; discriminate E1].
  destruct (process 1 4 data_default 0 red_pixel red_pixel (mk_roi 1 1) (mk_roi 1 1))
    as [o2 |] eqn:E2; [| vm_compute in E2; discriminate E2].
  pose proof (Hf _ _ E1) as H1. pose proof (Hf _ _ E2) as H2.
  rewrite <- H2 in H1. subst o1.
  vm_compute in E1. vm_compute in E2. rewrite <- E2 in E1. discriminate E1.
Qed.

Lemma process_alpha_channel_witness :
  exists out,
    process 1 4 data_default 0 red_pixel (blank 4) (mk_roi 1 1) (mk_roi 1 1) = Some out /\
    (mask_flag 1 0 = true \/
     F32.le (F32.div (data_strength data_default) F32.hundred) F32.zero = true ->
     forall k, k < npixels (mk_roi 1 1) -> out !! (4 * k + 3) = red_pixel !! (4 * k + 3)) /\
    (mask_flag 1 0 = false ->
     F32.le (F32.div (data_strength data_default) F32.hundred) F32.zero = false ->
     forall k,
       out !! (4 * k + 3) = blank 4 !! (4 * k + 3) /\
       (k < npixels (mk_roi 1 1) ->
        forall c, c < 3 ->
          out !! (4 * k + c)
          = transformed 4 data_default (F32.div (data_strength data_default) F32.hundred)
              red_pixel k c)).
Proof.
  apply (process_alpha_channel 1 data_default 0 red_pixel (blank 4) (mk_roi 1 1) (mk_roi 1 1)).
  - vm_compute. lia.
  - vm_compute. lia.
Defined.

(** The mask-display flag is not set, strength / 100 is 0, and yet the 4th
    channel of the output is the input's and not what the destination
    held: the short-cut has copied it. *)
Lemma alpha_copied_without_mask_flag :
  mask_flag 1 0 = false /\
  exists out,
    process 1 4 data_off 0 red_pixel (blank 4) (mk_roi 1 1) (mk_roi 1 1) = Some out /\
    out !! 3 = red_pixel !! 3 /\
    out !! 3 <> blank 4 !! 3.
Proof.
  split; [reflexivity |].
  eexists. split; [vm_compute; reflexivity |].
  split; [reflexivity |]. cbn. discriminate.
Qed.

End VelviaFacts.

(** ** velvia.c: the frame of [process] and the calls of [process_cl] *)

Module VelviaMore.
Import Velvia VelviaSpec VelviaData VelviaFacts VelviaClSpec.

(** X1.  Whatever the strength, [process_cl] makes exactly one enqueue
    call; it returns TRUE exactly when that call returned CL_SUCCESS and
    prints the error code of that call exactly when it returns FALSE.  The
    region it works on is [roi_in]: [roi_out] has no influence. *)
Theorem process_cl_single_enqueue
    (ROUNDUPWD ROUNDUPHT : Z -> Z) (cl_result : cl_call -> Z)
    (devid kernel_velvia dev_in dev_out : Z)
    (d : dt_iop_velvia_data_t) (roi_in roi_out : dt_iop_roi_t) :
  let r := process_cl ROUNDUPWD ROUNDUPHT cl_result devid kernel_velvia d
             dev_in dev_out roi_in roi_out in
  (exists c,
      List.filter is_enqueue (snd r) = [c] /\
      (fst r = true <-> cl_result c = CL_SUCCESS) /\
      List.filter is_print_error (snd r)
      = (if fst r then [] else [print_error (cl_result c)]) /\
      last (snd r) = Some (if fst r then c else print_error (cl_result c))) /\
  (forall roi_out',
      process_cl ROUNDUPWD ROUNDUPHT cl_result devid kernel_velvia d
        dev_in dev_out roi_in roi_out' = r).
Proof.
  cbv zeta. split; [| reflexivity]. unfold process_cl.
  destruct (F32.le (F32.div (data_strength d) F32.hundred) F32.zero);
    match goal with
    | |- context [(cl_result ?a =? CL_SUCCESS)%Z] =>
        exists a; destruct (Z.eqb_spec (cl_result a) CL_SUCCESS) as [E | E]
    end; cbn [fst snd];
    (split; [reflexivity |]);
    (split; [split; [intros H; try discriminate H; assumption
                    | intros H; try reflexivity; contradiction] |]);
    split; reflexivity.
Qed.

Section Pipeline.
Variable M : Z.

(** X2.  [process] keeps the length of the destination and leaves every
    element behind the [ch * width * height] floats of the output region as
    it was; inside the region the three colour channels it stores do not
    depend on what the destination held on entry. *)
Theorem process_frame
    (ch : nat) (d : dt_iop_velvia_data_t) (md : Z)
    (ivoid ovoid ovoid' : buffer) (roi_in roi_out : dt_iop_roi_t) :
  3 <= ch ->
  ch * npixels roi_out <= length ivoid ->
  ch * npixels roi_out <= length ovoid ->
  length ovoid' = length ovoid ->
  (mask_flag M md = true -> ch = 4) ->
  exists out out',
    process M ch d md ivoid ovoid roi_in roi_out = Some out /\
    process M ch d md ivoid ovoid' roi_in roi_out = Some out' /\
    length out = length ovoid /\
    (forall j, ch * npixels roi_out <= j -> out !! j = ovoid !! j) /\
    (forall k c, k < npixels roi_out -> c < 3 ->
                 out !! (ch * k + c) = out' !! (ch * k + c)).
Proof.
  intros Hch Hi Ho Hl Hmask.
  destruct (process_lookup M ch d md ivoid ovoid roi_in roi_out Hch Hi Ho Hmask)
    as (out & E & L & Hlk).
  destruct (process_lookup M ch d md ivoid ovoid' roi_in roi_out Hch Hi
              ltac:(rewrite Hl; exact Ho) Hmask) as (out' & E' & L' & Hlk').
  exists out, out'. repeat split; auto.
  - intros j Hj.
    pose proof (Nat.div_mod_eq j ch) as Ej.
    pose proof (Nat.mod_upper_bound j ch ltac:(lia)) as Hc.
    specialize (Hlk (j / ch) (j mod ch) Hc). rewrite <- Ej in Hlk.
    rewrite Hlk. rewrite decide_False; [reflexivity |].
    intros Hk. assert (ch * (j / ch) + j mod ch < ch * npixels roi_out) by nia. lia.
  - intros k c Hk Hc.
    rewrite (Hlk k c ltac:(lia)), (Hlk' k c ltac:(lia)), !decide_True by exact Hk.
    unfold process_at. destruct (F32.le _ _); [reflexivity |].
    rewrite !decide_True by exact Hc. reflexivity.
Qed.

End Pipeline.

Lemma process_frame_witness :
  exists out out',
    process 1 4 data_default 1 red_pixel (blank 4) (mk_roi 1 1) (mk_roi 1 1) = Some out /\
    process 1 4 data_default 1 red_pixel red_pixel (mk_roi 1 1) (mk_roi 1 1) = Some out' /\
    length out = length (blank 4) /\
    (forall j, 4 * npixels (mk_roi 1 1) <= j -> out !! j = blank 4 !! j) /\
    (forall k c, k < npixels (mk_roi 1 1) -> c < 3 ->
                 out !! (4 * k + c) = out' !! (4 * k + c)).
Proof.
  apply (process_frame 1 4 data_default 1 red_pixel (blank 4) red_pixel (mk_roi 1 1) (mk_roi 1 1)).
  - lia.
  - vm_compute. lia.
  - vm_compute. lia.
  - reflexivity.
  - intros _. reflexivity.
Defined.

End VelviaMore.

(** ** darktable-bench: the parser *)

Module BenchMore.
Import Bench BenchData BenchSpec BenchFacts.

Lemma prefix_app_same (sub s : string) : String.prefix sub (sub ++ s) = true.
Proof.
  induction sub as [| c sub IH]; cbn.
  - destruct s; reflexivity.
  - rewrite IH. destruct (ascii_dec c c); [reflexivity | contradiction].
Qed.

(** A prefix test only looks at as many characters as the pattern has. *)
Lemma prefix_app_short (sub a b : string) (n : nat) :
  String.length sub <= String.length a + n ->
  String.prefix sub (a ++ b) = true ->
  String.prefix sub (a ++ slice_to b n) = true.
Proof.
  revert a b n. induction sub as [| c sub IH]; intros a b n Hlen H.
  - destruct (a ++ slice_to b n)%string; reflexivity.
  - destruct a as [| x a].
    + cbn [String.append] in *. destruct b as [| y b]; [discriminate H |].
      destruct n as [| n]; [cbn in Hlen; lia |].
      cbn [slice_to]. cbn [String.prefix] in *.
      destruct (ascii_dec c y); [| discriminate H].
      apply (IH EmptyString b n); [cbn in *; lia | exact H].
    + cbn [String.append String.prefix] in *.
      destruct (ascii_dec c x); [| discriminate H].
      apply IH; [cbn in *; lia | exact H].
Qed.

Lemma slice_to_app_le (a b : string) (n : nat) :
  n <= String.length a -> slice_to (a ++ b) n = slice_to a n.
Proof.
  revert n. induction a as [| y a IHa]; intros n Hn.
  - cbn in Hn. assert (n = 0) by lia. subst n. destruct b; reflexivity.
  - destruct n as [| n]; [reflexivity |]. cbn [String.append slice_to].
    rewrite IHa by (cbn in Hn; lia). reflexivity.
Qed.

Lemma contains_app_r (sub a b : string) :
  contains sub b = true -> contains sub (a ++ b) = true.
Proof.
  intros H. induction a as [| x a IH]; [exact H |].
  cbn [String.append contains]. rewrite IH. apply orb_true_r.
Qed.

Lemma find_from_eq (sub s : string) (i : Z) :
  find_from sub s i
  = if String.prefix sub s then i
    else match s with
         | EmptyString => (-1)%Z
         | String _ s' => find_from sub s' (i + 1)%Z
         end.
Proof. destruct s; reflexivity. Qed.

(** [find] returns the offset of an occurrence that no occurrence starts
    before; [slice_to sub k] is the pattern without its last character. *)
Lemma find_from_app (sub pre post : string) (k : nat) (i : Z) :
  String.length sub = k + 1 ->
  contains sub (pre ++ slice_to sub k) = false ->
  find_from sub (pre ++ sub ++ post) i = (i + Z.of_nat (String.length pre))%Z.
Proof.
  intros Hk. revert i. induction pre as [| x pre IH]; intros i H.
  - cbn [String.append]. rewrite find_from_eq, prefix_app_same. cbn. lia.
  - cbn [String.append]. rewrite find_from_eq.
    cbn [String.append contains] in H. apply orb_false_elim in H. destruct H as [H1 H2].
    assert (Hp : String.prefix sub (String x (pre ++ sub ++ post)) = false).
    { destruct (String.prefix sub (String x (pre ++ sub ++ post))) eqn:E; [| reflexivity].
      exfalso.
      pose proof (prefix_app_short sub (String x pre) (sub ++ post) k
                    ltac:(cbn; lia) E) as E'.
      rewrite slice_to_app_le in E' by lia. cbn [String.append] in E'. congruence. }
    rewrite Hp, IH by exact H2.
    cbn [String.length]. lia.
Qed.

Lemma slice_from_app (a b : string) (n : nat) :
  slice_from (a ++ b) (String.length a + n) = slice_from b n.
Proof.
  induction a as [| x a IH]; cbn [String.append String.length Nat.add]; [reflexivity |].
  cbn [slice_from]. exact IH.
Qed.

Lemma slice_from_0 (s : string) : slice_from s 0 = s.
Proof. destruct s; reflexivity. Qed.

Lemma slice_to_app (a b : string) : slice_to (a ++ b) (String.length a) = a.
Proof.
  induction a as [| x a IH]; cbn [String.append String.length].
  - destruct b; reflexivity.
  - cbn [slice_to]. rewrite IH. reflexivity.
Qed.

Lemma find_not_contains (sub s : string) (i : Z) :
  contains sub s = false -> find_from sub s i = (-1)%Z.
Proof.
  revert i. induction s as [| x s IH]; intros i H; cbn [contains find_from] in *;
    apply orb_false_elim in H; destruct H as [H1 H2]; rewrite H1; [reflexivity |].
  apply IH. exact H2.
Qed.

Section Parser.
Variable py_float : string -> option F64.t.

(** X3.  For a line of the form [pre ++ "took" ++ mid ++ "sec" ++ post] in
    which [pre] and [mid] are not empty, no "took" starts inside [pre] and
    no "sec" starts inside [mid], [extract_seconds] is [float] of the
    stripped text [mid] between the two markers. *)
Theorem extract_seconds_between_markers (pre mid post : string) :
  pre <> EmptyString -> mid <> EmptyString ->
  contains "took" (pre ++ "too") = false ->
  contains "sec" (mid ++ "se") = false ->
  extract_seconds py_float (pre ++ "took" ++ mid ++ "sec" ++ post)
  = py_float (strip mid).
Proof.
  intros Hpre Hmid Htook Hsec. unfold extract_seconds, find.
  rewrite (find_from_app "took" pre (mid ++ "sec" ++ post) 3 0 ltac:(cbn; lia) Htook).
  assert (0 < String.length pre) by (destruct pre; [contradiction | cbn; lia]).
  assert (0 < String.length mid) by (destruct mid; [contradiction | cbn; lia]).
  replace (0 + Z.of_nat (String.length pre) >? 0)%Z with true by (symmetry; apply Z.gtb_lt; lia).
  replace (Z.to_nat (0 + Z.of_nat (String.length pre) + 4)) with (String.length pre + 4) by lia.
  rewrite slice_from_app.
  change 4 with (String.length "took" + 0). rewrite slice_from_app, slice_from_0.
  rewrite (find_from_app "sec" mid post 2 0 ltac:(cbn; lia) Hsec).
  replace (0 + Z.of_nat (String.length mid) >? 0)%Z with true by (symmetry; apply Z.gtb_lt; lia).
  replace (Z.to_nat (0 + Z.of_nat (String.length mid))) with (String.length mid) by lia.
  rewrite slice_to_app. reflexivity.
Qed.

(** X4.  A line without "took", or one that starts with it, yields 0.0
    without [float] being consulted. *)
Theorem extract_seconds_without_marker (line : string) :
  contains "took" line = false \/ String.prefix "took" line = true ->
  extract_seconds py_float line = Some F64.zero.
Proof.
  intros [H | H]; unfold extract_seconds, find.
  - rewrite find_not_contains by exact H. reflexivity.
  - destruct line as [| c line]; [discriminate H |].
    cbn [find_from]. rewrite H. reflexivity.
Qed.

Lemma scan_line_gpu (st st' : timings) (t : string) :
  scan_line py_float st t = Some st' -> gpu st' = gpu st || contains "GPU" t.
Proof.
  unfold scan_line.
  destruct (contains "GPU" t); destruct (contains "to load the image" t);
    try destruct (contains "to save the image" t);
    try destruct (contains "pipeline processing took" t);
    destruct (extract_seconds py_float t); cbn; intros H; inversion H; cbn;
    rewrite ?orb_true_r, ?orb_false_r; reflexivity.
Qed.

Lemma scan_trace_gpu (trace : list string) :
  forall st st' : timings,
    scan_trace py_float st trace = Some st' ->
    gpu st' = gpu st || existsb (contains "GPU") trace.
Proof.
  induction trace as [| t trace IH]; intros st st' H.
  - inversion H. cbn. rewrite orb_false_r. reflexivity.
  - cbn in H. destruct (scan_line py_float st t) as [st1 |] eqn:E; [| discriminate H].
    cbn in H. rewrite (IH _ _ H), (scan_line_gpu _ _ _ E). cbn [existsb].
    rewrite orb_assoc. reflexivity.
Qed.

Lemma scan_line_pixpipe (st st' : timings) (t : string) :
  scan_line py_float st t = Some st' ->
  if is_pixpipe t then extract_seconds py_float t = Some (pixpipe st')
  else pixpipe st' = pixpipe st.
Proof.
  unfold scan_line, is_pixpipe, is_load.
  destruct (contains "GPU" t); destruct (contains "to load the image" t);
    destruct (contains "to save the image" t);
    destruct (contains "pipeline processing took" t);
    destruct (extract_seconds py_float t); cbn; intros H; inversion H; reflexivity.
Qed.

Lemma scan_trace_pixpipe (trace : list string) :
  forall st st' : timings,
    scan_trace py_float st trace = Some st' ->
    match last (List.filter is_pixpipe trace) with
    | Some t => extract_seconds py_float t = Some (pixpipe st')
    | None => pixpipe st' = pixpipe st
    end.
Proof.
  induction trace as [| t trace IH]; intros st st' H.
  - inversion H. reflexivity.
  - cbn in H. destruct (scan_line py_float st t) as [st1 |] eqn:E; [| discriminate H].
    cbn in H. specialize (IH _ _ H). pose proof (scan_line_pixpipe _ _ _ E) as Hl.
    cbn [List.filter]. destruct (is_pixpipe t).
    + destruct (List.filter is_pixpipe trace) as [| t' l'] eqn:Ef.
      * cbn in *. congruence.
      * rewrite last_cons. destruct (last (t' :: l')); [exact IH |].
        congruence.
    + destruct (last (List.filter is_pixpipe trace)); [exact IH | congruence].
Qed.

(** X5.  When [run_benchmark] returns, its GPU flag is set exactly when
    some line of the trace contains "GPU", and the pipeline time it returns
    is the one extracted from the last line that reaches the
    'pipeline processing took' branch, 0.0 when there is none. *)
Theorem run_benchmark_gpu_and_last_pixpipe (trace : string) (p total : F64.t) (g : bool) :
  run_benchmark py_float trace = Some (p, total, g) ->
  g = existsb (contains "GPU") (trace_lines trace) /\
  match last (List.filter is_pixpipe (trace_lines trace)) with
  | Some t => extract_seconds py_float t = Some p
  | None => p = F64.zero
  end.
Proof.
  unfold run_benchmark.
  destruct (scan_trace py_float initial_timings (trace_lines trace)) as [st |] eqn:E;
    [| discriminate].
  cbn. intros H. inversion H; subst. split.
  - rewrite (scan_trace_gpu _ _ _ E). reflexivity.
  - exact (scan_trace_pixpipe _ _ _ E).
Qed.

End Parser.

Lemma extract_seconds_between_markers_witness :
  extract_seconds toy_float ("[dev] " ++ "took" ++ " 1.5 " ++ "sec" ++ "s (1.4 CPU)")
  = toy_float (strip " 1.5 ").
Proof.
  apply extract_seconds_between_markers;
    [discriminate | discriminate | reflexivity | reflexivity].
Defined.

Lemma extract_seconds_without_marker_witness :
  extract_seconds toy_float "took 2 secs" = Some F64.zero.
Proof. apply extract_seconds_without_marker. right. reflexivity. Defined.

Lemma run_benchmark_gpu_and_last_pixpipe_witness :
  false = existsb (contains "GPU") (trace_lines sample_trace) /\
  match last (List.filter is_pixpipe (trace_lines sample_trace)) with
  | Some t => extract_seconds toy_float t = Some (S754_finite false 4503599627370496 (-51))
  | None => S754_finite false 4503599627370496 (-51) = F64.zero
  end.
Proof.
  apply (run_benchmark_gpu_and_last_pixpipe toy_float sample_trace
           (S754_finite false 4503599627370496 (-51))
           (S754_finite false 5629499534213120 (-50)) false).
  vm_compute. reflexivity.
Defined.

End BenchMore.

(** ** darktable-bench: the main program *)

Module BenchMainFacts.
Import Bench BenchData BenchMain.

Lemma find_none (sub s : string) (i : Z) :
  contains sub s = false -> find_from sub s i = (-1)%Z.
Proof.
  revert i. induction s as [| x s IH]; intros i H; cbn [contains find_from] in *;
    apply orb_false_elim in H; destruct H as [H1 H2]; rewrite H1; [reflexivity |].
  apply IH. exact H2.
Qed.

Section Parser.
Variable py_float : string -> option F64.t.

Lemma extract_seconds_no_took (line : string) :
  contains "took" line = false -> extract_seconds py_float line = Some F64.zero.
Proof.
  intros H. unfold extract_seconds, find. rewrite find_none by exact H. reflexivity.
Qed.

(** The times stay zero (the save time possibly unset) as long as no line
    mentions "took". *)
Lemma scan_trace_no_timings (trace : list string) :
  Forall (fun t => contains "took" t = false) trace ->
  forall st : timings,
    loadtime st = F64.zero -> pixpipe st = F64.zero ->
    savetime st = F64.minus_one \/ savetime st = F64.zero ->
    exists st',
      scan_trace py_float st trace = Some st' /\
      loadtime st' = F64.zero /\ pixpipe st' = F64.zero /\
      (savetime st' = F64.minus_one \/ savetime st' = F64.zero).
Proof.
  induction 1 as [| t trace Ht _ IH]; intros st Hl Hp Hs.
  - exists st. repeat split; auto.
  - cbn [scan_trace]. unfold scan_line.
    rewrite (extract_seconds_no_took t Ht). cbn [mbind option_bind].
    destruct (contains "GPU" t);
      destruct (contains "to load the image" t);
      destruct (contains "to save the image" t);
      destruct (contains "pipeline processing took" t); cbn [mbind option_bind];
      apply IH; cbn; auto.
Qed.

Lemma run_benchmark_no_timings (trace : string) :
  no_timings trace ->
  exists g, run_benchmark py_float trace = Some (F64.zero, F64.zero, g).
Proof.
  intros H. unfold run_benchmark.
  destruct (scan_trace_no_timings _ H initial_timings) as (st & -> & Hl & Hp & Hs);
    [reflexivity | reflexivity | left; reflexivity |].
  cbn [mbind option_bind]. exists (gpu st). unfold final_savetime.
  rewrite Hl, Hp. destruct Hs as [-> | ->]; reflexivity.
Qed.

Lemma main_loop_no_timings (runs : list string) :
  Forall no_timings runs ->
  forall used_gpu, exists g,
    main_loop py_float runs F64.zero F64.zero used_gpu = inr (F64.zero, F64.zero, g).
Proof.
  induction 1 as [| trace runs Ht _ IH]; intros used_gpu.
  - exists used_gpu. reflexivity.
  - cbn [main_loop]. destruct (run_benchmark_no_timings trace Ht) as [g ->].
    change (F64.add F64.zero F64.zero) with F64.zero. apply IH.
Qed.

(** X6.  When neither the warm-up run nor any of the 1 to 9 measured runs
    prints a line with "took", every time is 0.0, so is the average, and
    [main] ends in the [ZeroDivisionError] of [3600 / total] (provided the
    version query did not fail before). *)
Theorem main_without_timings_divides_by_zero
    (warmup : string) (runs : list string) (version_output : string) :
  no_timings warmup ->
  Forall no_timings runs ->
  1 <= length runs <= 9 ->
  version_output <> EmptyString ->
  main py_float warmup runs version_output = inl ZeroDivisionError.
Proof.
  intros Hw Hr Hn Hv. unfold main.
  destruct (run_benchmark_no_timings warmup Hw) as [g0 ->].
  destruct (main_loop_no_timings runs Hr false) as [g ->].
  assert (Hq : py_div F64.zero (float_of_int (Z.of_nat (length runs))) = inr F64.zero).
  { destruct runs as [| r1 [| r2 [| r3 [| r4 [| r5 [| r6 [| r7 [| r8 [| r9 [| r10 l]]]]]]]]]];
      cbn [length] in Hn; try lia; reflexivity. }
  rewrite Hq.
  assert (Hg : exists v, get_version version_output = inr v).
  { unfold get_version. destruct version_output; [contradiction |].
    destruct (contains _ _); eexists; reflexivity. }
  destruct Hg as [v ->]. reflexivity.
Qed.

End Parser.

Lemma main_without_timings_divides_by_zero_witness :
  main toy_float "darktable 3.6" ["no perf output"%string; EmptyString] "this is darktable-cli 3.6"
  = inl ZeroDivisionError.
Proof.
  apply main_without_timings_divides_by_zero.
  - repeat constructor.
  - repeat constructor.
  - cbn. lia.
  - discriminate.
Defined.

Lemma remove_all_skip (old s : string) (k : nat) :
  remove_all old s k = remove_all old (slice_from s k) 0.
Proof.
  revert k. induction s as [| c s IH]; intros k.
  - destruct k; reflexivity.
  - destruct k as [| k]; [reflexivity |]. cbn [remove_all slice_from]. apply IH.
Qed.

(** Removal passes over text in which no occurrence starts and drops the
    occurrence that follows it. *)
Lemma remove_all_app (old a b : string) (k : nat) :
  String.length old = k + 1 ->
  contains old (a ++ slice_to old k) = false ->
  remove_all old (a ++ old ++ b) 0 = (a ++ remove_all old b 0)%string.
Proof.
  intros Hk. induction a as [| x a IH]; intros H.
  - cbn [String.append].
    destruct old as [| o old]; [cbn in Hk; lia |].
    cbn [String.append remove_all].
    change (String o (old ++ b))%string with (String o old ++ b)%string.
    rewrite BenchMore.prefix_app_same.
    rewrite remove_all_skip. cbn [String.length]. rewrite Nat.sub_succ, Nat.sub_0_r.
    replace (String.length old) with (String.length old + 0) by lia.
    rewrite BenchMore.slice_from_app, BenchMore.slice_from_0. reflexivity.
  - cbn [String.append contains] in H. apply orb_false_elim in H. destruct H as [H1 H2].
    cbn [String.append remove_all].
    assert (Hp : String.prefix old (String x (a ++ old ++ b)) = false).
    { destruct (String.prefix old (String x (a ++ old ++ b))) eqn:E; [| reflexivity].
      exfalso.
      pose proof (BenchMore.prefix_app_short old (String x a) (old ++ b) k
                    ltac:(cbn; lia) E) as E'.
      rewrite BenchMore.slice_to_app_le in E' by lia. cbn [String.append] in E'. congruence. }
    rewrite Hp, IH by exact H2. reflexivity.
Qed.

Lemma remove_all_none (old s : string) :
  contains old s = false -> remove_all old s 0 = s.
Proof.
  induction s as [| c s IH]; intros H; [reflexivity |].
  cbn [contains] in H. apply orb_false_elim in H. destruct H as [H1 H2].
  cbn [remove_all]. rewrite H1, IH by exact H2. reflexivity.
Qed.

Lemma split_newline_first (line rest : string) :
  contains (String "010" EmptyString) line = false ->
  hd EmptyString (split_newline (line ++ String "010" rest)) = line.
Proof.
  induction line as [| c line IH]; intros H.
  - reflexivity.
  - cbn [contains String.prefix] in H. apply orb_false_elim in H. destruct H as [H1 H2].
    cbn [String.append split_newline].
    destruct (Ascii.eqb_spec c "010"%char) as [-> | Hc].
    + cbn in H1. destruct line; discriminate H1.
    + specialize (IH H2).
      destruct (split_newline (line ++ String "010" rest)) as [| l ls]; cbn in *; congruence.
Qed.

Lemma contains_eq (sub s : string) :
  contains sub s
  = (String.prefix sub s ||
     match s with
     | EmptyString => false
     | String _ s' => contains sub s'
     end).
Proof. destruct s; reflexivity. Qed.

Lemma get_version_first_line (line more : string) :
  contains (String "010" EmptyString) line = false ->
  get_version (line ++ String "010" more)
  = if contains "this is " line
    then inr (remove_all "-cli" (slice_from line 8) 0)
    else inr "(Undetermined darktable version)"%string.
Proof.
  intros H. unfold get_version.
  rewrite (split_newline_first line more H).
  destruct line; reflexivity.
Qed.

(** X7.  [get_version] raises [IndexError] on an empty output; on a first
    line [this is NAME-cliREST] without any other "-cli" it returns
    [NAMEREST]; on a first line without "this is " it returns the
    placeholder. *)
Theorem get_version_cases (name rest more line : string) :
  get_version EmptyString = inl IndexError /\
  (contains (String "010" EmptyString) (name ++ "-cli" ++ rest) = false ->
   contains "-cli" (name ++ "-cl") = false ->
   contains "-cli" rest = false ->
   get_version (("this is " ++ name ++ "-cli" ++ rest) ++ String "010" more)
   = inr (name ++ rest)%string) /\
  (contains (String "010" EmptyString) line = false ->
   contains "this is " line = false ->
   get_version (line ++ String "010" more) = inr "(Undetermined darktable version)"%string).
Proof.
  split; [reflexivity |]. split.
  - intros Hnl Hname Hrest.
    rewrite get_version_first_line by exact Hnl.
    rewrite contains_eq, BenchMore.prefix_app_same. cbn [orb].
    change 8 with (String.length "this is " + 0).
    rewrite BenchMore.slice_from_app, BenchMore.slice_from_0.
    rewrite (remove_all_app "-cli" name rest 3 eq_refl Hname).
    rewrite remove_all_none by exact Hrest. reflexivity.
  - intros Hnl Hthis. rewrite get_version_first_line by exact Hnl.
    rewrite Hthis. reflexivity.
Qed.

Lemma get_version_cases_witness :
  get_version (("this is " ++ "darktable" ++ "-cli" ++ " 3.6.0") ++ String "010" "copyright")
  = inr ("darktable" ++ " 3.6.0")%string.
Proof.
  apply (proj1 (proj2 (get_version_cases "darktable" " 3.6.0" "copyright" EmptyString)));
    reflexivity.
Defined.

End BenchMainFacts.

(** ** imageio_dng.h: the header writer *)

Module DngHeaderFacts.
Import Dng DngHeader DngData.
Local Open Scope Z_scope.

Tactic Notation "list_of_length" ident(l) integer(n) :=
  do n (destruct l as [| ? l]; [discriminate |]);
  destruct l; [| discriminate].

Section Header.
Variable ADOBE_COEFF_FACTOR : Z.

Lemma read_be16_eq (buf : bytes) (adr b0 b1 : Z) :
  load8 buf adr = Some b0 -> load8 buf (adr + 1) = Some b1 ->
  read_be16 buf adr = Some (Z.shiftl b0 8 + b1).
Proof. intros H0 H1. unfold read_be16. rewrite H0, H1. reflexivity. Qed.

Lemma be16_high (val : Z) :
  Z.shiftl (uint8 (Z.shiftr val 24)) 8 + uint8 (Z.land (Z.shiftr val 16) 255)
  = (val mod 2 ^ 32) / 2 ^ 16.
Proof.
  unfold uint8. change 255 with (Z.ones 8).
  rewrite !Z.land_ones by lia.
  rewrite !Z.shiftr_div_pow2, !Z.shiftl_mul_pow2 by lia.
  rewrite !Z.mod_mod by lia.
  change (2 ^ 8) with 256. change (2 ^ 16) with 65536.
  change (2 ^ 24) with 16777216. change (2 ^ 32) with 4294967296.
  Z.to_euclidean_division_equations. lia.
Qed.

Lemma be16_low (val : Z) :
  Z.shiftl (uint8 (Z.land (Z.shiftr val 8) 255)) 8 + uint8 (Z.land val 255)
  = val mod 2 ^ 16.
Proof.
  unfold uint8. change 255 with (Z.ones 8).
  rewrite !Z.land_ones by lia.
  rewrite !Z.shiftr_div_pow2, !Z.shiftl_mul_pow2 by lia.
  rewrite !Z.mod_mod by lia.
  change (2 ^ 8) with 256. change (2 ^ 16) with 65536.
  Z.to_euclidean_division_equations. lia.
Qed.

Lemma to_int_mod16 (z : Z) : to_int z mod 2 ^ 16 = z mod 2 ^ 16.
Proof.
  unfold to_int.
  change (2 ^ 31) with 2147483648. change (2 ^ 32) with 4294967296.
  change (2 ^ 16) with 65536.
  Z.to_euclidean_division_equations. lia.
Qed.

Lemma read_be16_ext (buf buf' : bytes) (adr : Z) :
  (forall i, adr <= i <= adr + 1 -> load8 buf' i = load8 buf i) ->
  read_be16 buf' adr = read_be16 buf adr.
Proof. intros H. unfold read_be16. rewrite !H by lia. reflexivity. Qed.

(** One call of [dt_imageio_dng_make_tag] as a reader sees it. *)
Lemma make_tag_entry (tag type lng fld : Z) (buf : bytes) (b cnt : Z) :
  0 <= b -> b + 11 < Z.of_nat (length buf) ->
  Z.lor (Z.shiftl tag 16) type = tag * 65536 + type ->
  0 <= tag < 65536 -> 0 <= type < 65536 -> 0 <= lng < 2 ^ 32 ->
  exists buf',
    dt_imageio_dng_make_tag tag type lng fld buf b cnt
    = Some (buf', b + 12, uint8 (cnt + 1)) /\
    length buf' = length buf /\
    read_be16 buf' b = Some tag /\
    read_be16 buf' (b + 2) = Some type /\
    read_be32 buf' b = Some (tag * 65536 + type) /\
    read_be32 buf' (b + 4) = Some lng /\
    read_be32 buf' (b + 8) = Some (fld mod 2 ^ 32) /\
    (forall i, i < b \/ b + 11 < i -> load8 buf' i = load8 buf i).
Proof.
  intros Hb Hl Hw Htag Htype Hlng. unfold dt_imageio_dng_make_tag. rewrite Hw.
  destruct (DngFacts.write_buf_spec buf (b + 0) (to_int (tag * 65536 + type)))
    as (b1 & E1 & L1 & A0 & A1 & A2 & A3 & F1); [lia | lia |].
  rewrite E1. cbn [mbind option_bind].
  destruct (DngFacts.write_buf_read b1 (b + 4) (to_int lng))
    as (b2 & E2 & L2 & R2 & F2); [lia | lia |].
  rewrite E2. cbn [mbind option_bind].
  destruct (DngFacts.write_buf_read b2 (b + 8) (to_int fld))
    as (b3 & E3 & L3 & R3 & F3); [lia | lia |].
  rewrite E3. cbn [mbind option_bind].
  assert (Fr : forall i, i < b + 4 -> load8 b3 i = load8 b1 i).
  { intros i Hi. rewrite F3 by lia. apply F2. lia. }
  replace (b + 0) with b in * by lia.
  exists b3. split; [reflexivity |]. split; [congruence |].
  split; [| split; [| split; [| split; [| split]]]].
  - unfold read_be16. rewrite !Fr by lia. rewrite A0, A1. cbn [mbind option_bind].
    rewrite be16_high, DngFacts.to_int_mod. f_equal.
    change (2 ^ 32) with 4294967296. change (2 ^ 16) with 65536.
    Z.to_euclidean_division_equations. lia.
  - unfold read_be16. replace (b + 2 + 1) with (b + 3) by lia.
    rewrite !Fr by lia. rewrite A2, A3. cbn [mbind option_bind].
    rewrite be16_low, to_int_mod16. f_equal.
    change (2 ^ 16) with 65536.
    Z.to_euclidean_division_equations. lia.
  - rewrite (DngFacts.read_be32_ext b1 b3) by (intros; apply Fr; lia).
    rewrite (DngFacts.read_be32_eq _ _ _ _ _ _ A0 A1 A2 A3).
    rewrite DngFacts.be32_recompose, DngFacts.to_int_mod. f_equal.
    apply Z.mod_small. lia.
  - rewrite (DngFacts.read_be32_ext b2 b3) by (intros; apply F3; lia).
    rewrite R2, DngFacts.to_int_mod. f_equal. apply Z.mod_small. lia.
  - rewrite R3, DngFacts.to_int_mod. reflexivity.
  - intros i Hi. rewrite F3 by lia. rewrite F2 by lia. apply F1. lia.
Qed.

Lemma lor_shiftl16 (tag type : Z) :
  0 <= type < 65536 -> Z.lor (Z.shiftl tag 16) type = tag * 65536 + type.
Proof.
  intros Ht.
  assert (Hl : Z.land (Z.shiftl tag 16) type = 0).
  { apply Z.bits_inj'. intros n Hn. rewrite Z.land_spec, Z.bits_0.
    destruct (Z.lt_ge_cases n 16) as [Hlt | Hge].
    - rewrite Z.shiftl_spec_low by exact Hlt. reflexivity.
    - destruct (Z.eq_dec type 0) as [-> | Hnz].
      + rewrite Z.bits_0. apply andb_false_r.
      + rewrite (Z.bits_above_log2 type n); [apply andb_false_r | lia |].
        apply Z.lt_le_trans with 16; [| exact Hge].
        apply Z.log2_lt_pow2; [lia |]. change (2 ^ 16) with 65536. lia. }
  pose proof (Z.add_lor_land (Z.shiftl tag 16) type) as H.
  rewrite Hl in H.
  assert (Hs : Z.shiftl tag 16 = tag * 65536) by (rewrite Z.shiftl_mul_pow2 by lia; reflexivity).
  lia.
Qed.

(** X12.  [dt_imageio_dng_make_tag] at the place of entry [i] of a
    directory: the twelve bytes decode to the tag, the type, the count and
    the value modulo 2^32; every other byte of the buffer stays; the
    pointer moves on by 12 and the counter, a [uint8_t], by 1 modulo 256. *)
Theorem make_tag_roundtrip (tag type lng fld : Z) (buf : bytes) (i cnt : Z) :
  0 <= i -> 12 + 12 * i + 11 < Z.of_nat (length buf) ->
  0 <= tag < 65536 -> 0 <= type < 65536 -> 0 <= lng < 2 ^ 32 ->
  exists buf',
    dt_imageio_dng_make_tag tag type lng fld buf (12 + 12 * i) cnt
    = Some (buf', 12 + 12 * i + 12, (cnt + 1) mod 256) /\
    length buf' = length buf /\
    read_entry buf' i = Some (tag, type, lng, fld mod 2 ^ 32) /\
    (forall j, j < 12 + 12 * i \/ 12 + 12 * i + 11 < j -> load8 buf' j = load8 buf j).
Proof.
  intros Hi Hl Htag Htype Hlng.
  destruct (make_tag_entry tag type lng fld buf (12 + 12 * i) cnt)
    as (buf' & E & L' & R1 & R2 & _ & R4 & R5 & Fr);
    try assumption; [lia | apply lor_shiftl16; exact Htype |].
  exists buf'. split; [exact E |]. split; [exact L' |]. split; [| exact Fr].
  unfold read_entry. rewrite R1, R2, R4, R5. reflexivity.
Qed.

(** Appending one entry to a directory under construction: the entries
    written before and the twelve bytes in front of the directory stay. *)
Lemma directory_step (buf0 : bytes) (es : list (Z * Z * Z * Z)) (tag type lng fld : Z)
    (buf : bytes) (b cnt : Z) :
  dir_state buf0 buf es ->
  b = 12 + 12 * Z.of_nat (length es) ->
  (length es < 84)%nat ->
  Z.lor (Z.shiftl tag 16) type = tag * 65536 + type ->
  0 <= tag < 65536 -> 0 <= type < 65536 -> 0 <= lng < 2 ^ 32 ->
  exists buf',
    dt_imageio_dng_make_tag tag type lng fld buf b cnt
    = Some (buf', b + 12, uint8 (cnt + 1)) /\
    dir_state buf0 buf' (es ++ [(tag, type, lng, fld)]).
Proof.
  intros (L & I & F) Hb Hn Hw Htag Htype Hlng.
  destruct (make_tag_entry tag type lng fld buf b cnt)
    as (buf' & E & L' & R1 & R2 & R3 & R4 & R5 & Fr); try assumption; [lia | lia |].
  exists buf'. split; [exact E |]. split; [congruence |]. split.
  - intros i tag' type' count' value' Hi.
    destruct (decide (i < length es)%nat) as [Hlt | Hge].
    + rewrite lookup_app_l in Hi by exact Hlt.
      destruct (I i tag' type' count' value' Hi) as (Q1 & Q2 & Q3 & Q4 & Q5).
      rewrite !(read_be16_ext buf buf') by (intros; apply Fr; lia).
      rewrite !(DngFacts.read_be32_ext buf buf') by (intros; apply Fr; lia).
      auto.
    + rewrite lookup_app_r in Hi by lia.
      destruct (i - length es)%nat as [| k] eqn:Ek; [| destruct k; discriminate Hi].
      cbn in Hi. inversion Hi; subst tag' type' count' value'.
      replace (12 + 12 * Z.of_nat i) with b by lia. auto.
  - intros i Hi. rewrite Fr by lia. apply F. exact Hi.
Qed.

Lemma load8_insert_ne (buf : bytes) (k : nat) (v i : Z) :
  i <> Z.of_nat k -> load8 (<[k := v]> buf) i = load8 buf i.
Proof.
  intros H. unfold load8. destruct (decide (0 <= i)); [| reflexivity].
  apply list_lookup_insert_ne. lia.
Qed.

Lemma load8_insert_eq (buf : bytes) (k : nat) (v : Z) :
  (k < length buf)%nat -> load8 (<[k := v]> buf) (Z.of_nat k) = Some v.
Proof.
  intros H. unfold load8. rewrite decide_True by lia. rewrite Nat2Z.id.
  apply list_lookup_insert_eq. exact H.
Qed.

Lemma strip_byte_count (xs ys : Z) :
  uint32 (uint32 (uint32 (ys * xs) * 1) * 4) = uint32 (ys * xs * 4).
Proof.
  unfold uint32. rewrite Z.mul_1_r, Z.mod_mod by lia.
  rewrite Z.mul_mod_idemp_l by lia. reflexivity.
Qed.

Ltac tag_step :=
  match goal with
  | S : dir_state ?buf0 ?buf ?es
    |- context [dt_imageio_dng_make_tag ?t ?ty ?l ?f ?buf ?b ?c] =>
      let buf' := fresh "buf" in
      let E := fresh "E" in
      let S' := fresh "S" in
      destruct (directory_step buf0 es t ty l f buf b c S) as (buf' & E & S');
      [ reflexivity | cbn; lia | reflexivity | lia
      | unfold BYTE, SHORT, LONG, RATIONAL, SRATIONAL; lia | lia | ];
      rewrite E; clear E S; cbn [mbind option_bind]; cbn [app] in S'
  end.

(** Entry [i] of the directory written by the first part decodes to entry
    [i] of [ifd_entries], up to reduction of the value modulo 2^32. *)
Lemma header_directory_reads (xs ys filter : Z) (whitelevel : F32.t) :
  exists buf,
    header_directory xs ys filter whitelevel = Some buf /\
    length buf = 1024%nat /\
    (load8 buf 0 = Some 77 /\ load8 buf 1 = Some 77 /\
     load8 buf 2 = Some 0 /\ load8 buf 3 = Some 42 /\
     read_be32 buf 4 = Some 10 /\ read_be16 buf 10 = Some 21 /\
     read_be32 buf 264 = Some 0) /\
    forall i tag type count value,
      ifd_entries xs ys filter whitelevel !! i = Some (tag, type, count, value) ->
      read_be16 buf (12 + 12 * Z.of_nat i) = Some tag /\
      read_be16 buf (12 + 12 * Z.of_nat i + 2) = Some type /\
      read_be32 buf (12 + 12 * Z.of_nat i + 4) = Some count /\
      read_be32 buf (12 + 12 * Z.of_nat i + 8) = Some (value mod 2 ^ 32).
Proof.
  cbv beta zeta delta [header_directory].
  rewrite DngFacts.store8_Some by (rewrite length_replicate; lia).
  cbn [mbind option_bind].
  rewrite DngFacts.store8_Some by (rewrite !length_insert, length_replicate; lia).
  cbn [mbind option_bind].
  rewrite DngFacts.store8_Some by (rewrite !length_insert, length_replicate; lia).
  cbn [mbind option_bind].
  rewrite DngFacts.store8_Some by (rewrite !length_insert, length_replicate; lia).
  cbn [mbind option_bind].
  match goal with
  | |- context [dt_imageio_dng_make_tag _ _ _ _ ?b _ _] => set (buf0 := b)
  end.
  assert (L0 : length buf0 = 1024%nat) by (vm_compute; reflexivity).
  assert (H0 : load8 buf0 0 = Some 77 /\ load8 buf0 1 = Some 77 /\
               load8 buf0 2 = Some 0 /\ load8 buf0 3 = Some 42 /\
               read_be32 buf0 4 = Some 10 /\ load8 buf0 10 = Some 0)
    by (vm_compute; repeat split).
  assert (S : dir_state buf0 buf0 []).
  { split; [exact L0 |]. split; [| reflexivity]. intros i ? ? ? ? Hi. discriminate Hi. }
  clearbody buf0.
  unfold ifd_entries.
  destruct (filter =? 9) eqn:Ef.
  all: do 22 tag_step.
  all: match goal with S : dir_state _ ?b _ |- _ => rename b into bufn end.
  all: destruct S as (L & I & F).
  all: rewrite DngFacts.store8_Some by (rewrite L; lia).
  all: eexists; (split; [reflexivity |]).
  all: change (Z.to_nat 11) with 11%nat.
  all: (split; [rewrite length_insert; exact L |]).
  all: rewrite strip_byte_count in I.
  all: destruct H0 as (B0 & B1 & B2 & B3 & B4 & B10).
  all: assert (Fr : forall b : bytes, forall v i : Z, i <> 11 ->
                      load8 (<[11%nat := v]> b) i = load8 b i)
         by (intros; apply load8_insert_ne; lia).
  all: split;
    [ rewrite !Fr by lia; rewrite !F by lia;
      split; [exact B0 |]; split; [exact B1 |]; split; [exact B2 |]; split; [exact B3 |];
      split; [rewrite (DngFacts.read_be32_ext buf0) by (intros; rewrite Fr by lia; apply F; lia);
              exact B4 |];
      split; [unfold read_be16; rewrite (Fr _ _ 10) by lia; rewrite F by lia; rewrite B10;
              cbn [mbind option_bind];
              change (10 + 1) with (Z.of_nat 11);
              rewrite load8_insert_eq by (rewrite L; lia); reflexivity |];
      rewrite (DngFacts.read_be32_ext bufn) by (intros; apply Fr; lia);
      apply (I 21%nat 0 0 0 0 eq_refl)
    | ].
  all: intros i tag type count value Hi.
  all: assert (Hlt : (i < 22)%nat) by (apply lookup_lt_Some in Hi; exact Hi).
  all: match goal with
       | L : length ?b = 1024%nat |- context [<[11%nat := ?v]> ?b] =>
           specialize (Fr b v);
           rewrite !(read_be16_ext b (<[11%nat := v]> b)) by (intros; apply Fr; lia);
           rewrite !(DngFacts.read_be32_ext b (<[11%nat := v]> b))
             by (intros; apply Fr; lia)
       end.
  all: do 22 (destruct i as [| i];
              [ cbn [lookup list_lookup] in Hi; inversion Hi; subst tag type count value;
                clear Hi;
                match goal with
                | |- context [Z.of_nat ?k] =>
                    destruct (I k _ _ _ _ eq_refl) as (R1 & R2 & _ & R3 & R4)
                end;
                split; [exact R1 |]; split; [exact R2 |]; split; [exact R3 |];
                rewrite R4; f_equal;
                first [ reflexivity | unfold uint32; rewrite Z.mod_mod by lia; reflexivity ]
              | ]).
  all: discriminate Hi.
Qed.

Lemma store8_inv (buf buf' : bytes) (i v : Z) :
  store8 buf i v = Some buf' ->
  0 <= i < Z.of_nat (length buf) /\ buf' = <[Z.to_nat i := v]> buf.
Proof.
  unfold store8. destruct (decide _) as [H | H]; [| discriminate].
  intros E. inversion E. auto.
Qed.

Lemma write_buf_inv (buf buf' : bytes) (adr val : Z) :
  dt_imageio_dng_write_buf buf adr val = Some buf' ->
  0 <= adr /\ adr + 3 < Z.of_nat (length buf).
Proof.
  unfold dt_imageio_dng_write_buf. intros H.
  destruct (store8 buf (adr + 3) _) as [b1 |] eqn:E1; [| discriminate H].
  destruct (store8_inv _ _ _ _ E1) as [R1 ->]. cbn [mbind option_bind] in H.
  destruct (store8 _ (adr + 2) _) as [b2 |] eqn:E2; [| discriminate H].
  destruct (store8_inv _ _ _ _ E2) as [R2 ->]. cbn [mbind option_bind] in H.
  destruct (store8 _ (adr + 1) _) as [b3 |] eqn:E3; [| discriminate H].
  destruct (store8_inv _ _ _ _ E3) as [R3 ->]. cbn [mbind option_bind] in H.
  destruct (store8_inv _ _ _ _ H) as [R4 _].
  rewrite !length_insert in R4. lia.
Qed.

(** A successful [dt_imageio_dng_write_buf] in terms of big-endian reads. *)
Lemma write_buf_reads (buf buf' : bytes) (adr val : Z) :
  dt_imageio_dng_write_buf buf adr val = Some buf' ->
  length buf' = length buf /\
  read_be32 buf' adr = Some (val mod 2 ^ 32) /\
  (forall i, i < adr \/ adr + 3 < i -> load8 buf' i = load8 buf i).
Proof.
  intros H. destruct (write_buf_inv _ _ _ _ H) as [H0 H3].
  destruct (DngFacts.write_buf_read buf adr val H0 H3) as (b & E & L & R & F).
  rewrite H in E. inversion E; subst b. auto.
Qed.

Lemma write_rationals_reads (nums : list Z) (den base : Z) :
  forall (buf buf' : bytes) (k : Z),
    0 <= k ->
    write_rationals buf base nums den k = Some buf' ->
    length buf' = length buf /\
    (forall i, i < base + k * 8 \/ base + (k + Z.of_nat (length nums)) * 8 <= i ->
               load8 buf' i = load8 buf i) /\
    (forall j num, nums !! j = Some num ->
       read_be32 buf' (base + (k + Z.of_nat j) * 8) = Some (num mod 2 ^ 32) /\
       read_be32 buf' (base + 4 + (k + Z.of_nat j) * 8) = Some (den mod 2 ^ 32)).
Proof.
  induction nums as [| n nums IH]; intros buf buf' k Hk H.
  - inversion H; subst. split; [reflexivity |]. split; [auto |].
    intros j num Hj. discriminate Hj.
  - cbn [write_rationals] in H.
    destruct (dt_imageio_dng_write_buf buf (base + k * 8) n) as [b1 |] eqn:E1;
      [| discriminate H].
    cbn [mbind option_bind] in H.
    destruct (dt_imageio_dng_write_buf b1 (base + 4 + k * 8) den) as [b2 |] eqn:E2;
      [| discriminate H].
    cbn [mbind option_bind] in H.
    destruct (write_buf_reads _ _ _ _ E1) as (L1 & R1 & F1).
    destruct (write_buf_reads _ _ _ _ E2) as (L2 & R2 & F2).
    destruct (IH b2 buf' (k + 1) ltac:(lia) H) as (L & F & R).
    split; [congruence |]. split.
    + intros i Hi. cbn [length] in Hi.
      rewrite F by lia. rewrite F2 by lia. apply F1. lia.
    + intros j num Hj. destruct j as [| j'].
      * cbn in Hj. inversion Hj; subst num.
        replace (k + Z.of_nat 0) with k by lia. split.
        -- rewrite (DngFacts.read_be32_ext b2 buf') by (intros; apply F; lia).
           rewrite (DngFacts.read_be32_ext b1 b2) by (intros; apply F2; lia).
           exact R1.
        -- rewrite (DngFacts.read_be32_ext b2 buf') by (intros; apply F; lia).
           exact R2.
      * cbn in Hj. destruct (R j' num Hj) as [Ra Rb].
        replace (k + Z.of_nat (S j')) with (k + 1 + Z.of_nat j') by lia. auto.
Qed.

Lemma load8_lookup (buf : bytes) (i : nat) : load8 buf (Z.of_nat i) = buf !! i.
Proof. unfold load8. rewrite decide_True by lia. rewrite Nat2Z.id. reflexivity. Qed.

Lemma load8_nat (buf : bytes) (i : Z) : 0 <= i -> load8 buf i = buf !! Z.to_nat i.
Proof. intros H. unfold load8. rewrite decide_True by lia. reflexivity. Qed.

Lemma memcpy_reads (buf buf' src : bytes) (adr n : nat) :
  memcpy buf adr src n = Some buf' ->
  length buf' = length buf /\
  (forall i, i < Z.of_nat adr \/ Z.of_nat (adr + n) <= i -> load8 buf' i = load8 buf i) /\
  (forall j, (j < n)%nat -> load8 buf' (Z.of_nat (adr + j)) = src !! j).
Proof.
  unfold memcpy. destruct (decide _) as [[Hs Hb] | H]; [| discriminate].
  intros E. inversion E; subst buf'. clear E.
  assert (Lt : length (take adr buf) = adr) by (rewrite length_take; lia).
  assert (Ls : length (take n src) = n) by (rewrite length_take; lia).
  split; [| split].
  - rewrite !length_app, Lt, Ls, length_drop. lia.
  - intros i Hi. unfold load8. destruct (decide (0 <= i)); [| reflexivity].
    destruct Hi as [Hi | Hi].
    + rewrite lookup_app_l by lia. apply lookup_take_lt. lia.
    + rewrite lookup_app_r by lia. rewrite lookup_app_r by lia.
      rewrite lookup_drop, Lt, Ls. f_equal. lia.
  - intros j Hj. rewrite load8_lookup.
    rewrite lookup_app_r by lia. rewrite lookup_app_l by lia.
    rewrite Lt. replace (adr + j - adr)%nat with j by lia.
    apply lookup_take_lt. exact Hj.
Qed.

Lemma load8_take (buf : bytes) (n : nat) (i : Z) :
  i < Z.of_nat n -> load8 (take n buf) i = load8 buf i.
Proof.
  intros H. unfold load8. destruct (decide (0 <= i)); [| reflexivity].
  apply lookup_take_lt. lia.
Qed.

(** What the second part of the header writer leaves in the file. *)
Lemma header_data_reads (buf hdr xtrans : bytes) (wb_coeffs adobe : list F32.t) :
  length buf = 1024%nat ->
  header_data ADOBE_COEFF_FACTOR buf xtrans wb_coeffs adobe = Some hdr ->
  length hdr = 584%nat /\
  (forall i, i < 400 -> load8 hdr i = load8 buf i) /\
  (forall j, (j < 36)%nat -> load8 hdr (Z.of_nat (400 + j)) = xtrans !! j) /\
  exists (a00 : F32.t) (m coeffs : list Z) (den : Z),
    adobe !! 0%nat = Some a00 /\
    (if F32Conv.is_nan a00
     then m = default_matrix /\ den = 1000000
     else camera_matrix ADOBE_COEFF_FACTOR adobe = Some m /\ den = ADOBE_COEFF_FACTOR) /\
    neutral_coeffs 1000000 wb_coeffs = Some coeffs /\
    length m = 9%nat /\ length coeffs = 3%nat /\
    (forall j num, m !! j = Some num ->
       read_be32 hdr (480 + Z.of_nat j * 8) = Some (num mod 2 ^ 32) /\
       read_be32 hdr (484 + Z.of_nat j * 8) = Some (den mod 2 ^ 32)) /\
    (forall j num, coeffs !! j = Some num ->
       read_be32 hdr (556 + Z.of_nat j * 8) = Some (num mod 2 ^ 32) /\
       read_be32 hdr (560 + Z.of_nat j * 8) = Some 1000000).
Proof.
  intros Lb H. unfold header_data in H.
  destruct (memcpy buf 400 xtrans 36) as [b1 |] eqn:E1; [| discriminate H].
  cbn [mbind option_bind] in H.
  destruct (adobe !! 0%nat) as [a00 |] eqn:Ea; [| discriminate H].
  cbn [mbind option_bind] in H.
  set (md := if negb (F32Conv.is_nan a00)
             then m ← camera_matrix ADOBE_COEFF_FACTOR adobe; Some (m, ADOBE_COEFF_FACTOR)
             else Some (default_matrix, 1000000)) in H.
  destruct md as [[m den] |] eqn:Emd; [| discriminate H].
  cbn [mbind option_bind] in H.
  destruct (write_rationals b1 480 m den 0) as [b2 |] eqn:E2; [| discriminate H].
  cbn [mbind option_bind] in H.
  destruct (neutral_coeffs 1000000 wb_coeffs) as [coeffs |] eqn:Ec; [| discriminate H].
  cbn [mbind option_bind] in H.
  destruct (write_rationals b2 556 coeffs 1000000 0) as [b3 |] eqn:E3; [| discriminate H].
  cbn [mbind option_bind] in H. inversion H; subst hdr. clear H.
  destruct (memcpy_reads _ _ _ _ _ E1) as (L1 & F1 & X1).
  destruct (write_rationals_reads m den 480 b1 b2 0 ltac:(lia) E2) as (L2 & F2 & R2).
  destruct (write_rationals_reads coeffs 1000000 556 b2 b3 0 ltac:(lia) E3) as (L3 & F3 & R3).
  assert (Lm : length m = 9%nat).
  { subst md. destruct (F32Conv.is_nan a00); cbn [negb] in Emd.
    - inversion Emd. reflexivity.
    - destruct (camera_matrix ADOBE_COEFF_FACTOR adobe) as [m' |] eqn:Em; [| discriminate Emd].
      inversion Emd; subst. symmetry. apply (length_mapM _ _ _ Em). }
  assert (Lc : length coeffs = 3%nat) by (symmetry; apply (length_mapM _ _ _ Ec)).
  rewrite Lm in F2. rewrite Lc in F3.
  split; [rewrite length_take; lia |]. split; [| split].
  - intros i Hi. rewrite load8_take by lia.
    rewrite F3 by lia. rewrite F2 by lia. apply F1. lia.
  - intros j Hj. rewrite load8_take by lia.
    rewrite F3 by lia. rewrite F2 by lia. apply X1. exact Hj.
  - exists a00, m, coeffs, den. split; [reflexivity |]. split.
    { subst md. destruct (F32Conv.is_nan a00); cbn [negb] in Emd.
      - inversion Emd. auto.
      - destruct (camera_matrix ADOBE_COEFF_FACTOR adobe) as [m' |] eqn:Em; [| discriminate Emd].
        inversion Emd; subst. auto. }
    split; [reflexivity |]. split; [exact Lm |]. split; [exact Lc |]. split.
    + intros j num Hj. pose proof (lookup_lt_Some _ _ _ Hj) as Hlt.
      destruct (R2 j num Hj) as [Ra Rb].
      replace (480 + (0 + Z.of_nat j) * 8) with (480 + Z.of_nat j * 8) in Ra by lia.
      replace (480 + 4 + (0 + Z.of_nat j) * 8) with (484 + Z.of_nat j * 8) in Rb by lia.
      split.
      * rewrite (DngFacts.read_be32_ext b3) by (intros; apply load8_take; lia).
        rewrite (DngFacts.read_be32_ext b2 b3) by (intros; apply F3; lia). exact Ra.
      * rewrite (DngFacts.read_be32_ext b3) by (intros; apply load8_take; lia).
        rewrite (DngFacts.read_be32_ext b2 b3) by (intros; apply F3; lia). exact Rb.
    + intros j num Hj. pose proof (lookup_lt_Some _ _ _ Hj) as Hlt.
      destruct (R3 j num Hj) as [Ra Rb].
      replace (556 + (0 + Z.of_nat j) * 8) with (556 + Z.of_nat j * 8) in Ra by lia.
      replace (556 + 4 + (0 + Z.of_nat j) * 8) with (560 + Z.of_nat j * 8) in Rb by lia.
      split.
      * rewrite (DngFacts.read_be32_ext b3) by (intros; apply load8_take; lia). exact Ra.
      * rewrite (DngFacts.read_be32_ext b3) by (intros; apply load8_take; lia). exact Rb.
Qed.

(** The two parts put together. *)
Lemma header_reads (xs ys filter : Z) (xtrans hdr : bytes) (whitelevel : F32.t)
    (wb_coeffs adobe : list F32.t) :
  dt_imageio_dng_write_tiff_header ADOBE_COEFF_FACTOR xs ys filter xtrans whitelevel
    wb_coeffs adobe = Some hdr ->
  exists buf,
    header_directory xs ys filter whitelevel = Some buf /\
    length buf = 1024%nat /\
    header_data ADOBE_COEFF_FACTOR buf xtrans wb_coeffs adobe = Some hdr /\
    (forall a, a + 1 < 400 -> read_be16 hdr a = read_be16 buf a) /\
    (forall a, a + 3 < 400 -> read_be32 hdr a = read_be32 buf a).
Proof.
  intros H. unfold dt_imageio_dng_write_tiff_header in H.
  destruct (header_directory_reads xs ys filter whitelevel) as (buf & Eb & Lb & _).
  rewrite Eb in H. cbn [mbind option_bind] in H.
  destruct (header_data_reads buf hdr xtrans wb_coeffs adobe Lb H) as (_ & Fr & _).
  exists buf. repeat split; auto.
  - intros a Ha. apply read_be16_ext. intros i Hi. apply Fr. lia.
  - intros a Ha. apply DngFacts.read_be32_ext. intros i Hi. apply Fr. lia.
Qed.

Lemma header_entry (xs ys filter : Z) (xtrans hdr : bytes) (whitelevel : F32.t)
    (wb_coeffs adobe : list F32.t) (i : nat) (tag type count value : Z) :
  dt_imageio_dng_write_tiff_header ADOBE_COEFF_FACTOR xs ys filter xtrans whitelevel
    wb_coeffs adobe = Some hdr ->
  ifd_entries xs ys filter whitelevel !! i = Some (tag, type, count, value) ->
  read_entry hdr (Z.of_nat i) = Some (tag, type, count, value mod 2 ^ 32).
Proof.
  intros H Hi.
  destruct (header_reads _ _ _ _ _ _ _ _ H) as (buf & Eb & Lb & Hd & F16 & F32).
  destruct (header_directory_reads xs ys filter whitelevel) as (buf' & Eb' & _ & _ & Hent).
  rewrite Eb in Eb'. inversion Eb'; subst buf'. clear Eb'.
  destruct (Hent i tag type count value Hi) as (R1 & R2 & R3 & R4).
  assert (Hlt : (i < 22)%nat) by (apply lookup_lt_Some in Hi; exact Hi).
  unfold read_entry.
  rewrite !F16 by lia. rewrite !F32 by lia.
  rewrite R1, R2, R3, R4. reflexivity.
Qed.

(** X8.  The bytes written start with the big-endian marker 'M' 'M', the
    magic number 42 and the offset 10 of the directory; the directory
    counts 21 entries, their tags are those of [ifd_tags] in strictly
    ascending order (as TIFF requires), and the offset of the next
    directory after them is 0.  584 bytes are written. *)
Theorem tiff_header_directory_sorted (xs ys filter : Z) (xtrans hdr : bytes)
    (whitelevel : F32.t) (wb_coeffs adobe : list F32.t) :
  dt_imageio_dng_write_tiff_header ADOBE_COEFF_FACTOR xs ys filter xtrans whitelevel
    wb_coeffs adobe = Some hdr ->
  length hdr = 584%nat /\
  load8 hdr 0 = Some 77 /\ load8 hdr 1 = Some 77 /\
  read_be16 hdr 2 = Some 42 /\ read_be32 hdr 4 = Some 10 /\
  read_be16 hdr 10 = Some (Z.of_nat (length ifd_tags)) /\
  (forall i tag, ifd_tags !! i = Some tag ->
                 read_be16 hdr (12 + 12 * Z.of_nat i) = Some tag) /\
  read_be32 hdr (12 + 12 * Z.of_nat (length ifd_tags)) = Some 0 /\
  StronglySorted Z.lt ifd_tags.
Proof.
  intros H.
  destruct (header_reads _ _ _ _ _ _ _ _ H) as (buf & Eb & Lb & Hd & F16 & F32).
  destruct (header_data_reads buf hdr xtrans wb_coeffs adobe Lb Hd) as (Lh & Fr & _).
  destruct (header_directory_reads xs ys filter whitelevel)
    as (buf' & Eb' & _ & (B0 & B1 & B2 & B3 & B4 & B10 & Bn) & Hent).
  rewrite Eb in Eb'. inversion Eb'; subst buf'. clear Eb'.
  split; [exact Lh |].
  split; [rewrite Fr by lia; exact B0 |].
  split; [rewrite Fr by lia; exact B1 |].
  split; [rewrite F16 by lia; rewrite (read_be16_eq buf 2 0 42 B2 B3); reflexivity |].
  split; [rewrite F32 by lia; exact B4 |].
  split; [rewrite F16 by lia; exact B10 |].
  split; [| split].
  - intros i tag Hi.
    assert (Hlt : (i < 21)%nat) by (apply lookup_lt_Some in Hi; exact Hi).
    rewrite F16 by lia.
    assert (He : exists type count value,
               ifd_entries xs ys filter whitelevel !! i = Some (tag, type, count, value)).
    { do 21 (destruct i as [| i];
             [cbn in Hi; inversion Hi; subst tag; do 3 eexists; reflexivity |]).
      cbn in Hlt. lia. }
    destruct He as (type & count & value & He).
    apply (Hent i tag type count value He).
  - rewrite F32 by (cbn; lia). exact Bn.
  - unfold ifd_tags. repeat constructor.
Qed.

Lemma short_value (x : Z) : uint32 (Z.shiftl x 16) mod 2 ^ 32 = (x mod 2 ^ 16) * 2 ^ 16.
Proof.
  unfold uint32. rewrite Z.mod_mod by lia. rewrite Z.shiftl_mul_pow2 by lia.
  change (2 ^ 32) with (2 ^ 16 * 2 ^ 16).
  rewrite Z.mul_mod_distr_r by lia. reflexivity.
Qed.

(** X9.  Image width, image length and rows per strip are stored as SHORT
    values, so only [xs mod 65536] and [ys mod 65536] reach the file (in the
    upper half of the value field); samples are single 32-bit floats; the
    strip starts right behind the header (its offset is the number of bytes
    written) and its byte count is [ys * xs * 4] modulo 2^32. *)
Theorem tiff_header_image_layout (xs ys filter : Z) (xtrans hdr : bytes)
    (whitelevel : F32.t) (wb_coeffs adobe : list F32.t) :
  dt_imageio_dng_write_tiff_header ADOBE_COEFF_FACTOR xs ys filter xtrans whitelevel
    wb_coeffs adobe = Some hdr ->
  read_entry hdr 1 = Some (256, SHORT, 1, (xs mod 2 ^ 16) * 2 ^ 16) /\
  read_entry hdr 2 = Some (257, SHORT, 1, (ys mod 2 ^ 16) * 2 ^ 16) /\
  read_entry hdr 9 = Some (278, SHORT, 1, (ys mod 2 ^ 16) * 2 ^ 16) /\
  read_entry hdr 3 = Some (258, SHORT, 1, 32 * 2 ^ 16) /\
  read_entry hdr 8 = Some (277, SHORT, 1, 1 * 2 ^ 16) /\
  read_entry hdr 12 = Some (339, SHORT, 1, 3 * 2 ^ 16) /\
  read_entry hdr 6 = Some (273, LONG, 1, Z.of_nat (length hdr)) /\
  read_entry hdr 10 = Some (279, LONG, 1, (ys * xs * 4) mod 2 ^ 32).
Proof.
  intros H.
  assert (Lh : length hdr = 584%nat).
  { destruct (header_reads _ _ _ _ _ _ _ _ H) as (buf & Eb & Lb & Hd & _).
    apply (header_data_reads buf hdr xtrans wb_coeffs adobe Lb Hd). }
  pose proof (fun i tag type count value =>
                header_entry xs ys filter xtrans hdr whitelevel wb_coeffs adobe
                  i tag type count value H) as He.
  repeat split.
  - rewrite (He 1%nat _ _ _ _ eq_refl : read_entry hdr 1 = _), short_value. reflexivity.
  - rewrite (He 2%nat _ _ _ _ eq_refl : read_entry hdr 2 = _), short_value. reflexivity.
  - rewrite (He 9%nat _ _ _ _ eq_refl : read_entry hdr 9 = _), short_value. reflexivity.
  - rewrite (He 3%nat _ _ _ _ eq_refl : read_entry hdr 3 = _). reflexivity.
  - rewrite (He 8%nat _ _ _ _ eq_refl : read_entry hdr 8 = _). reflexivity.
  - rewrite (He 12%nat _ _ _ _ eq_refl : read_entry hdr 12 = _). reflexivity.
  - rewrite (He 6%nat _ _ _ _ eq_refl : read_entry hdr 6 = _), Lh. reflexivity.
  - rewrite (He 10%nat _ _ _ _ eq_refl : read_entry hdr 10 = _). unfold uint32. rewrite Z.mod_mod by lia. reflexivity.
Qed.

Lemma cfapattern_cases (filter : Z) :
  cfapattern filter = 65794 \/ cfapattern filter = 16908289 \/
  cfapattern filter = 16777729 \/ cfapattern filter = 33620224.
Proof.
  unfold cfapattern.
  destruct (filter =? 2492765332); [left; reflexivity |].
  destruct (filter =? 1229539657); [right; left; reflexivity |].
  destruct (filter =? 1633771873); [right; right; left; reflexivity |].
  right; right; right; reflexivity.
Qed.

(** X10.  For [filter = 9] (X-Trans) the repeat pattern is 6 x 6 and the
    pattern entry points at the 36 bytes at offset 400; for any other
    filter the repeat pattern is 2 x 2 and the four pattern bytes are in the
    value field itself, one of RGGB, GBRG, GRBG and (for every other
    filter) BGGR.  The 36 bytes of [xtrans] are copied to offset 400 in
    either case. *)
Theorem tiff_header_cfa_pattern (xs ys filter : Z) (xtrans hdr : bytes)
    (whitelevel : F32.t) (wb_coeffs adobe : list F32.t) :
  dt_imageio_dng_write_tiff_header ADOBE_COEFF_FACTOR xs ys filter xtrans whitelevel
    wb_coeffs adobe = Some hdr ->
  (filter = 9 ->
   read_entry hdr 13 = Some (33421, SHORT, 2, 6 * 65536 + 6) /\
   read_entry hdr 14 = Some (33422, BYTE, 36, 400)) /\
  (filter <> 9 ->
   read_entry hdr 13 = Some (33421, SHORT, 2, 2 * 65536 + 2) /\
   read_entry hdr 14 = Some (33422, BYTE, 4, cfapattern filter) /\
   (cfapattern filter = 65794 \/ cfapattern filter = 16908289 \/
    cfapattern filter = 16777729 \/ cfapattern filter = 33620224)) /\
  (forall j, (j < 36)%nat -> load8 hdr (Z.of_nat (400 + j)) = xtrans !! j).
Proof.
  intros H.
  pose proof (fun i tag type count value =>
                header_entry xs ys filter xtrans hdr whitelevel wb_coeffs adobe
                  i tag type count value H) as He.
  split; [| split].
  - intros ->. split.
    + rewrite (He 13%nat _ _ _ _ eq_refl : read_entry hdr 13 = _). reflexivity.
    + rewrite (He 14%nat _ _ _ _ eq_refl : read_entry hdr 14 = _). reflexivity.
  - intros Hf. apply Z.eqb_neq in Hf. split; [| split].
    + rewrite (He 13%nat _ _ _ _ eq_refl : read_entry hdr 13 = _), Hf. reflexivity.
    + rewrite (He 14%nat _ _ _ _ eq_refl : read_entry hdr 14 = _), Hf.
      destruct (cfapattern_cases filter) as [-> | [-> | [-> | ->]]]; reflexivity.
    + apply cfapattern_cases.
  - destruct (header_reads _ _ _ _ _ _ _ _ H) as (buf & Eb & Lb & Hd & _).
    apply (header_data_reads buf hdr xtrans wb_coeffs adobe Lb Hd).
Qed.

(** X11.  The colour matrix is stored as nine signed rationals at offset
    480 and the as-shot neutral as three rationals at offset 556, each as
    numerator and denominator in two's complement.  When the first
    coefficient of the camera matrix is a NaN, the matrix is the built-in
    XYZ to sRGB matrix over 1000000; otherwise its numerators are the
    rounded products with [ADOBE_COEFF_FACTOR] and that factor is the
    denominator.  The denominators of the neutral are always 1000000. *)
Theorem tiff_header_rationals (xs ys filter : Z) (xtrans hdr : bytes)
    (whitelevel : F32.t) (wb_coeffs adobe : list F32.t) :
  dt_imageio_dng_write_tiff_header ADOBE_COEFF_FACTOR xs ys filter xtrans whitelevel
    wb_coeffs adobe = Some hdr ->
  read_entry hdr 18 = Some (50721, SRATIONAL, 9, 480) /\
  read_entry hdr 19 = Some (50728, RATIONAL, 3, 556) /\
  exists (a00 : F32.t) (m coeffs : list Z) (den : Z),
    adobe !! 0%nat = Some a00 /\
    (if F32Conv.is_nan a00
     then m = default_matrix /\ den = 1000000
     else camera_matrix ADOBE_COEFF_FACTOR adobe = Some m /\ den = ADOBE_COEFF_FACTOR) /\
    neutral_coeffs 1000000 wb_coeffs = Some coeffs /\
    length m = 9%nat /\ length coeffs = 3%nat /\
    (forall j num, m !! j = Some num ->
       read_be32 hdr (480 + Z.of_nat j * 8) = Some (num mod 2 ^ 32) /\
       read_be32 hdr (484 + Z.of_nat j * 8) = Some (den mod 2 ^ 32)) /\
    (forall j num, coeffs !! j = Some num ->
       read_be32 hdr (556 + Z.of_nat j * 8) = Some (num mod 2 ^ 32) /\
       read_be32 hdr (560 + Z.of_nat j * 8) = Some 1000000).
Proof.
  intros H.
  pose proof (fun i tag type count value =>
                header_entry xs ys filter xtrans hdr whitelevel wb_coeffs adobe
                  i tag type count value H) as He.
  split; [rewrite (He 18%nat _ _ _ _ eq_refl : read_entry hdr 18 = _); reflexivity |].
  split; [rewrite (He 19%nat _ _ _ _ eq_refl : read_entry hdr 19 = _); reflexivity |].
  destruct (header_reads _ _ _ _ _ _ _ _ H) as (buf & Eb & Lb & Hd & _).
  apply (header_data_reads buf hdr xtrans wb_coeffs adobe Lb Hd).
Qed.

End Header.

Lemma sample_header_written :
  dt_imageio_dng_write_tiff_header 10000 4000 6000 9 sample_xtrans F32.one
    sample_wb sample_adobe = Some sample_header.
Proof. vm_compute. reflexivity. Qed.

Lemma tiff_header_directory_sorted_witness :
  length sample_header = 584%nat.
Proof.
  apply (tiff_header_directory_sorted 10000 4000 6000 9 sample_xtrans sample_header
           F32.one sample_wb sample_adobe).
  vm_compute. reflexivity.
Defined.

Lemma tiff_header_image_layout_witness :
  read_entry sample_header 1 = Some (256, SHORT, 1, (4000 mod 2 ^ 16) * 2 ^ 16).
Proof.
  apply (tiff_header_image_layout 10000 4000 6000 9 sample_xtrans sample_header
           F32.one sample_wb sample_adobe).
  vm_compute. reflexivity.
Defined.

Lemma tiff_header_cfa_pattern_witness :
  read_entry sample_header 14 = Some (33422, BYTE, 36, 400).
Proof.
  apply (proj1 (tiff_header_cfa_pattern 10000 4000 6000 9 sample_xtrans sample_header
                  F32.one sample_wb sample_adobe ltac:(vm_compute; reflexivity))).
  reflexivity.
Defined.

Lemma tiff_header_rationals_witness :
  read_entry sample_header 18 = Some (50721, SRATIONAL, 9, 480).
Proof.
  apply (tiff_header_rationals 10000 4000 6000 9 sample_xtrans sample_header
           F32.one sample_wb sample_adobe).
  vm_compute. reflexivity.
Defined.

Lemma make_tag_roundtrip_witness :
  exists buf',
    dt_imageio_dng_make_tag 256 SHORT 1 (-1) (replicate 40 0) (12 + 12 * 1) 255
    = Some (buf', 12 + 12 * 1 + 12, (255 + 1) mod 256) /\
    length buf' = length (replicate 40 0) /\
    read_entry buf' 1 = Some (256, SHORT, 1, (-1) mod 2 ^ 32) /\
    (forall j, j < 12 + 12 * 1 \/ 12 + 12 * 1 + 11 < j ->
               load8 buf' j = load8 (replicate 40 0) j).
Proof.
  apply (make_tag_roundtrip 256 SHORT 1 (-1) (replicate 40 0) 1 255);
    [lia | simpl; lia | lia | unfold SHORT; lia | lia].
Defined.

End DngHeaderFacts.

(** ** imageio_dng.h: the file writer *)

Module DngFileFacts.
Import Dng DngHeader DngData DngFile DngFileData DngHeaderFacts.
Local Open Scope Z_scope.

Lemma flat_map_length_4 (f : F32.t -> bytes) (l : list F32.t) :
  (forall x, length (f x) = 4%nat) -> length (flat_map f l) = (4 * length l)%nat.
Proof.
  intros H. induction l as [| x l IH]; [reflexivity |].
  cbn [flat_map length]. rewrite length_app, H, IH. lia.
Qed.

Lemma load8_app_l (a b : bytes) (i : Z) :
  i < Z.of_nat (length a) -> load8 (a ++ b) i = load8 a i.
Proof.
  intros H. unfold load8. destruct (decide (0 <= i)); [| reflexivity].
  apply lookup_app_l. lia.
Qed.

Lemma read_entry_app (a b : bytes) (i : Z) :
  12 + 12 * i + 11 < Z.of_nat (length a) ->
  read_entry (a ++ b) i = read_entry a i.
Proof.
  intros H. unfold read_entry, read_be16, read_be32.
  rewrite !load8_app_l by lia. reflexivity.
Qed.

Section File.
Variable ADOBE_COEFF_FACTOR : Z.
Variable float_bytes : F32.t -> bytes.
Variable dt_exif_write_blob : bytes -> Z -> bytes -> bytes.

(** X13.  For an image of [wd] x [ht] pixels with less than 2^32 bytes of
    data, what [dt_imageio_write_dng] writes before it closes the file is
    the 584 bytes of the header with the data following at once, and the
    two strip entries of the header describe it: StripOffsets is the offset
    of the first data byte and StripByteCounts the number of data bytes.
    The floats are written as they are in memory, whatever the byte order
    of the host, behind a header that declares big-endian.  With a null
    [exif] this is the file on return; otherwise the file is what
    [dt_exif_write_blob] makes of it. *)
Theorem write_dng_strip_matches_data (pixel : list F32.t) (wd ht : Z)
    (exif : option bytes) (exif_len filter : Z)
    (xtrans file : bytes) (whitelevel : F32.t) (wb_coeffs adobe : list F32.t) :
  (forall x, length (float_bytes x) = 4%nat) ->
  0 <= wd < 2 ^ 31 -> 0 <= ht < 2 ^ 31 -> wd * ht * 4 < 2 ^ 32 ->
  dt_imageio_write_dng ADOBE_COEFF_FACTOR float_bytes dt_exif_write_blob pixel wd ht
    exif exif_len filter xtrans whitelevel wb_coeffs adobe = Some file ->
  exists hdr written,
    dt_imageio_dng_write_tiff_header ADOBE_COEFF_FACTOR wd ht filter xtrans whitelevel
      wb_coeffs adobe = Some hdr /\
    (Z.to_nat (wd * ht) <= length pixel)%nat /\
    written = hdr ++ flat_map float_bytes (take (Z.to_nat (wd * ht)) pixel) /\
    file = match exif with
           | Some blob => dt_exif_write_blob blob exif_len written
           | None => written
           end /\
    read_entry written 6 = Some (273, LONG, 1, Z.of_nat (length hdr)) /\
    read_entry written 10
    = Some (279, LONG, 1, Z.of_nat (length written) - Z.of_nat (length hdr)).
Proof.
  intros H4 Hw Hh Hsz. unfold dt_imageio_write_dng.
  assert (Hwd : uint32 wd = wd) by (unfold uint32; apply Z.mod_small; lia).
  assert (Hht : uint32 ht = ht) by (unfold uint32; apply Z.mod_small; lia).
  assert (Hn : Velvia.size_t_mul (Velvia.size_t_of_int wd) (Velvia.size_t_of_int ht)
               = wd * ht).
  { unfold Velvia.size_t_mul, Velvia.size_t_of_int.
    rewrite (Z.mod_small wd), (Z.mod_small ht) by lia.
    apply Z.mod_small. change (2 ^ 64) with (2 ^ 31 * 2 ^ 33). nia. }
  rewrite Hwd, Hht, Hn.
  destruct (dt_imageio_dng_write_tiff_header ADOBE_COEFF_FACTOR wd ht filter xtrans
              whitelevel wb_coeffs adobe) as [hdr |] eqn:Eh; [| discriminate].
  cbn [mbind option_bind].
  destruct (decide _) as [Hp | Hp]; [| discriminate].
  cbv zeta. intros E.
  exists hdr, (hdr ++ flat_map float_bytes (take (Z.to_nat (wd * ht)) pixel)).
  split; [reflexivity |]. split; [exact Hp |]. split; [reflexivity |].
  split; [destruct exif; inversion E; reflexivity |].
  assert (Lh : length hdr = 584%nat).
  { destruct (header_reads _ _ _ _ _ _ _ _ _ Eh) as (buf & Eb & Lb & Hd & _).
    apply (header_data_reads ADOBE_COEFF_FACTOR buf hdr xtrans wb_coeffs adobe Lb Hd). }
  rewrite !read_entry_app by (rewrite Lh; lia).
  rewrite (header_entry ADOBE_COEFF_FACTOR wd ht filter xtrans hdr whitelevel wb_coeffs
             adobe 6%nat _ _ _ _ Eh eq_refl : read_entry hdr 6 = _).
  rewrite (header_entry ADOBE_COEFF_FACTOR wd ht filter xtrans hdr whitelevel wb_coeffs
             adobe 10%nat _ _ _ _ Eh eq_refl : read_entry hdr 10 = _).
  rewrite length_app, flat_map_length_4 by exact H4.
  rewrite length_take, Lh. split; [reflexivity |].
  do 3 f_equal. unfold uint32. rewrite Z.mod_mod by lia.
  rewrite Z.mod_small by lia. lia.
Qed.

End File.

Lemma write_dng_strip_matches_data_witness :
  exists hdr written,
    dt_imageio_dng_write_tiff_header 10000 2 1 9 sample_xtrans F32.one sample_wb sample_adobe
    = Some hdr /\
    (Z.to_nat (2 * 1) <= length [F32.one; F32.half])%nat /\
    written = hdr ++ flat_map sample_float_bytes (take (Z.to_nat (2 * 1)) [F32.one; F32.half]) /\
    default [] (dt_imageio_write_dng 10000 sample_float_bytes sample_exif_write_blob
                  [F32.one; F32.half] 2 1 (Some [73; 73]) 2 9
                  sample_xtrans F32.one sample_wb sample_adobe)
    = sample_exif_write_blob [73; 73] 2 written /\
    read_entry written 6 = Some (273, LONG, 1, Z.of_nat (length hdr)) /\
    read_entry written 10
    = Some (279, LONG, 1, Z.of_nat (length written) - Z.of_nat (length hdr)).
Proof.
  apply (write_dng_strip_matches_data 10000 sample_float_bytes sample_exif_write_blob
           [F32.one; F32.half] 2 1 (Some [73; 73]) 2 9
           sample_xtrans _ F32.one sample_wb sample_adobe).
  - intros x. reflexivity.
  - lia.
  - lia.
  - lia.
  - vm_compute. reflexivity.
Defined.

End DngFileFacts.

(** ** darktable-bench: locating the script and the sidecar *)

Module BenchPathsFacts.
Import Bench BenchMain BenchPaths.
Local Open Scope string_scope.

Lemma contains_cons_false (sub : string) (a : ascii) (s : string) :
  contains sub (String a s) = false -> contains sub s = false.
Proof.
  cbn [contains]. intros H. apply orb_false_iff in H. exact (proj2 H).
Qed.

Lemma contains_char_head (c a : ascii) (s : string) :
  contains (String c EmptyString) (String a s) = false -> Ascii.eqb a c = false.
Proof.
  intros H. destruct (Ascii.eqb_spec a c) as [-> | Hne]; [| reflexivity].
  exfalso. cbn [contains String.prefix] in H.
  destruct (ascii_dec c c) as [_ | N]; [| exact (N eq_refl)].
  destruct s; discriminate H.
Qed.

Lemma rsplit_char_none (c : ascii) (s : string) :
  contains (String c EmptyString) s = false -> rsplit_char c s = None.
Proof.
  induction s as [| a s IH]; intros H; [reflexivity |].
  cbn [rsplit_char]. rewrite IH by (eapply contains_cons_false; exact H).
  rewrite (contains_char_head c a s H). reflexivity.
Qed.

Lemma rsplit_char_last (c : ascii) (dir exe : string) :
  contains (String c EmptyString) exe = false ->
  rsplit_char c (dir ++ String c exe) = Some (dir, exe).
Proof.
  intros H. induction dir as [| a dir IH].
  - cbn [String.append rsplit_char]. rewrite rsplit_char_none by exact H.
    rewrite Ascii.eqb_refl. reflexivity.
  - cbn [String.append rsplit_char]. rewrite IH. reflexivity.
Qed.

Section Env.
Variable getcwd : string.

(** X14.  [whereami] never raises.  For a script name without any '/' it
    returns "/" (the root directory, not the current one), unless the name
    is empty; for [dir/exe] it returns [dir/] when that starts with a
    separator and the current directory followed by [/dir/] otherwise; only
    for an empty name or one that ends in '/' does it return the current
    directory, and then without a '/' at the end. *)
Theorem whereami_cases (dir exe : string) :
  contains "/" exe = false ->
  whereami getcwd exe
  = Return (if String.eqb exe "" then getcwd else "/") /\
  whereami getcwd (dir ++ "/" ++ exe)
  = Return (if String.eqb exe "" then getcwd
            else if sep_head (dir ++ "/") then dir ++ "/"
                 else getcwd ++ "/" ++ dir ++ "/").
Proof.
  intros H. split.
  - unfold whereami, rpartition. rewrite rsplit_char_none by exact H.
    destruct (String.eqb exe "") eqn:E; reflexivity.
  - unfold whereami, rpartition.
    change (dir ++ "/" ++ exe) with (dir ++ String "/" exe).
    rewrite rsplit_char_last by exact H.
    destruct (String.eqb exe "") eqn:E; [reflexivity |].
    unfold starts_with_sep.
    destruct (dir ++ "/") as [| a p] eqn:Ep.
    + destruct dir; discriminate Ep.
    + destruct (sep_head (String a p)); reflexivity.
Qed.

End Env.

Lemma length_append (a b : string) :
  String.length (a ++ b) = String.length a + String.length b.
Proof. induction a as [| c a IH]; [reflexivity |]. cbn. rewrite IH. reflexivity. Qed.

Lemma append_assoc (a b c : string) : (a ++ b) ++ c = a ++ b ++ c.
Proof. induction a as [| x a IH]; [reflexivity |]. cbn. rewrite IH. reflexivity. Qed.

Lemma endswith_app (a suf : string) : endswith (a ++ suf) suf = true.
Proof.
  unfold endswith. rewrite length_append.
  replace (String.length a + String.length suf - String.length suf)
    with (String.length a + 0) by lia.
  rewrite BenchMore.slice_from_app, BenchMore.slice_from_0, String.eqb_refl.
  rewrite andb_true_r. apply Nat.leb_le. lia.
Qed.

Lemma whereami_returns (getcwd argv0 : string) :
  exists loc, whereami getcwd argv0 = Return loc.
Proof.
  unfold whereami, rpartition.
  destruct (rsplit_char "/" argv0) as [[path exe] |].
  - destruct (String.eqb exe ""); [eexists; reflexivity |].
    unfold starts_with_sep. destruct (path ++ "/") as [| a p] eqn:Ep.
    + destruct path; discriminate Ep.
    + destruct (sep_head (String a p)); eexists; reflexivity.
  - destruct (String.eqb argv0 ""); eexists; reflexivity.
Qed.

(** X15.  [locate_xmp] with a version never raises.  Every path it returns
    ends in [-VERSION.xmp], a trailing ".xmp" of the given name having been
    dropped first.  For a name with a directory part the file system is not
    consulted: the result is the name itself if it starts with a separator
    and the current directory followed by the name otherwise.  For a bare
    name the result is the current directory followed by the name when the
    name exists, or else a path for which [os.path.exists] answered yes;
    the script exits with code 1 only when the name is bare and exists
    neither as given nor under src/tests/benchmark of the current
    directory. *)
Theorem locate_xmp_outcome (getcwd argv0 : string) (path_exists : string -> bool)
    (xmp version : string) :
  version <> "" ->
  match locate_xmp getcwd argv0 path_exists xmp version with
  | Return p =>
      endswith p ("-" ++ version ++ ".xmp") = true /\
      (if has_sep (sidecar_name xmp version)
       then p = (if sep_head (sidecar_name xmp version)
                 then sidecar_name xmp version
                 else getcwd ++ "/" ++ sidecar_name xmp version)
       else (path_exists (sidecar_name xmp version) = true /\
             p = getcwd ++ "/" ++ sidecar_name xmp version) \/
            (path_exists (sidecar_name xmp version) = false /\
             path_exists p = true))
  | Exit code =>
      code = 1%Z /\
      has_sep (sidecar_name xmp version) = false /\
      path_exists (sidecar_name xmp version) = false /\
      path_exists (getcwd ++ "/src/tests/benchmark/" ++ sidecar_name xmp version) = false
  | Raise _ => False
  end.
Proof.
  intros Hv. unfold locate_xmp.
  apply String.eqb_neq in Hv. rewrite Hv. cbn [negb].
  fold (sidecar_name xmp version).
  assert (Hend : forall pre, endswith (pre ++ sidecar_name xmp version)
                               ("-" ++ version ++ ".xmp") = true).
  { intros pre. unfold sidecar_name. rewrite <- append_assoc. apply endswith_app. }
  set (name := sidecar_name xmp version) in *.
  assert (Hne : name <> "").
  { subst name. unfold sidecar_name.
    destruct (if endswith xmp ".xmp" then _ else _); discriminate. }
  destruct (has_sep name) eqn:Hs.
  - unfold starts_with_sep. destruct name as [| a n] eqn:En; [contradiction |].
    rewrite <- En in *. destruct (sep_head name) eqn:Hh.
    + split; [exact (Hend "") | reflexivity].
    + split; [| reflexivity]. rewrite <- append_assoc. apply Hend.
  - destruct (path_exists name) eqn:E1.
    + split; [rewrite <- append_assoc; apply Hend |]. left. auto.
    + destruct (whereami_returns getcwd argv0) as [loc ->].
      destruct (path_exists (loc ++ name)) eqn:E2.
      * split; [apply Hend |]. right. auto.
      * destruct (path_exists (getcwd ++ "/src/tests/benchmark/" ++ name)) eqn:E3.
        -- split; [rewrite <- append_assoc; apply Hend |]. right. auto.
        -- auto.
Qed.

Lemma locate_xmp_outcome_witness :
  match locate_xmp "/home/user" "./darktable-bench" (String.eqb "darktable-bench-null.xmp")
          "darktable-bench.xmp" "null" with
  | Return p =>
      endswith p ("-" ++ "null" ++ ".xmp") = true /\
      (if has_sep (sidecar_name "darktable-bench.xmp" "null")
       then p = (if sep_head (sidecar_name "darktable-bench.xmp" "null")
                 then sidecar_name "darktable-bench.xmp" "null"
                 else "/home/user" ++ "/" ++ sidecar_name "darktable-bench.xmp" "null")
       else (String.eqb "darktable-bench-null.xmp"
               (sidecar_name "darktable-bench.xmp" "null") = true /\
             p = "/home/user" ++ "/" ++ sidecar_name "darktable-bench.xmp" "null") \/
            (String.eqb "darktable-bench-null.xmp"
               (sidecar_name "darktable-bench.xmp" "null") = false /\
             String.eqb "darktable-bench-null.xmp" p = true))
  | Exit code =>
      code = 1%Z /\
      has_sep (sidecar_name "darktable-bench.xmp" "null") = false /\
      String.eqb "darktable-bench-null.xmp" (sidecar_name "darktable-bench.xmp" "null") = false /\
      String.eqb "darktable-bench-null.xmp"
        ("/home/user" ++ "/src/tests/benchmark/" ++ sidecar_name "darktable-bench.xmp" "null")
      = false
  | Raise _ => False
  end.
Proof.
  apply (locate_xmp_outcome "/home/user" "./darktable-bench"
           (String.eqb "darktable-bench-null.xmp") "darktable-bench.xmp" "null").
  discriminate.
Defined.

Lemma whereami_cases_witness :
  whereami "/home/user" "darktable-bench" = Return "/" /\
  whereami "/home/user" ("tools" ++ "/" ++ "darktable-bench")
  = Return ("/home/user" ++ "/" ++ "tools" ++ "/").
Proof.
  apply (whereami_cases "/home/user" "tools" "darktable-bench"). reflexivity.
Defined.

End BenchPathsFacts.

(** ** Exact and bounded rounding *)

Module FloatExact.
Import FloatFacts.
Local Open Scope Z_scope.

Lemma shr_1_exact (m : Z) :
  shr_1 (Build_shr_record (m * 2) false false) = Build_shr_record m false false.
Proof.
  destruct m as [| p | p]; [reflexivity | |].
  - replace (Zpos p * 2) with (Zpos p~0) by lia. reflexivity.
  - replace (Zneg p * 2) with (Zneg p~0) by lia. reflexivity.
Qed.

(** Shifting out [n] zero bits is exact. *)
Lemma iter_shr_1_exact (n : positive) :
  forall m : Z,
    SpecFloat.iter_pos shr_1 n (Build_shr_record (m * 2 ^ Zpos n) false false)
    = Build_shr_record m false false.
Proof.
  induction n as [n IH | n IH |]; intros m; cbn [SpecFloat.iter_pos].
  - replace (m * 2 ^ Zpos n~1) with (m * 2 ^ Zpos n * 2 ^ Zpos n * 2).
    + rewrite shr_1_exact, IH, IH. reflexivity.
    + replace (Zpos n~1) with (Zpos n + Zpos n + 1) by lia.
      rewrite !Z.pow_add_r by lia. change (2 ^ 1) with 2. ring.
  - replace (m * 2 ^ Zpos n~0) with (m * 2 ^ Zpos n * 2 ^ Zpos n).
    + rewrite IH, IH. reflexivity.
    + replace (Zpos n~0) with (Zpos n + Zpos n) by lia.
      rewrite !Z.pow_add_r by lia. ring.
  - change (2 ^ 1) with 2. apply shr_1_exact.
Qed.

Lemma shr_exact (m e k : Z) :
  0 <= k ->
  shr (Build_shr_record (m * 2 ^ k) false false) (e - k) k
  = (Build_shr_record m false false, e).
Proof.
  intros Hk. destruct k as [| p | p]; [| | lia].
  - cbn [shr]. change (2 ^ 0) with 1. rewrite Z.mul_1_r, Z.sub_0_r. reflexivity.
  - cbn [shr]. rewrite iter_shr_1_exact. f_equal. lia.
Qed.

Lemma Zdigits2_mul_pow2 (m : positive) (k : Z) :
  0 <= k -> Zdigits2 (Zpos m * 2 ^ k) = Zpos (digits2_pos m) + k.
Proof.
  intros Hk. pose proof (digits2_bounds m) as [Dl Du].
  assert (Hp : 0 < 2 ^ k) by (apply pow2_pos; exact Hk).
  destruct (Zpos m * 2 ^ k) as [| q | q] eqn:E; [lia | | lia].
  cbn [Zdigits2]. apply digits2_unique. rewrite <- E.
  replace (Zpos (digits2_pos m) + k - 1) with (Zpos (digits2_pos m) - 1 + k) by lia.
  rewrite !Z.pow_add_r by lia. nia.
Qed.

Lemma Zdigits2_le (z k : Z) : 0 <= k -> 0 <= z < 2 ^ k -> Zdigits2 z <= k.
Proof.
  intros Hk [Hz Hu]. destruct z as [| p | p]; [cbn; lia | | lia].
  cbn [Zdigits2]. pose proof (digits2_bounds p) as [Dl _].
  destruct (Z.le_gt_cases (Zpos (digits2_pos p)) k) as [? | Hgt]; [assumption | exfalso].
  assert (2 ^ k <= 2 ^ (Zpos (digits2_pos p) - 1)) by (apply Z.pow_le_mono_r; lia).
  lia.
Qed.

Lemma Zdigits2_bound (z : Z) : 0 <= z -> z < 2 ^ Zdigits2 z.
Proof.
  intros Hz. destruct z as [| p | p]; [cbn; lia | | lia].
  cbn [Zdigits2]. apply digits2_bounds.
Qed.

Section Rounding.
Variables prec emax : Z.
Hypothesis Hprec : 0 < prec.

Local Abbreviation fexp := (SpecFloat.fexp prec emax).

(** A value that is a float rounds to itself. *)
Lemma round_exact (s : bool) (m : positive) (e k : Z) :
  0 <= k -> bounded prec emax m e = true ->
  binary_round_aux prec emax s (Zpos m * 2 ^ k) (e - k) loc_Exact = S754_finite s m e.
Proof.
  intros Hk Hb. unfold bounded, canonical_mantissa in Hb.
  apply andb_prop in Hb. destruct Hb as [Hcan Hmax].
  apply Z.eqb_eq in Hcan.
  unfold binary_round_aux, shr_fexp. rewrite Zdigits2_mul_pow2 by exact Hk.
  replace (Zpos (digits2_pos m) + k + (e - k)) with (Zpos (digits2_pos m) + e) by lia.
  rewrite Hcan. replace (e - (e - k)) with k by lia.
  cbn [shr_record_of_loc]. rewrite shr_exact by exact Hk.
  cbn [shr_m loc_of_shr_record round_nearest_even Zdigits2].
  rewrite Hcan, Z.sub_diag. cbn [shr shr_record_of_loc shr_m].
  rewrite Hmax. reflexivity.
Qed.

(** The two shifts of [binary_round_aux] made explicit. *)
Lemma binary_round_aux_shape (sx : bool) (mx ex : Z) (lx : location) :
  0 <= mx ->
  exists z q e1 e2,
    0 <= z <= mx + 1 /\
    e1 = Z.max (fexp (Zdigits2 mx + ex)) ex /\
    e2 = Z.max (fexp (Zdigits2 z + e1)) e1 /\
    q = z / 2 ^ (e2 - e1) /\
    binary_round_aux prec emax sx mx ex lx
    = match q with
      | Z0 => S754_zero sx
      | Zpos m => if e2 <=? emax - prec then S754_finite sx m e2 else S754_infinity sx
      | Zneg _ => S754_nan
      end.
Proof.
  intros Hm. unfold binary_round_aux, shr_fexp.
  pose proof (shr_m_e (shr_record_of_loc mx lx) ex (fexp (Zdigits2 mx + ex) - ex)) as Hs1.
  rewrite shr_record_of_loc_m in Hs1. specialize (Hs1 Hm).
  destruct (shr (shr_record_of_loc mx lx) ex _) as [mrs1 e1].
  cbn [fst snd] in Hs1. destruct Hs1 as [Hm1 He1].
  assert (H1 : 0 <= shr_m mrs1 <= mx).
  { rewrite Hm1. split; [apply Z.div_pos; [exact Hm | apply pow2_pos; lia] |].
    apply Z.div_le_upper_bound; [apply pow2_pos; lia |].
    assert (1 <= 2 ^ Z.max (fexp (Zdigits2 mx + ex) - ex) 0)
      by (pose proof (pow2_pos (Z.max (fexp (Zdigits2 mx + ex) - ex) 0) ltac:(lia)); lia).
    nia. }
  pose proof (round_nearest_even_range (shr_m mrs1) (loc_of_shr_record mrs1)) as Hr.
  set (z := round_nearest_even (shr_m mrs1) (loc_of_shr_record mrs1)) in *.
  pose proof (shr_m_e (shr_record_of_loc z loc_Exact) e1 (fexp (Zdigits2 z + e1) - e1)) as Hs2.
  rewrite shr_record_of_loc_m in Hs2. specialize (Hs2 ltac:(lia)).
  destruct (shr (shr_record_of_loc z loc_Exact) e1 _) as [mrs2 e2].
  cbn [fst snd] in Hs2. destruct Hs2 as [Hm3 He2].
  exists z, (shr_m mrs2), e1, e2.
  split; [lia |]. split; [lia |]. split; [lia |]. split; [| reflexivity].
  rewrite Hm3. f_equal. f_equal. lia.
Qed.

(** A finite result has at most [prec] digits and an exponent in range. *)
Lemma binary_round_aux_finite (sx : bool) (mx ex : Z) (lx : location)
    (s : bool) (m : positive) (e : Z) :
  0 <= mx ->
  binary_round_aux prec emax sx mx ex lx = S754_finite s m e ->
  Zpos (digits2_pos m) <= prec /\ e <= emax - prec /\ s = sx.
Proof.
  intros Hm H.
  destruct (binary_round_aux_shape sx mx ex lx Hm) as (z & q & e1 & e2 & Hz & He1 & He2 & Hq & E).
  rewrite E in H. destruct q as [| p | p]; [discriminate H | | discriminate H].
  destruct (e2 <=? emax - prec) eqn:Eov; [| discriminate H].
  inversion H; subst s p e. apply Z.leb_le in Eov.
  split; [| split; [exact Eov | reflexivity]].
  pose proof (Zdigits2_bound z ltac:(lia)) as Hzb.
  pose proof (Zdigits2_nonneg z) as Hdz.
  set (dz := Zdigits2 z) in *.
  set (n := e2 - e1) in *.
  assert (Hn : 0 <= n) by lia.
  assert (Hfe : dz + e1 - prec <= fexp (dz + e1)) by (rewrite fexp_eq; lia).
  destruct (Z.le_gt_cases n dz) as [Hle | Hgt].
  - assert (Hlt : z / 2 ^ n < 2 ^ (dz - n)).
    { apply div_pow2_upper; try lia. replace (n + (dz - n)) with dz by lia. exact Hzb. }
    rewrite <- Hq in Hlt.
    pose proof (Zdigits2_le (Zpos m) (dz - n) ltac:(lia) ltac:(lia)) as Hd.
    cbn [Zdigits2] in Hd. lia.
  - exfalso.
    assert (2 ^ dz <= 2 ^ n) by (apply Z.pow_le_mono_r; lia).
    assert (z / 2 ^ n = 0) by (apply Z.div_small; lia).
    lia.
Qed.

(** A small product does not overflow. *)
Lemma binary_round_aux_no_overflow (sx : bool) (mx ex : Z) (lx : location) (k : Z) :
  0 <= k -> 0 <= mx -> mx + 1 < 2 ^ k ->
  SpecFloat.emin prec emax <= emax - prec ->
  ex <= emax - prec ->
  k + ex <= emax ->
  k + Z.max (k + ex - prec) (Z.max (SpecFloat.emin prec emax) ex) <= emax ->
  binary_round_aux prec emax sx mx ex lx = S754_zero sx \/
  exists m e, binary_round_aux prec emax sx mx ex lx = S754_finite sx m e.
Proof.
  intros Hk Hm Hu Hemin Hex Hkex Hbig.
  destruct (binary_round_aux_shape sx mx ex lx Hm) as (z & q & e1 & e2 & Hz & He1 & He2 & Hq & E).
  rewrite E. clear E.
  assert (Hq0 : 0 <= q) by (rewrite Hq; apply Z.div_pos; [lia | apply pow2_pos; lia]).
  destruct q as [| p | p]; [left; reflexivity | | lia].
  right.
  pose proof (Zdigits2_le mx k Hk ltac:(lia)) as Hd.
  pose proof (Zdigits2_le z k Hk ltac:(lia)) as Hdz.
  pose proof (Zdigits2_nonneg mx). pose proof (Zdigits2_nonneg z).
  rewrite !fexp_eq in He1, He2.
  assert (He2' : e2 <= emax - prec) by lia.
  apply Z.leb_le in He2'. rewrite He2'. eauto.
Qed.

Lemma SFdiv_finite (x y : spec_float) (s : bool) (m : positive) (e : Z) :
  SFdiv prec emax x y = S754_finite s m e ->
  Zpos (digits2_pos m) <= prec /\ e <= emax - prec.
Proof.
  destruct x as [sx | sx | | sx mx ex]; destruct y as [sy | sy | | sy my ey];
    cbn [SFdiv]; try discriminate.
  unfold SFdiv_core_binary.
  set (s' := ex - ey - _).
  set (m' := match s' with Z.pos _ => Z.shiftl (Zpos mx) s' | 0 => Zpos mx | Z.neg _ => 0 end).
  assert (Hm' : 0 <= m').
  { subst m'. destruct s'; [lia | | lia]. apply Z.shiftl_nonneg. lia. }
  pose proof (Z_div_mod m' (Zpos my) ltac:(lia)) as Hdm.
  destruct (Z.div_eucl m' (Zpos my)) as [q r]. destruct Hdm as [Hdm Hr].
  intros H. assert (Hq : 0 <= q) by nia.
  destruct (binary_round_aux_finite _ _ _ _ _ _ _ Hq H) as (A & B & _). auto.
Qed.

End Rounding.
End FloatExact.

(** ** velvia.c: neutral pixels *)

Module VelviaGray.
Import Velvia VelviaSpec VelviaData FloatFacts FloatExact VelviaFacts.
Local Open Scope Z_scope.

Lemma prec24 : 0 < F32.prec.
Proof. reflexivity. Qed.

Lemma canonical_exponent (m : positive) (e : Z) :
  bounded F32.prec F32.emax m e = true ->
  Z.max (Zpos (digits2_pos m) + e - 24) (-149) = e /\ e <= 104.
Proof.
  intros Hb. unfold bounded, canonical_mantissa in Hb.
  apply andb_prop in Hb. destruct Hb as [Hcan Hmax].
  apply Z.eqb_eq in Hcan. apply Z.leb_le in Hmax.
  rewrite (fexp_eq F32.prec F32.emax) in Hcan.
  change (SpecFloat.emin F32.prec F32.emax) with (-149) in Hcan.
  change F32.prec with 24 in Hcan. change (F32.emax - F32.prec) with 104 in Hmax.
  auto.
Qed.

Lemma bounded_intro (m : positive) (e : Z) :
  Z.max (Zpos (digits2_pos m) + e - 24) (-149) = e -> e <= 104 ->
  bounded F32.prec F32.emax m e = true.
Proof.
  intros Hcan Hmax. unfold bounded, canonical_mantissa.
  rewrite (fexp_eq F32.prec F32.emax).
  change (SpecFloat.emin F32.prec F32.emax) with (-149).
  change F32.prec with 24. change (F32.emax - 24) with 104.
  rewrite Hcan, Z.eqb_refl. apply Z.leb_le in Hmax. rewrite Hmax. reflexivity.
Qed.

(** [0.5f * (v + v)] is [v] again, exactly, for a float [v] below 2^104. *)
Lemma half_of_double (m : positive) (e : Z) :
  bounded F32.prec F32.emax m e = true -> e < 104 ->
  F32.mul F32.half (F32.add (S754_finite false m e) (S754_finite false m e))
  = S754_finite false m e.
Proof.
  intros Hb He. destruct (canonical_exponent m e Hb) as [Hcan Hmax].
  pose proof (digits2_bounds m) as [Dl Du].
  set (d := Zpos (digits2_pos m)) in *.
  assert (Hd : 1 <= d) by (unfold d; lia).
  unfold F32.add, F32.mul, F32.half. cbn [SFadd].
  rewrite Z.min_id, shl_align_ge by lia. cbn [fst cond_Zopp].
  change (Zpos m + Zpos m) with (Zpos (m + m)). rewrite Pos.add_diag.
  cbn [binary_normalize]. unfold binary_round.
  cbn [digits2_pos]. rewrite Pos2Z.inj_succ. fold d.
  rewrite (fexp_eq F32.prec F32.emax).
  change (SpecFloat.emin F32.prec F32.emax) with (-149). change F32.prec with 24.
  rewrite shl_align_ge by lia.
  destruct (Z.eq_dec d 24) as [Hn | Hs].
  - (* normal: the exponent grows *)
    replace (Zpos m~0) with (Zpos m * 2 ^ 1) by (change (2 ^ 1) with 2; lia).
    replace e with (e + 1 - 1) at 1 by lia.
    rewrite (round_exact 24 F32.emax false m (e + 1) 1 ltac:(lia))
      by (apply bounded_intro; fold d; lia).
    cbn [SFmul xorb].
    replace (Zpos (8388608 * m)) with (Zpos m * 2 ^ 23) by (change (2 ^ 23) with 8388608; lia).
    replace (-24 + (e + 1)) with (e - 23) by lia.
    apply (round_exact 24 F32.emax false m e 23 ltac:(lia)). exact Hb.
  - (* subnormal: the mantissa grows *)
    assert (He' : e = -149) by lia.
    replace (Zpos m~0) with (Zpos m~0 * 2 ^ 0) by (change (2 ^ 0) with 1; lia).
    replace e with (e - 0) at 1 by lia.
    rewrite (round_exact 24 F32.emax false m~0 e 0 ltac:(lia))
      by (apply bounded_intro; [cbn [digits2_pos]; rewrite Pos2Z.inj_succ; fold d; lia | lia]).
    cbn [SFmul xorb].
    replace (Zpos (8388608 * m~0)) with (Zpos m * 2 ^ 24)
      by (change (2 ^ 24) with 16777216; lia).
    replace (-24 + e) with (e - 24) by lia.
    apply (round_exact 24 F32.emax false m e 24 ltac:(lia)). exact Hb.
Qed.

Lemma sub_self (s : bool) (m : positive) (e : Z) :
  F32.sub (S754_finite s m e) (S754_finite s m e) = S754_zero false.
Proof.
  unfold F32.sub. cbn [SFsub]. rewrite Z.min_id, shl_align_ge by lia.
  cbn [fst]. rewrite Z.sub_diag. reflexivity.
Qed.

(** Floats that are finite: zeros and finite numbers. *)
Lemma mul_zero_r (sat : F32.t) :
  FloatSpec.finite sat -> exists s, F32.mul sat (S754_zero false) = S754_zero s.
Proof.
  destruct sat as [s | s | | s m e]; cbn; intros H; try contradiction; eauto.
Qed.

Lemma le_one_exponent (m : positive) (e : Z) :
  F32.le (S754_finite false m e) F32.one = true -> e <= -23.
Proof.
  unfold F32.le, SFleb, F32.one. cbn [SFcompare].
  destruct (Z.compare_spec e (-23)); [lia | lia | discriminate].
Qed.

Lemma le_not_lt_one (m : positive) (e : Z) :
  F32.le (S754_finite false m e) F32.one = true ->
  F32.lt (S754_finite false m e) F32.one = false ->
  S754_finite false m e = F32.one.
Proof.
  unfold F32.le, F32.lt, SFleb, SFltb, F32.one. cbn [SFcompare].
  destruct (Z.compare_spec e (-23)) as [-> | |]; [| discriminate | discriminate].
  rewrite Pos.compare_cont_spec. cbn [Pos.switch_Eq].
  destruct (Pos.compare_spec m 8388608) as [-> | |]; [reflexivity | discriminate | discriminate].
Qed.

(** One output channel of a neutral pixel. *)
Lemma out_channel_gray (sat v : F32.t) :
  FloatSpec.finite sat ->
  F32.wf v -> F32.in01 v -> v <> S754_zero true ->
  out_channel sat v v v = v.
Proof.
  intros Hsat Hwf [H0 H1] Hnz. unfold out_channel.
  destruct v as [s | s | | s m e].
  - destruct s; [contradiction |].
    destruct (mul_zero_r sat Hsat) as [s' Hm].
    change (F32.add (S754_zero false) (S754_zero false)) with (S754_zero false).
    change (F32.mul F32.half (S754_zero false)) with (S754_zero false).
    change (F32.sub (S754_zero false) (S754_zero false)) with (S754_zero false).
    rewrite Hm. destruct s'; reflexivity.
  - destruct s; discriminate.
  - discriminate.
  - destruct s; [discriminate |].
    pose proof (le_one_exponent m e H1) as He.
    rewrite half_of_double by (try exact Hwf; lia).
    rewrite sub_self.
    destruct (mul_zero_r sat Hsat) as [s' ->].
    change (F32.add (S754_finite false m e) (S754_zero s')) with (S754_finite false m e).
    unfold CLAMPS.
    change (F32.gt (S754_finite false m e) F32.zero) with true. cbv iota.
    destruct (F32.lt (S754_finite false m e) F32.one) eqn:El; [reflexivity |].
    symmetry. apply le_not_lt_one; assumption.
Qed.

(** A product of two floats that are at most 1 is finite. *)
Lemma mul_small (mx my : positive) (ex ey : Z) :
  Zpos (digits2_pos mx) <= 24 -> Zpos (digits2_pos my) <= 24 ->
  ex <= -23 -> ey <= -23 ->
  FloatSpec.finite (F32.mul (S754_finite false mx ex) (S754_finite false my ey)).
Proof.
  intros Dx Dy Hx Hy. unfold F32.mul. cbn [SFmul xorb].
  pose proof (digits2_bounds mx) as [_ Ux]. pose proof (digits2_bounds my) as [_ Uy].
  assert (Zpos mx < 2 ^ 24)
    by (apply Z.lt_le_trans with (1 := Ux); apply Z.pow_le_mono_r; lia).
  assert (Zpos my < 2 ^ 24)
    by (apply Z.lt_le_trans with (1 := Uy); apply Z.pow_le_mono_r; lia).
  destruct (binary_round_aux_no_overflow F32.prec F32.emax false
              (Zpos (mx * my)) (ex + ey) loc_Exact 49) as [-> | (m & e & ->)];
    try reflexivity.
  all: change F32.emax with 128; change F32.prec with 24;
       change (SpecFloat.emin 24 128) with (-149).
  all: try lia.
  rewrite Pos2Z.inj_mul. change (2 ^ 49) with (2 * (16777216 * 16777216)).
  change (2 ^ 24) with 16777216 in *. nia.
Qed.

(** The saturation factor of a pixel is finite when the strength, after the
    division by 100, is positive and at most 1. *)
Lemma saturation_finite (ds bias psat plum : F32.t) :
  F32.le (F32.div ds F32.hundred) F32.zero = false ->
  F32.le (F32.div ds F32.hundred) F32.one = true ->
  FloatSpec.finite (F32.mul (F32.div ds F32.hundred) (pweight_of bias psat plum)).
Proof.
  intros Hpos Hle. unfold pweight_of.
  set (A := F32.div _ (F32.add F32.one (F32.sub F32.one bias))).
  destruct (F32.div ds F32.hundred) as [s | s | | s mx ex] eqn:Es.
  - destruct s; discriminate Hpos.
  - destruct s; [discriminate Hpos | discriminate Hle].
  - discriminate Hle.
  - destruct s; [discriminate Hpos |].
    destruct (SFdiv_finite F32.prec F32.emax _ _ _ _ _ Es) as [Dx _].
    pose proof (le_one_exponent mx ex Hle) as Hx.
    unfold CLAMPS.
    destruct (F32.gt A F32.zero) eqn:Eg; [| reflexivity].
    destruct (F32.lt A F32.one) eqn:El.
    + destruct A as [sa | sa | | sa my ey] eqn:Ea.
      * reflexivity.
      * destruct sa; discriminate.
      * discriminate.
      * destruct sa; [discriminate Eg |].
        destruct (SFdiv_finite F32.prec F32.emax _ _ _ _ _ Ea) as [Dy _].
        apply mul_small; try assumption.
        apply le_one_exponent with (m := my).
        unfold F32.le, SFleb. unfold F32.lt, SFltb in El.
        destruct (SFcompare (S754_finite false my ey) F32.one) as [[| |] |];
          try discriminate El; reflexivity.
    + apply mul_small; [assumption | cbn; lia | assumption | lia].
Qed.

Section Pipeline.
Variable M : Z.

(** X16.  A strength that is, after the division by 100, at most 1 (the
    range of the slider) leaves every neutral pixel as it is: if the three
    colour channels of an input pixel hold the same value of [0,1], the
    three colour channels of the output pixel hold that value, bit for bit.
    The doubling, the halving and the difference in
    [in + saturation * (in - 0.5f * (in + in))] are exact and the
    saturation factor is finite, so the correction is a zero. *)
Theorem process_keeps_gray
    (ch : nat) (d : dt_iop_velvia_data_t) (md : Z)
    (ivoid ovoid : buffer) (roi_in roi_out : dt_iop_roi_t) :
  (3 <= ch)%nat ->
  (ch * npixels roi_out <= length ivoid)%nat ->
  (ch * npixels roi_out <= length ovoid)%nat ->
  (mask_flag M md = true -> ch = 4%nat) ->
  F32.le (F32.div (data_strength d) F32.hundred) F32.one = true ->
  exists out,
    process M ch d md ivoid ovoid roi_in roi_out = Some out /\
    forall (k : nat) (v : F32.t),
      (k < npixels roi_out)%nat ->
      F32.wf v -> F32.in01 v -> v <> S754_zero true ->
      (forall c, (c < 3)%nat -> ivoid !! (ch * k + c)%nat = Some v) ->
      forall c, (c < 3)%nat -> out !! (ch * k + c)%nat = Some v.
Proof.
  intros Hch Hi Ho Hmask Hs.
  destruct (process_lookup M ch d md ivoid ovoid roi_in roi_out Hch Hi Ho Hmask)
    as (out & E & L & Hlk).
  exists out. split; [exact E |].
  intros k v Hk Hwf Hin Hnz Hv c Hc.
  rewrite (Hlk k c ltac:(lia)), decide_True by exact Hk.
  unfold process_at.
  destruct (F32.le (F32.div (data_strength d) F32.hundred) F32.zero) eqn:Ez;
    [apply Hv; exact Hc |].
  rewrite decide_True by exact Hc. unfold transformed.
  rewrite (Hv 0%nat), (Hv 1%nat), (Hv 2%nat) by lia. cbn [mbind option_bind].
  unfold velvia_pixel.
  rewrite !out_channel_gray by (try assumption; apply saturation_finite; assumption).
  destruct c as [| [| c]]; reflexivity.
Qed.

End Pipeline.

Lemma process_keeps_gray_witness :
  exists out,
    process 1 4 data_default 0 [F32.half; F32.half; F32.half; F32.one] (blank 4)
      (mk_roi 1 1) (mk_roi 1 1) = Some out /\
    forall (k : nat) (v : F32.t),
      (k < npixels (mk_roi 1 1))%nat ->
      F32.wf v -> F32.in01 v -> v <> S754_zero true ->
      (forall c, (c < 3)%nat ->
                 [F32.half; F32.half; F32.half; F32.one] !! (4 * k + c)%nat = Some v) ->
      forall c, (c < 3)%nat -> out !! (4 * k + c)%nat = Some v.
Proof.
  apply (process_keeps_gray 1 4 data_default 0 [F32.half; F32.half; F32.half; F32.one]
           (blank 4) (mk_roi 1 1) (mk_roi 1 1)).
  - lia.
  - vm_compute. lia.
  - vm_compute. lia.
  - intros H. vm_compute in H. discriminate H.
  - vm_compute. reflexivity.
Defined.

End VelviaGray.
